(** * Mining pool: share pipeline, fraud inspector and engine rate limit

    A shallow embedding of the Go sources
      - [pool/core/pool.go]      (PoolCore, Pool, ProcessShare, SubmitShare),
      - [pool/core/job.go]       (Job, JobManager, hashJob, checkDifficulty),
      - [pool/core/worker.go]    (Worker),
      - [pool/core] share file   (Share, ShareResult, internalStore,
                                  DefaultShareValidator, ShareProcessor),
      - [pool/security/auth.go]  (the authenticator and the fraud Inspector),
      - [pool/http] handler file (SubmitShareHandler),
    followed by the properties checked against them.

    Conventions of the embedding.
      - A [time.Time] is the number of nanoseconds since the zero Time, as an
        unbounded [Z]; a [time.Duration] is an int64 count of nanoseconds and
        [Time.Sub] saturates at the int64 bounds, as in Go, while the
        negation of a [Duration] wraps around them.
      - Every call of [time.Now] / [time.Since] in the source is an explicit
        clock-reading argument of the embedded function, so no relation
        between two readings is assumed.
      - Go maps are [gmap]s; a missing key reads as the zero value.
      - An [error] is [option string]: [None] is [nil], [Some msg] carries the
        text of [errors.New msg].
      - Mutexes are not represented: each embedded method is the critical
        section it runs under its lock. *)

From Stdlib Require Import ZArith List String Ascii Lia Bool PrimFloat.
From stdpp Require Import base gmap strings list fin_maps.
Import ListNotations.
Local Open Scope Z_scope.

(** ** Package [time] *)

Module GoTime.

Abbreviation Time := Z (only parsing).
Abbreviation Duration := Z (only parsing).

Definition Second : Duration := 1000000000.
Definition Minute : Duration := 60 * Second.

Definition minDuration : Duration := - 2 ^ 63.
Definition maxDuration : Duration := 2 ^ 63 - 1.

(** The value an int64 result wraps around to. *)
Definition wrap64 (z : Z) : Z := (z + 2 ^ 63) mod 2 ^ 64 - 2 ^ 63.

(** [-d] on a [Duration]: the smallest duration is its own negation. *)
Definition Neg (d : Duration) : Duration := wrap64 (- d).

(** [t.Sub(u)]: the difference, clamped to the range of [Duration]. *)
Definition Sub (t u : Time) : Duration :=
  Z.max minDuration (Z.min maxDuration (t - u)).

(** [time.Since(t)] with the clock reading [now]. *)
Definition Since (now t : Time) : Duration := Sub now t.

Definition Add (t : Time) (d : Duration) : Time := t + d.
Definition IsZero (t : Time) : bool := t =? 0.
Definition After (t u : Time) : bool := u <? t.
Definition Before (t u : Time) : bool := t <? u.

End GoTime.

(** ** Packages [crypto/sha256] and [encoding/hex]

  Bytes are integers in [0, 255]; 32-bit words are integers with the
  wrap-around written out. *)

Module Sha256.

Definition mask32 : Z := 4294967295.
Definition w32 (x : Z) : Z := Z.land x mask32.
Definition add32 (x y : Z) : Z := w32 (x + y).
Definition rotr (n x : Z) : Z :=
  Z.lor (Z.shiftr x n) (w32 (Z.shiftl x (32 - n))).
Definition not32 (x : Z) : Z := Z.lxor x mask32.

Definition Ch (x y z : Z) : Z := Z.lxor (Z.land x y) (Z.land (not32 x) z).
Definition Maj (x y z : Z) : Z :=
  Z.lxor (Z.lxor (Z.land x y) (Z.land x z)) (Z.land y z).
Definition bigSigma0 (x : Z) : Z :=
  Z.lxor (Z.lxor (rotr 2 x) (rotr 13 x)) (rotr 22 x).
Definition bigSigma1 (x : Z) : Z :=
  Z.lxor (Z.lxor (rotr 6 x) (rotr 11 x)) (rotr 25 x).
Definition smallSigma0 (x : Z) : Z :=
  Z.lxor (Z.lxor (rotr 7 x) (rotr 18 x)) (Z.shiftr x 3).
Definition smallSigma1 (x : Z) : Z :=
  Z.lxor (Z.lxor (rotr 17 x) (rotr 19 x)) (Z.shiftr x 10).

(** The round constants and the initial hash value are not tabulated: they
    are derived from the first sixty-four primes, as the standard defines
    them, and evaluated once. *)
Definition is_prime (n : Z) : bool :=
  forallb (fun d => negb (n mod Z.of_nat d =? 0)) (seq 2 (Z.to_nat n - 2)).

Definition primes64 : list Z :=
  Eval vm_compute in
    firstn 64 (List.filter is_prime (map Z.of_nat (seq 2 400))).

(** The largest [r] below [2 ^ bits] whose cube is at most [n], bit by bit. *)
Fixpoint cube_root (bits : nat) (n r : Z) : Z :=
  match bits with
  | O => r
  | S b =>
      let r' := r + 2 ^ Z.of_nat b in
      cube_root b n (if r' * r' * r' <=? n then r' else r)
  end.

(** The first 32 bits of the fractional part of the cube root of a prime. *)
Definition K : list Z :=
  Eval vm_compute in
    map (fun p => cube_root 36 (p * 2 ^ 96) 0 mod 2 ^ 32) primes64.

(** The first 32 bits of the fractional part of the square root of a prime. *)
Definition initial : list Z :=
  Eval vm_compute in
    map (fun p => Z.sqrt (p * 2 ^ 64) mod 2 ^ 32) (firstn 8 primes64).

(** The [n] low bytes of [x], most significant first. *)
Fixpoint be_bytes (n : nat) (x : Z) : list Z :=
  match n with
  | O => []
  | S k => Z.land (Z.shiftr x (8 * Z.of_nat k)) 255 :: be_bytes k x
  end.

(** Padding: a 1 bit, zeros up to 56 mod 64, then the bit length on 8 bytes. *)
Definition pad (msg : list Z) : list Z :=
  let len := Z.of_nat (length msg) in
  msg ++ 128 :: repeat 0 (Z.to_nat ((55 - len) mod 64)) ++ be_bytes 8 (8 * len).

Fixpoint words (fuel : nat) (bs : list Z) : list Z :=
  match fuel, bs with
  | S k, b0 :: b1 :: b2 :: b3 :: rest =>
      (Z.shiftl b0 24 + Z.shiftl b1 16 + Z.shiftl b2 8 + b3) :: words k rest
  | _, _ => []
  end.

Definition word_at (w : list Z) (i : nat) : Z := nth i w 0.

(** One of the 64 rounds.  The state pairs the eight working variables with
    a window of sixteen schedule words that slides by one word per round. *)
Definition round (st : list Z * list Z) (k : Z) : list Z * list Z :=
  let '(v, w) := st in
  match v with
  | [a; b; c; d; e; f; g; h] =>
      let t1 :=
        add32 (add32 (add32 (add32 h (bigSigma1 e)) (Ch e f g)) k) (word_at w 0) in
      let t2 := add32 (bigSigma0 a) (Maj a b c) in
      let next :=
        add32 (add32 (add32 (smallSigma1 (word_at w 14)) (word_at w 9))
                     (smallSigma0 (word_at w 1))) (word_at w 0) in
      ([add32 t1 t2; a; b; c; add32 d t1; e; f; g], tl w ++ [next])
  | _ => st
  end.

Fixpoint add_words (xs ys : list Z) : list Z :=
  match xs, ys with
  | x :: xs', y :: ys' => add32 x y :: add_words xs' ys'
  | _, _ => []
  end.

Definition compress (h block : list Z) : list Z :=
  add_words h (fst (fold_left round K (h, block))).

Fixpoint blocks (fuel : nat) (h ws : list Z) : list Z :=
  match fuel with
  | O => h
  | S k =>
      match ws with
      | [] => h
      | _ => blocks k (compress h (firstn 16 ws)) (skipn 16 ws)
      end
  end.

(** [[]byte(s)] *)
Definition bytes_of_string (s : string) : list Z :=
  map (fun c => Z.of_N (N_of_ascii c)) (list_ascii_of_string s).

(** The 32-byte digest of a message. *)
Definition Sum256 (msg : list Z) : list Z :=
  let p := pad msg in
  let ws := words (length p) p in
  flat_map (be_bytes 4) (blocks (length ws) initial ws).

End Sha256.

Module Hex.

Definition digit (n : Z) : ascii :=
  if n <? 10 then ascii_of_N (Z.to_N (48 + n)) else ascii_of_N (Z.to_N (87 + n)).

(** [hex.EncodeToString]: two lower-case digits per byte. *)
Fixpoint EncodeToString (bs : list Z) : string :=
  match bs with
  | [] => EmptyString
  | b :: rest =>
      String (digit (Z.shiftr b 4))
             (String (digit (Z.land b 15)) (EncodeToString rest))
  end.

End Hex.

(** Go's [<] on strings is the byte-wise lexicographic order. *)
Definition go_string_lt (a b : string) : bool := String.ltb a b.

(** ** The IPv4 fragment of [net.ParseIP]

  [extractSubnet] in [pool/security/auth.go] relies on [net.ParseIP],
  [IP.To4], [IP.Mask] and [IP.String].  The inspector below is stated over
  an arbitrary key function of that type; [extractSubnetV4] is the function
  restricted to what the textual IPv4 parser accepts (four decimal fields
  of at most three digits, no leading zero, each at most 255, between ASCII
  white space), every other string being returned as it is.  That is what
  the source does with a string that [net.ParseIP] refuses, such as a miner
  id; it is not what the source does with an IPv6 or IPv4-mapped address,
  which it canonicalises or masks, nor with an address padded with Unicode
  white space, which it trims.  The function serves the concrete scenarios
  only, all of them on dotted IPv4 addresses and plain ids; no general
  statement rests on it. *)

Module Net.

Definition is_digit (c : ascii) : bool :=
  let n := N_of_ascii c in ((48 <=? n) && (n <=? 57))%N.

Definition is_space (c : ascii) : bool :=
  let n := N_of_ascii c in
  ((n =? 32) || (n =? 9) || (n =? 10) || (n =? 11) || (n =? 12) || (n =? 13))%N.

Fixpoint drop_spaces (cs : list ascii) : list ascii :=
  match cs with
  | c :: rest => if is_space c then drop_spaces rest else cs
  | [] => []
  end.

(** [strings.TrimSpace] on ASCII white space. *)
Definition TrimSpace (cs : list ascii) : list ascii :=
  rev (drop_spaces (rev (drop_spaces cs))).

Fixpoint split_dots (cs cur : list ascii) : list (list ascii) :=
  match cs with
  | [] => [rev cur]
  | c :: rest =>
      if Ascii.eqb c "."%char then rev cur :: split_dots rest []
      else split_dots rest (c :: cur)
  end.

Definition decimal (cs : list ascii) : Z :=
  fold_left (fun acc c => 10 * acc + (Z.of_N (N_of_ascii c) - 48)) cs 0.

Definition octet (cs : list ascii) : option Z :=
  match cs with
  | [] => None
  | c :: rest =>
      if forallb is_digit cs
         && (length cs <=? 3)%nat
         && negb (Ascii.eqb c "0"%char && negb (length rest =? 0)%nat)
         && (decimal cs <=? 255)
      then Some (decimal cs) else None
  end.

Definition parseIPv4 (cs : list ascii) : option (Z * Z * Z * Z) :=
  match map octet (split_dots cs []) with
  | [Some a; Some b; Some c; Some d] => Some (a, b, c, d)
  | _ => None
  end.

Definition digit_char (n : Z) : ascii := ascii_of_N (Z.to_N (48 + n)).

(** Decimal text of a byte. *)
Definition itoa (n : Z) : list ascii :=
  if n <? 10 then [digit_char n]
  else if n <? 100 then [digit_char (n / 10); digit_char (n mod 10)]
  else [digit_char (n / 100); digit_char ((n / 10) mod 10); digit_char (n mod 10)].

Definition extractSubnetV4 (ipStr : string) : string :=
  match parseIPv4 (TrimSpace (list_ascii_of_string ipStr)) with
  | Some (a, b, c, _) =>
      string_of_list_ascii
        (itoa a ++ "."%char :: itoa b ++ "."%char :: itoa c ++ ["."%char; "0"%char])
  | None => ipStr
  end.

End Net.

(** ** Package [pool/security]: the fraud inspector *)

Module Security.
Import GoTime.

Definition _windowSpan : Duration := 15 * Second.
Definition _maxRequestsPerSubnet : nat := 20.
Definition _nonceReuseWarn : nat := 3.
Definition _nonceReuseBlock : nat := 10.
Definition _greylistTimeout : Duration := 3 * Minute.
Definition _clockSkewTolerance : Duration := 2 * Minute.

Inductive ThreatLevel := NoThreat | Warn | Block.

Record Verdict := {
  Flagged : bool;
  Reason : string;
  Level : ThreatLevel
}.

(** The struct [state].  The one-field wrappers [record] and [usage] are
    identified with the slice they hold; a key absent from [Subnets] or
    [Tokens] reads as the nil slice. *)
Record state := {
  Greylist : gmap string Time;
  Subnets : gmap string (list Time);
  Tokens : gmap string (list Time);
  NonceMap : gmap string (gmap string Time)
}.

(** The state [LaunchInspector] allocates. *)
Definition LaunchInspector : state :=
  {| Greylist := ∅; Subnets := ∅; Tokens := ∅; NonceMap := ∅ |}.

(** The package variable [globalInspector]: [None] while it is nil. *)
Definition current (g : option state) : state :=
  match g with
  | Some st => st
  | None => LaunchInspector
  end.

Definition with_Greylist (st : state) (m : gmap string Time) : state :=
  {| Greylist := m; Subnets := Subnets st; Tokens := Tokens st; NonceMap := NonceMap st |}.
Definition with_Subnets (st : state) (m : gmap string (list Time)) : state :=
  {| Greylist := Greylist st; Subnets := m; Tokens := Tokens st; NonceMap := NonceMap st |}.
Definition with_Tokens (st : state) (m : gmap string (list Time)) : state :=
  {| Greylist := Greylist st; Subnets := Subnets st; Tokens := m; NonceMap := NonceMap st |}.
Definition with_NonceMap (st : state) (m : gmap string (gmap string Time)) : state :=
  {| Greylist := Greylist st; Subnets := Subnets st; Tokens := Tokens st; NonceMap := m |}.

(** [pruneOld]: the timestamps at most one window older than [now], in order. *)
Definition pruneOld (ts : list Time) (now : Time) : list Time :=
  List.filter (fun t => Sub now t <=? _windowSpan) ts.

(** The slices [LogRequest] stores back: the pruned window of a subnet key,
    and the pruned entries of a token, each with [now] appended. *)
Definition windowAfter (now : Time) (st : state) (key : string) : list Time :=
  pruneOld (default [] (Subnets st !! key)) now ++ [now].

Definition tokensAfter (now : Time) (st : state) (token : string) : list Time :=
  pruneOld (default [] (Tokens st !! token)) now ++ [now].

(** One pass of the loop body of [cleanGreylist], at the reading [now]. *)
Definition cleanGreylistTick (now : Time) (st : state) : state :=
  with_Greylist st
    (filter (fun kv : string * Time => ¬ (_greylistTimeout < Sub now kv.2)) (Greylist st)).

(** [cleanGreylist] over the ticks delivered so far, oldest first. *)
Definition cleanGreylist (ticks : list Time) (st : state) : state :=
  fold_left (fun s now => cleanGreylistTick now s) ticks st.

(** [Inspector.Check], with the reading taken by [time.Since]. *)
Definition Check (now : Time) (st : state) (subnet : string) : bool :=
  match Greylist st !! subnet with
  | None => false
  | Some added => Since now added <=? _greylistTimeout
  end.

(** [Inspector.checkNonceReuse]. *)
Definition checkNonceReuse (st : state) (minerID nonce : string) (now : Time)
  : (ThreatLevel * string) * state :=
  let seenBefore := default ∅ (NonceMap st !! minerID) in
  let kept :=
    filter (fun kv : string * Time => ¬ (_windowSpan < Sub now kv.2)) seenBefore in
  let seen := bool_decide (is_Some (kept !! nonce)) in
  let st' := with_NonceMap st (<[minerID := <[nonce := now]> kept]> (NonceMap st)) in
  if negb seen then ((NoThreat, ""%string), st')
  else ((Warn, "nonce reuse by miner within window"%string), st').

(** [Inspector.markToken]. *)
Definition markToken (st : state) (token : string) (now : Time)
  : (ThreatLevel * string) * state :=
  if String.eqb token "" then ((NoThreat, ""%string), st)
  else
    let u := pruneOld (default [] (Tokens st !! token)) now ++ [now] in
    let st' := with_Tokens st (<[token := u]> (Tokens st)) in
    if (_nonceReuseBlock <=? length u)%nat
    then ((Block, "hash reuse over hard threshold"%string), st')
    else if (_nonceReuseWarn <=? length u)%nat
    then ((Warn, "hash reuse approaching threshold"%string), st')
    else ((NoThreat, ""%string), st').

Section Inspector.

(** [extractSubnet], the key function built on package [net]. *)
Variable extractSubnet : string -> string.

(** [Inspector.LogRequest], with its own reading [now] of the clock. *)
Definition LogRequest (now : Time) (st : state) (ipOrSubnet token : string)
  : ThreatLevel * state :=
  let subnet := extractSubnet ipOrSubnet in
  let rec := pruneOld (default [] (Subnets st !! subnet)) now ++ [now] in
  let st1 := with_Subnets st (<[subnet := rec]> (Subnets st)) in
  let u := pruneOld (default [] (Tokens st1 !! token)) now ++ [now] in
  let st2 := with_Tokens st1 (<[token := u]> (Tokens st1)) in
  if (_maxRequestsPerSubnet <? length rec)%nat
  then (Block, with_Greylist st2 (<[subnet := now]> (Greylist st2)))
  else if (_nonceReuseWarn <=? length u)%nat && (length u <? _nonceReuseBlock)%nat
  then (Warn, st2)
  else if (_nonceReuseBlock <=? length u)%nat
  then (Block, st2)
  else (NoThreat, st2).

(** The clock-skew guard that opens [EvaluateShare]. *)
Definition clockSkewed (now ts : Time) : bool :=
  IsZero ts || After ts (Add now _clockSkewTolerance)
  || (_clockSkewTolerance <? Sub now ts).

(** [EvaluateShare].  [now] is the reading of line 144, [nowLog] the one
    [LogRequest] takes and [nowChk] the one [Check] takes; the first argument
    is [globalInspector] before the call, the second component of the result
    is the inspector's state after it. *)
Definition EvaluateShare (now nowLog nowChk : Time) (g : option state)
    (minerID ip nonce hash : string) (ts : Time) : Verdict * state :=
  let st := current g in
  if clockSkewed now ts
  then ({| Flagged := true; Reason := "clock skew out of tolerance"; Level := Warn |}, st)
  else
    let subnet := extractSubnet ip in
    let '(lvl, st1) := LogRequest nowLog st subnet nonce in
    match lvl with
    | Block =>
        ({| Flagged := true;
            Reason := "rate limit subnet/24 exceeded (greylisted)";
            Level := Block |}, st1)
    | _ =>
        let '((nlvl, nreason), st2) := checkNonceReuse st1 minerID nonce now in
        match nlvl with
        | Block => ({| Flagged := true; Reason := nreason; Level := Block |}, st2)
        | Warn => ({| Flagged := true; Reason := nreason; Level := Warn |}, st2)
        | NoThreat =>
            let '((hlvl, hreason), st3) := markToken st2 hash now in
            match hlvl with
            | Block => ({| Flagged := true; Reason := hreason; Level := Block |}, st3)
            | Warn => ({| Flagged := true; Reason := hreason; Level := Warn |}, st3)
            | NoThreat =>
                if Check nowChk st3 subnet
                then ({| Flagged := true; Reason := "subnet greylisted"; Level := Block |}, st3)
                else ({| Flagged := false; Reason := ""; Level := NoThreat |}, st3)
            end
        end
    end.

(** [IsFraudulentNonce]: the miner id stands in for the address, the hash is
    empty and the timestamp is a fresh reading [ts] of the clock. *)
Definition IsFraudulentNonce (ts now nowLog nowChk : Time) (g : option state)
    (minerID nonce : string) : bool * state :=
  let '(verdict, st) := EvaluateShare now nowLog nowChk g minerID minerID nonce "" ts in
  (match Level verdict with Block => true | _ => false end, st).

End Inspector.

(** *** The authenticator ([Authenticator.Middleware] and [extractToken])

    A request is represented by the value of its [Authorization] header, the
    empty string when the header is absent, as [Header.Get] returns it. *)

(** [strings.SplitN(s, " ", 2)] when it yields two parts: the text before
    the first space and the text after it; [None] when [s] has no space and
    the result is the single part [s]. *)
Fixpoint splitAtSpace (s : string) : option (string * string) :=
  match s with
  | EmptyString => None
  | String c rest =>
      if Ascii.eqb c " "%char then Some (EmptyString, rest)
      else
        match splitAtSpace rest with
        | Some (a, b) => Some (String c a, b)
        | None => None
        end
  end.

Definition extractToken (authHeader : string) : string :=
  if String.eqb authHeader "" then ""%string
  else
    match splitAtSpace authHeader with
    | Some (scheme, token) => if String.eqb scheme "Bearer" then token else ""%string
    | None => ""%string
    end.

(** What the middleware does with a request: answer 401, answer 403, or hand
    it to the next handler. *)
Inductive AuthOutcome := Unauthorized | Forbidden | Served.

Definition Middleware (apiKey authHeader : string) : AuthOutcome :=
  let token := extractToken authHeader in
  if String.eqb token "" then Unauthorized
  else if negb (String.eqb token apiKey) then Forbidden
  else Served.

(** The inspector after [markToken] was called for [token] at each of the
    readings [ts], oldest first. *)
Definition markTokenAt (token : string) (st : state) (ts : list Time) : state :=
  fold_left (fun s now => snd (markToken s token now)) ts st.

(** The answer of [markToken] when the token then has [n] entries. *)
Definition tokenLevel (n : nat) : ThreatLevel * string :=
  if (_nonceReuseBlock <=? n)%nat then (Block, "hash reuse over hard threshold"%string)
  else if (_nonceReuseWarn <=? n)%nat then (Warn, "hash reuse approaching threshold"%string)
  else (NoThreat, ""%string).

End Security.

(** ** Package [pool/metrics]: the two share counters

    Each counter is the number of [Inc] calls it received; both package
    variables are initialised, so the nil guards of the callers always pass. *)

Module Metrics.

Record t := {
  SharesValid : nat;
  SharesInvalid : nat
}.

Definition IncValid (m : t) : t :=
  {| SharesValid := S (SharesValid m); SharesInvalid := SharesInvalid m |}.
Definition IncInvalid (m : t) : t :=
  {| SharesValid := SharesValid m; SharesInvalid := S (SharesInvalid m) |}.

End Metrics.

(** ** Package [pool/core] *)

Module Core.
Import GoTime.

Module Share.
Record t := {
  ID : string;
  JobID : string;
  WorkerID : string;
  Nonce : string;
  Hash : string;
  Diff : float;
  Timestamp : Time;
  IP : string
}.
End Share.

Inductive ShareStatus := ShareAccepted | ShareDuplicate | ShareStale | ShareInvalid.

Module ShareResult.
Record t := {
  Status : ShareStatus;
  Description : string;
  Error : option string;
  Valid : bool
}.
End ShareResult.

Module Job.
Record t := {
  ID : string;
  Data : string;
  Target : string;
  CreatedAt : Time;
  ExpiresAt : Time;
  BlockHeight : Z;
  Active : bool
}.
End Job.

(** A [*Worker] is represented by the value it points to. *)
Module Worker.
Record t := {
  ID : string;
  connected : bool;
  job : option Job.t;
  shares : list Share.t
}.

Definition NewWorker (id : string) : t :=
  {| ID := id; connected := true; job := None; shares := [] |}.
Definition IsActive (w : t) : bool := connected w.
Definition Disconnect (w : t) : t :=
  {| ID := ID w; connected := false; job := job w; shares := shares w |}.
Definition AssignJob (w : t) (j : option Job.t) : t :=
  {| ID := ID w; connected := connected w; job := j; shares := shares w |}.
Definition CurrentJob (w : t) : option Job.t := job w.

(** [Worker.AddShare]: a nil share is refused. *)
Definition AddShare (w : t) (s : option Share.t) : t * option string :=
  match s with
  | None => (w, Some "invalid share"%string)
  | Some sh =>
      ({| ID := ID w; connected := connected w; job := job w;
          shares := shares w ++ [sh] |}, None)
  end.

(** The methods that write a worker, and a worker after a sequence of
    calls, oldest first. *)
Inductive Op :=
| OpAssignJob (j : option Job.t)
| OpAddShare (s : option Share.t)
| OpDisconnect.

Definition apply (w : t) (op : Op) : t :=
  match op with
  | OpAssignJob j => AssignJob w j
  | OpAddShare s => fst (AddShare w s)
  | OpDisconnect => Disconnect w
  end.

Definition applyAll (w : t) (ops : list Op) : t := fold_left apply ops w.

End Worker.

(** *** Hashing and the target comparison ([job.go] and the share file) *)

Definition sha256_hex (s : string) : string :=
  Hex.EncodeToString (Sha256.Sum256 (Sha256.bytes_of_string s)).

Definition hashJob (data nonce : string) : string :=
  sha256_hex (String.append data nonce).

Definition checkDifficulty (hash target : string) : bool :=
  go_string_lt hash target.

Definition calculateHash (data nonce : string) : string :=
  sha256_hex (String.append data nonce).

(** *** The [ShareStore] interface

    A store is a state of type [St] with the two methods; each method also
    receives the reading of the clock it may take. *)

Class ShareStore (St : Type) := {
  Exists : Time -> St -> string -> St * (bool * option string);
  Save : Time -> St -> Share.t -> St * option string
}.

(** [internalStore], the in-memory implementation. *)
Module internalStore.
Record t := {
  entries : gmap string Share.t;
  ttl : Duration
}.
End internalStore.

Definition newInternalStore (ttl : Duration) : internalStore.t :=
  {| internalStore.entries := ∅; internalStore.ttl := ttl |}.

Definition internalStore_cleanup (now : Time) (s : internalStore.t) : internalStore.t :=
  let cutoff := Add now (Neg (internalStore.ttl s)) in
  {| internalStore.entries :=
       filter (fun kv : string * Share.t => ¬ (Share.Timestamp kv.2 < cutoff))
              (internalStore.entries s);
     internalStore.ttl := internalStore.ttl s |}.

Definition internalStore_Exists (now : Time) (s : internalStore.t) (id : string)
  : internalStore.t * (bool * option string) :=
  let s' := internalStore_cleanup now s in
  (s', (bool_decide (is_Some (internalStore.entries s' !! id)), None)).

Definition internalStore_Save (now : Time) (s : internalStore.t) (share : Share.t)
  : internalStore.t * option string :=
  ({| internalStore.entries := <[Share.ID share := share]> (internalStore.entries s);
      internalStore.ttl := internalStore.ttl s |}, None).

#[export] Instance internalStore_ShareStore : ShareStore internalStore.t := {
  Exists := internalStore_Exists;
  Save := internalStore_Save
}.

(** A store observed from outside: any store, together with the number of
    successful saves it has received. *)
Module Counted.
Record t (St : Type) := {
  inner : St;
  saves : nat
}.
Arguments inner {St} _.
Arguments saves {St} _.
End Counted.

Definition Counted_Exists {St : Type} `{ShareStore St} (now : Time) (c : Counted.t St)
    (id : string) : Counted.t St * (bool * option string) :=
  let '(st, answer) := Exists now (Counted.inner c) id in
  ({| Counted.inner := st; Counted.saves := Counted.saves c |}, answer).

Definition Counted_Save {St : Type} `{ShareStore St} (now : Time) (c : Counted.t St)
    (share : Share.t) : Counted.t St * option string :=
  let '(st, err) := Save now (Counted.inner c) share in
  ({| Counted.inner := st;
      Counted.saves := match err with
                       | None => S (Counted.saves c)
                       | Some _ => Counted.saves c
                       end |}, err).

#[export] Instance Counted_ShareStore {St : Type} `{ShareStore St}
  : ShareStore (Counted.t St) := {
  Exists := Counted_Exists;
  Save := Counted_Save
}.

(** [saves] counts the successful saves of a store: a lookup leaves it as it
    is, a save adds one when it succeeds and nothing when it fails. *)
Definition countsSaves {St : Type} `{ShareStore St} (saves : St -> nat) : Prop :=
  (forall now st id, saves (fst (Exists now st id)) = saves st)
  /\ (forall now st share,
        saves (fst (Save now st share))
        = match snd (Save now st share) with
          | None => S (saves st)
          | Some _ => saves st
          end).

(** *** [DefaultShareValidator] and [ShareProcessor]

    The validator and the processor are taken over the same store, as the
    HTTP handler builds them. *)

Section Validator.

Context {St : Type} `{ShareStore St}.

Definition IsDuplicate (now : Time) (st : St) (share : Share.t) : bool * St :=
  let '(st', (found, _)) := Exists now st (Share.ID share) in (found, st').

Definition IsStale (now : Time) (share : Share.t) (ttl : Duration) : bool :=
  ttl <? Since now (Share.Timestamp share).

Definition IsValidHash (share : Share.t) (target : string) : bool :=
  go_string_lt (calculateHash (Share.JobID share) (Share.Nonce share)) target.

(** [DefaultShareValidator.ValidateShare]; the cases of the switch are
    evaluated in order, so the store is consulted first. *)
Definition ValidateShare (nowDup nowStale : Time) (st : St) (share : Share.t)
    (target : string) (ttl : Duration) : ShareResult.t * St :=
  let '(dup, st') := IsDuplicate nowDup st share in
  if dup then
    ({| ShareResult.Status := ShareDuplicate; ShareResult.Description := "duplicate share";
        ShareResult.Error := None; ShareResult.Valid := false |}, st')
  else if IsStale nowStale share ttl then
    ({| ShareResult.Status := ShareStale; ShareResult.Description := "stale share";
        ShareResult.Error := None; ShareResult.Valid := false |}, st')
  else if negb (IsValidHash share target) then
    ({| ShareResult.Status := ShareInvalid; ShareResult.Description := "invalid hash";
        ShareResult.Error := None; ShareResult.Valid := false |}, st')
  else
    ({| ShareResult.Status := ShareAccepted; ShareResult.Description := "share accepted";
        ShareResult.Error := None; ShareResult.Valid := true |}, st').

(** [ShareProcessor.Process]. *)
Definition Process (nowDup nowStale nowSave : Time) (st : St) (share : Share.t)
    (target : string) (ttl : Duration) : ShareResult.t * St :=
  let '(res, st1) := ValidateShare nowDup nowStale st share target ttl in
  if negb (ShareResult.Valid res) then
    ({| ShareResult.Status := ShareResult.Status res;
        ShareResult.Description := ShareResult.Description res;
        ShareResult.Error :=
          Some (String.append "rejected: " (ShareResult.Description res));
        ShareResult.Valid := ShareResult.Valid res |}, st1)
  else
    let '(st2, err) := Save nowSave st1 share in
    match err with
    | Some e =>
        ({| ShareResult.Status := ShareInvalid; ShareResult.Description := "save failure";
            ShareResult.Error := Some e; ShareResult.Valid := false |}, st2)
    | None => (res, st2)
    end.

End Validator.

(** *** [JobManager] *)

Record JobManager := {
  jobs : gmap string Job.t;
  timeout : Duration
}.

Definition NewJobManager (timeout : Duration) : JobManager :=
  {| jobs := ∅; timeout := timeout |}.

(** [JobManager.CleanupExpiredJobs]: the jobs that remain in the map. *)
Definition CleanupExpiredJobs (now : Time) (jm : JobManager) : JobManager :=
  {| jobs := filter (fun kv : string * Job.t => ¬ (Job.ExpiresAt kv.2 < now)) (jobs jm);
     timeout := timeout jm |}.

Section JobValidation.

(** [utils.ValidateUUID], a wrapper of the third-party [uuid.Parse]. *)
Variable ValidateUUID : string -> bool.

(** [jobID[4:]]; the source panics on an id shorter than four bytes, which
    is [None] here. *)
Definition drop4 (s : string) : option string :=
  if (String.length s <? 4)%nat then None
  else Some (String.substring 4 (String.length s - 4) s).

(** [JobManager.ValidateShare]: [None] stands for the panic above. *)
Definition JobManager_ValidateShare (now : Time) (jm : JobManager)
    (jobID nonce result : string) : option bool :=
  match jobs jm !! jobID with
  | None => Some false
  | Some jb =>
      if negb (Job.Active jb) then Some false
      else if After now (Job.ExpiresAt jb) then Some false
      else
        match drop4 jobID with
        | None => None
        | Some u =>
            if negb (ValidateUUID u) then Some false
            else
              let expected := hashJob (Job.Data jb) nonce in
              if negb (String.eqb expected result) then Some false
              else if negb (checkDifficulty expected (Job.Target jb)) then Some false
              else Some true
        end
  end.

End JobValidation.

(** *** [PoolCore], the engine *)

Record PoolCore := {
  workers : gmap string Worker.t;
  activeJobs : gmap string Job.t;
  workerShares : gmap string (list Share.t);
  lastSubmission : gmap string Time;
  ttlJob : Duration;
  interval : Duration
}.

Definition InitPool (ttl rate : Duration) : PoolCore :=
  {| workers := ∅; activeJobs := ∅; workerShares := ∅; lastSubmission := ∅;
     ttlJob := ttl; interval := rate |}.

Definition AppendWorker (pc : PoolCore) (id : string) (wrk : option Worker.t)
  : PoolCore * option string :=
  match wrk with
  | None => (pc, Some "worker invalid"%string)
  | Some w =>
      if String.eqb id "" then (pc, Some "worker invalid"%string)
      else
        ({| workers := <[id := w]> (workers pc); activeJobs := activeJobs pc;
            workerShares := workerShares pc; lastSubmission := lastSubmission pc;
            ttlJob := ttlJob pc; interval := interval pc |}, None)
  end.

Definition PurgeWorker (pc : PoolCore) (id : string) : PoolCore :=
  {| workers := delete id (workers pc); activeJobs := activeJobs pc;
     workerShares := delete id (workerShares pc);
     lastSubmission := delete id (lastSubmission pc);
     ttlJob := ttlJob pc; interval := interval pc |}.

Definition with_activeJobs (pc : PoolCore) (m : gmap string Job.t) : PoolCore :=
  {| workers := workers pc; activeJobs := m; workerShares := workerShares pc;
     lastSubmission := lastSubmission pc; ttlJob := ttlJob pc; interval := interval pc |}.

Definition removeExpiredJobs (now : Time) (pc : PoolCore) : PoolCore :=
  let threshold := Add now (Neg (ttlJob pc)) in
  with_activeJobs pc
    (filter (fun kv : string * Job.t => ¬ (Job.CreatedAt kv.2 < threshold)) (activeJobs pc)).

Definition DispatchJob (now : Time) (pc : PoolCore) (j : option Job.t) : PoolCore :=
  match j with
  | None => pc
  | Some jb =>
      if String.eqb (Job.ID jb) "" then pc
      else removeExpiredJobs now (with_activeJobs pc (<[Job.ID jb := jb]> (activeJobs pc)))
  end.

(** The section of [SubmitShare] that runs under [muShares] (lines 109 to
    119), for a non-nil share and the reading [now] taken just before the
    lock is acquired. *)
Definition submitSection (now : Time) (pc : PoolCore) (wid : string) (sh : Share.t)
  : PoolCore * option string :=
  let commit :=
    {| workers := workers pc; activeJobs := activeJobs pc;
       workerShares :=
         <[wid := default [] (workerShares pc !! wid) ++ [sh]]> (workerShares pc);
       lastSubmission := <[wid := now]> (lastSubmission pc);
       ttlJob := ttlJob pc; interval := interval pc |} in
  match lastSubmission pc !! wid with
  | Some last =>
      if Sub now last <? interval pc
      then (pc, Some "rate limit exceeded"%string)
      else (commit, None)
  | None => (commit, None)
  end.

(** [PoolCore.SubmitShare].  [nowJob] is the reading taken by [time.Since]
    in the job check, [now] the one of line 108; [s] is [None] for a nil
    share pointer.  The result pairs the engine after the call with the
    returned error. *)
Definition SubmitShare (nowJob now : Time) (pc : PoolCore) (wid : string)
    (s : option Share.t) : PoolCore * option string :=
  match s with
  | None => (pc, Some "nil share"%string)
  | Some sh =>
      match activeJobs pc !! Share.JobID sh with
      | None => (pc, Some "invalid or expired job"%string)
      | Some jb =>
          if ttlJob pc <? Since nowJob (Job.CreatedAt jb)
          then (pc, Some "invalid or expired job"%string)
          else
            match workers pc !! wid with
            | None => (pc, Some "worker not active"%string)
            | Some worker =>
                if negb (Worker.IsActive worker)
                then (pc, Some "worker not active"%string)
                else submitSection now pc wid sh
            end
      end
  end.

(** *** Schedules of engine operations

    Concurrent callers of the engine serialise on its locks.  A schedule
    lists the atomic steps in the order the locks grant them:
    a whole [SubmitShare] call; the locked section of a [SubmitShare] call
    whose job and worker checks ran earlier, against an earlier state; and
    the operations that write the job and worker maps.  The clock readings
    carried by the steps are unrelated to each other, a reading being taken
    before the lock is acquired.  [PurgeWorker], which deletes under the
    share lock too, joins these steps in the call schedules further down. *)
Inductive Step :=
| StepSubmit (wid : string) (s : option Share.t) (nowJob now : Time)
| StepSection (wid : string) (sh : Share.t) (now : Time)
| StepAppend (id : string) (wrk : option Worker.t)
| StepDispatch (j : option Job.t) (now : Time)
| StepExpire (now : Time).

(** The engine after a step, and the accepted submission it made, if any. *)
Definition step (pc : PoolCore) (st : Step) : PoolCore * option (string * Time) :=
  match st with
  | StepSubmit wid s nowJob now =>
      let '(pc', err) := SubmitShare nowJob now pc wid s in
      (pc', match err with None => Some (wid, now) | Some _ => None end)
  | StepSection wid sh now =>
      let '(pc', err) := submitSection now pc wid sh in
      (pc', match err with None => Some (wid, now) | Some _ => None end)
  | StepAppend id wrk => (fst (AppendWorker pc id wrk), None)
  | StepDispatch j now => (DispatchJob now pc j, None)
  | StepExpire now => (removeExpiredJobs now pc, None)
  end.

(** The engine after a schedule and the accepted submissions, oldest first. *)
Fixpoint run (pc : PoolCore) (sched : list Step) : PoolCore * list (string * Time) :=
  match sched with
  | [] => (pc, [])
  | st :: rest =>
      let '(pc1, acc) := step pc st in
      let '(pc2, log) := run pc1 rest in
      (pc2, match acc with Some a => a :: log | None => log end)
  end.

(** The submission times of the accepted submissions of worker [wid]. *)
Definition acceptedTimes (wid : string) (log : list (string * Time)) : list Time :=
  map snd (List.filter (fun e => String.eqb (fst e) wid) log).

(** Timestamps that are pairwise at least [d] apart, in increasing order. *)
Fixpoint spaced (d : Z) (ts : list Z) : Prop :=
  match ts with
  | [] => True
  | t :: rest => (forall u, In u rest -> d <= u - t) /\ spaced d rest
  end.

Definition ListShares (pc : PoolCore) (wid : string) : option (list Share.t) :=
  workerShares pc !! wid.

(** *** Schedules with [PurgeWorker]

    [PurgeWorker] runs two locked sections, one after the other: under
    [muWrks] it deletes the worker (lines 69 to 71), under [muShares] its
    share list and its rate-limit time (lines 73 to 76).  Other callers may
    be granted a lock between the two. *)
Definition purgeWorkers (pc : PoolCore) (id : string) : PoolCore :=
  {| workers := delete id (workers pc); activeJobs := activeJobs pc;
     workerShares := workerShares pc; lastSubmission := lastSubmission pc;
     ttlJob := ttlJob pc; interval := interval pc |}.

Definition purgeShares (pc : PoolCore) (id : string) : PoolCore :=
  {| workers := workers pc; activeJobs := activeJobs pc;
     workerShares := delete id (workerShares pc);
     lastSubmission := delete id (lastSubmission pc);
     ttlJob := ttlJob pc; interval := interval pc |}.

(** A call schedule lists the steps above and the two sections of
    [PurgeWorker], in the order the locks grant them. *)
Inductive Call :=
| CallStep (st : Step)
| CallPurgeWorkers (id : string)
| CallPurgeShares (id : string).

Definition call (pc : PoolCore) (c : Call) : PoolCore * option (string * Time) :=
  match c with
  | CallStep st => step pc st
  | CallPurgeWorkers id => (purgeWorkers pc id, None)
  | CallPurgeShares id => (purgeShares pc id, None)
  end.

Fixpoint runCalls (pc : PoolCore) (calls : list Call)
  : PoolCore * list (string * Time) :=
  match calls with
  | [] => (pc, [])
  | c :: rest =>
      let '(pc1, acc) := call pc c in
      let '(pc2, log) := runCalls pc1 rest in
      (pc2, match acc with Some a => a :: log | None => log end)
  end.

(** No call of the schedule deletes the rate-limit time of worker [wid]. *)
Definition keepsRateLimit (wid : string) (calls : list Call) : bool :=
  forallb (fun c => match c with
                    | CallPurgeShares id => negb (String.eqb id wid)
                    | _ => true
                    end) calls.

(** *** [Pool], the facade

    Of the struct [Pool] only [Engine] and [ShareStore] are kept: [cfg], [db]
    and [payment] are never read by the functions below.  A nil [ShareStore]
    is [None]. *)

Module Pool.
Record t (St : Type) := {
  Engine : PoolCore;
  ShareStore : option St
}.
Arguments Engine {St} _.
Arguments ShareStore {St} _.
End Pool.

Definition NewPool {St : Type} (store : option St) : Pool.t St :=
  {| Pool.Engine := InitPool (30 * Second) (2 * Second); Pool.ShareStore := store |}.

Definition isJobActive {St : Type} (now : Time) (p : Pool.t St) (jobID : string) : bool :=
  if String.eqb jobID "" then false
  else
    match activeJobs (Pool.Engine p) !! jobID with
    | None => false
    | Some j => Since now (Job.CreatedAt j) <=? ttlJob (Pool.Engine p)
    end.

(** The job named [jobID] is unknown to the engine, or older than the
    engine's time to live at the reading [now]. *)
Definition jobStale (now : Time) (pc : PoolCore) (jobID : string) : Prop :=
  match activeJobs pc !! jobID with
  | None => True
  | Some j => Job.CreatedAt j + ttlJob pc < now
  end.

Definition validateShareBasic (now : Time) (s : Share.t) : option string :=
  if String.eqb (Share.JobID s) "" || String.eqb (Share.WorkerID s) ""
     || String.eqb (Share.Nonce s) "" || String.eqb (Share.Hash s) ""
  then Some "missing required fields"%string
  else if IsZero (Share.Timestamp s) || (5 * Minute <? Since now (Share.Timestamp s))
  then Some "timestamp out of range"%string
  else None.

(** The conditions under which [validateShareBasic] reports an error. *)
Definition shapeFails (now : Z) (s : Share.t) : Prop :=
  Share.JobID s = ""%string \/ Share.WorkerID s = ""%string
  \/ Share.Nonce s = ""%string \/ Share.Hash s = ""%string
  \/ Share.Timestamp s = 0 \/ 5 * Minute < now - Share.Timestamp s.

(** The readings of the clock one call of [ProcessShare] takes, in order. *)
Record Clock := {
  at_basic : Time;
  at_job : Time;
  at_eval : Time;
  at_log : Time;
  at_check : Time;
  at_exists : Time;
  at_save : Time
}.

(** A call during which the clock does not advance. *)
Definition instant (now : Time) : Clock :=
  {| at_basic := now; at_job := now; at_eval := now; at_log := now;
     at_check := now; at_exists := now; at_save := now |}.

(** What [ProcessShare] reads and writes: the pool, the package variable
    [security.globalInspector] and the counters of package [metrics]. *)
Record World (St : Type) := {
  pool : Pool.t St;
  globalInspector : option Security.state;
  metrics : Metrics.t
}.
Arguments pool {St} _.
Arguments globalInspector {St} _.
Arguments metrics {St} _.

Definition result (st : ShareStatus) (desc : string) (err : option string) (valid : bool)
  : ShareResult.t :=
  {| ShareResult.Status := st; ShareResult.Description := desc;
     ShareResult.Error := err; ShareResult.Valid := valid |}.

(** The job [j] carrying other data and another target, and the world in
    which the engine holds the job [j] under the id [id]. *)
Definition retarget (j : Job.t) (data target : string) : Job.t :=
  {| Job.ID := Job.ID j; Job.Data := data; Job.Target := target;
     Job.CreatedAt := Job.CreatedAt j; Job.ExpiresAt := Job.ExpiresAt j;
     Job.BlockHeight := Job.BlockHeight j; Job.Active := Job.Active j |}.

Definition withJob {St : Type} (w : World St) (id : string) (j : Job.t) : World St :=
  {| pool := {| Pool.Engine :=
                  with_activeJobs (Pool.Engine (pool w))
                    (<[id := j]> (activeJobs (Pool.Engine (pool w))));
                Pool.ShareStore := Pool.ShareStore (pool w) |};
     globalInspector := globalInspector w; metrics := metrics w |}.

Section Facade.

Variable extractSubnet : string -> string.
Context {St : Type} `{ShareStore St}.

Definition invalidated (w : World St) : World St :=
  {| pool := pool w; globalInspector := globalInspector w;
     metrics := Metrics.IncInvalid (metrics w) |}.
Definition validated (w : World St) : World St :=
  {| pool := pool w; globalInspector := globalInspector w;
     metrics := Metrics.IncValid (metrics w) |}.
Definition inspected (w : World St) (i : Security.state) : World St :=
  {| pool := pool w; globalInspector := Some i; metrics := metrics w |}.
Definition stored (w : World St) (st : St) : World St :=
  {| pool := {| Pool.Engine := Pool.Engine (pool w); Pool.ShareStore := Some st |};
     globalInspector := globalInspector w; metrics := metrics w |}.

(** The verdict the fraud gate of [ProcessShare] obtains. *)
Definition fraudGate (clk : Clock) (w : World St) (s : Share.t)
  : Security.Verdict * Security.state :=
  Security.EvaluateShare extractSubnet (at_eval clk) (at_log clk) (at_check clk)
    (globalInspector w) (Share.WorkerID s) (Share.IP s) (Share.Nonce s)
    (Share.Hash s) (Share.Timestamp s).

(** Lines 212 to 245 of [ProcessShare], reached once the three gates have
    let the share through: the duplicate check and the save, both skipped
    when the store is nil. *)
Definition afterGates (clk : Clock) (w1 : World St) (s : Share.t)
  : (ShareResult.t * option string) * World St :=
  match Pool.ShareStore (pool w1) with
  | None => ((result ShareAccepted "share accepted" None true, None), validated w1)
  | Some st =>
      let '(st1, (found, err)) := Exists (at_exists clk) st (Share.ID s) in
      let w2 := stored w1 st1 in
      match err, found with
      | None, true =>
          ((result ShareAccepted "duplicate share ignored" None true, None), w2)
      | _, _ =>
          let '(st2, serr) := Save (at_save clk) st1 s in
          let w3 := stored w2 st2 in
          match serr with
          | Some e =>
              ((result ShareInvalid "failed to persist share" (Some e) false, Some e),
               invalidated w3)
          | None => ((result ShareAccepted "share accepted" None true, None), validated w3)
          end
      end
  end.

(** [Pool.ProcessShare]: the pair of results and the world after the call. *)
Definition ProcessShare (clk : Clock) (w : World St) (s : Share.t)
  : (ShareResult.t * option string) * World St :=
  match validateShareBasic (at_basic clk) s with
  | Some err =>
      ((result ShareInvalid "basic validation failed" (Some err) false, Some err),
       invalidated w)
  | None =>
      if negb (isJobActive (at_job clk) (pool w) (Share.JobID s))
      then
        ((result ShareInvalid "job not active or expired"
                 (Some "job not active or expired"%string) false, None),
         invalidated w)
      else
        let '(verdict, insp) := fraudGate clk w s in
        let w1 := inspected w insp in
        if Security.Flagged verdict
        then
          ((result ShareInvalid
                   (String.append "blocked by antifraud: " (Security.Reason verdict))
                   (Some "antifraud rejection"%string) false, None),
           invalidated w1)
        else afterGates clk w1 s
  end.

(** The three gates let the share through. *)
Definition passesGates (clk : Clock) (w : World St) (s : Share.t) : Prop :=
  validateShareBasic (at_basic clk) s = None
  /\ isJobActive (at_job clk) (pool w) (Share.JobID s) = true
  /\ Security.Flagged (fst (fraudGate clk w s)) = false.

End Facade.

(** *** The remaining operations of the engine and of the job manager *)

(** [PoolCore.FetchWorker]: the worker and the presence flag, as an option. *)
Definition FetchWorker (pc : PoolCore) (id : string) : option Worker.t :=
  workers pc !! id.

(** [Pool.Start]: the pool after the ticks of the fifteen-second ticker
    delivered before the context was cancelled, oldest first; each tick
    runs [removeExpiredJobs], which reads the clock itself. *)
Definition Start {St : Type} (ticks : list Time) (p : Pool.t St) : Pool.t St :=
  {| Pool.Engine :=
       fold_left (fun e now => removeExpiredJobs now e) ticks (Pool.Engine p);
     Pool.ShareStore := Pool.ShareStore p |}.

(** [JobManager.StartGarbageCollector]: the manager after the sweeps of the
    goroutine it starts, at the readings [ticks], oldest first. *)
Definition StartGarbageCollector (ticks : list Time) (jm : JobManager) : JobManager :=
  fold_left (fun m now => CleanupExpiredJobs now m) ticks jm.

Definition targetBase : string :=
  "0000ffffffffffffffffffffffffffffffffffffffffffffffffffffffffffff".
Definition targetTenth : string :=
  "00000ffffffffffffffffffffffffffffffffffffffffffffffffffffffffff".
Definition targetRare : string :=
  "000000ffffffffffffffffffffffffffffffffffffffffffffffffffffffffff".

(** [generateTarget]; [r] is the number [rand.Float64] returns, drawn only
    when the height is not a multiple of ten, and the constant is the
    binary64 value of 0.05.  [%] on Go integers truncates
    towards zero, as [Z.rem] does. *)
Definition generateTarget (blockHeight : Z) (r : float) : string :=
  if Z.rem blockHeight 10 =? 0 then targetTenth
  else if PrimFloat.ltb r 0x1.999999999999ap-5 then targetRare
  else targetBase.

(** [JobManager.CreateJob].  The random sources are arguments: [randomSeed]
    and [randomData] are what the two calls of [GenerateRandomHex] return, in
    that order, [uuid] what [GenerateUUID] returns and [r] as above;
    [nowCreated] and [nowExpires] are the two readings of the clock. *)
Definition CreateJob (randomSeed randomData uuid : string) (r : float)
    (nowCreated nowExpires : Time) (jm : JobManager) (blockHeight : Z)
  : Job.t * JobManager :=
  let jb :=
    {| Job.ID := String.append "job-" uuid;
       Job.Data := String.append randomData randomSeed;
       Job.Target := generateTarget blockHeight r;
       Job.CreatedAt := nowCreated;
       Job.ExpiresAt := Add nowExpires (timeout jm);
       Job.BlockHeight := blockHeight;
       Job.Active := true |} in
  (jb, {| jobs := <[Job.ID jb := jb]> (jobs jm); timeout := timeout jm |}).

(** The calls that write a job manager (its fields are not exported), and
    the manager after a sequence of them, oldest first. *)
Inductive JobManagerCall :=
| CallCreateJob (randomSeed randomData uuid : string) (r : float)
    (nowCreated nowExpires : Time) (blockHeight : Z)
| CallCleanup (now : Time).

Definition afterCall (jm : JobManager) (c : JobManagerCall) : JobManager :=
  match c with
  | CallCreateJob randomSeed randomData uuid r nowCreated nowExpires blockHeight =>
      snd (CreateJob randomSeed randomData uuid r nowCreated nowExpires jm blockHeight)
  | CallCleanup now => CleanupExpiredJobs now jm
  end.

Definition afterCalls (jm : JobManager) (cs : list JobManagerCall) : JobManager :=
  fold_left afterCall cs jm.

End Core.

(** ** Package [http]: the handler of share submissions

    A request is represented by its method and by what
    [json.NewDecoder(r.Body).Decode] makes of its body: the payload, or
    [None] when decoding fails.  The answer is what [respond] writes; [None]
    stands for a panic of the handler, after which nothing is written. *)

Module Http.
Import GoTime Core.

Record SharePayload := {
  MinerID : string;
  JobID : string;
  Nonce : string;
  Hash : string;
  HashRate : float
}.

Record Response := {
  Code : Z;
  Status : string;
  Message : string
}.

(** The readings of the clock one request takes, in order: the four of
    [IsFraudulentNonce], the timestamp given to the share, the three of the
    share processor and the two of the engine. *)
Record Readings := {
  at_ts : Time;
  at_eval : Time;
  at_log : Time;
  at_check : Time;
  at_share : Time;
  at_dup : Time;
  at_stale : Time;
  at_save : Time;
  at_job : Time;
  at_submit : Time
}.

Section Handler.

Variable extractSubnet : string -> string.
Context {St : Type} `{ShareStore St}.

(** The methods the handler looks for on the store by type assertion:
    [None] when the store does not implement [ShareSaver], respectively
    [BalanceStore]. *)
Variable SaveShare : option (St -> Share.t -> St * option string).
Variable AddBalance : option (St -> string -> float -> St * option string).

Definition withEngine (w : World St) (pc : PoolCore) : World St :=
  {| pool := {| Pool.Engine := pc; Pool.ShareStore := Pool.ShareStore (pool w) |};
     globalInspector := globalInspector w; metrics := metrics w |}.

Definition failure (code : Z) (message : string) : option Response :=
  Some {| Code := code; Status := "error"; Message := message |}.

(** The tail of the handler, after the engine took the share. *)
Definition credited (w : World St) (p : SharePayload) (share : Share.t) : World St :=
  let w1 :=
    match SaveShare, Pool.ShareStore (pool w) with
    | Some save, Some st => stored w (fst (save st share))
    | _, _ => w
    end in
  match AddBalance, Pool.ShareStore (pool w1) with
  | Some add, Some st => stored w1 (fst (add st (MinerID p) (HashRate p)))
  | _, _ => w1
  end.

(** [SubmitShareHandler]. *)
Definition SubmitShareHandler (clk : Readings) (w : World St) (method : string)
    (body : option SharePayload) : option Response * World St :=
  if negb (String.eqb method "POST") then (failure 405 "Method Not Allowed", w)
  else
    match body with
    | None => (failure 400 "Invalid JSON structure", w)
    | Some p =>
        if String.eqb (MinerID p) "" || String.eqb (JobID p) ""
           || String.eqb (Nonce p) ""
        then (failure 400 "Missing required fields", w)
        else
          let '(fraud, insp) :=
            Security.IsFraudulentNonce extractSubnet (at_ts clk) (at_eval clk)
              (at_log clk) (at_check clk) (globalInspector w) (MinerID p) (Nonce p) in
          let w1 := inspected w insp in
          if fraud then (failure 403 "Suspicious activity detected", invalidated w1)
          else
            let share :=
              {| Share.ID := ""; Share.JobID := JobID p; Share.WorkerID := MinerID p;
                 Share.Nonce := Nonce p; Share.Hash := Hash p;
                 Share.Diff := HashRate p; Share.Timestamp := at_share clk;
                 Share.IP := "" |} in
            match Pool.ShareStore (pool w1) with
            | None => (None, w1)
            | Some st =>
                let '(res, st1) :=
                  Process (at_dup clk) (at_stale clk) (at_save clk) st share
                    "0000" (30 * Second) in
                let w2 := stored w1 st1 in
                if negb (ShareResult.Valid res)
                then (failure 403 (ShareResult.Description res), invalidated w2)
                else
                  let '(pc, err) :=
                    SubmitShare (at_job clk) (at_submit clk) (Pool.Engine (pool w2))
                      (MinerID p) (Some share) in
                  let w3 := withEngine w2 pc in
                  match err with
                  | Some _ => (failure 500 "Failed to submit share", w3)
                  | None =>
                      (Some {| Code := 200; Status := "success";
                               Message := "Share accepted" |},
                       validated (credited w3 p share))
                  end
            end
    end.

End Handler.

End Http.

(** * Statements taken from the specification

    The definitions of this part follow the words of the specification, not
    the source; they are what the source is compared with. *)

Module Spec.
Import GoTime Core.

Definition is_lower_hex (c : ascii) : bool :=
  let n := N_of_ascii c in
  (((48 <=? n) && (n <=? 57)) || ((97 <=? n) && (n <=? 102)))%N.

(** "nonce matches [[0-9a-f]{8,64}]" *)
Definition nonce_pattern (s : string) : bool :=
  forallb is_lower_hex (list_ascii_of_string s)
  && (8 <=? String.length s)%nat && (String.length s <=? 64)%nat.

(** The shape check of gate 1 as the specification words it: the required
    fields are non-empty (the hash is optional), the timestamp lies within
    five minutes of the clock in both directions, the nonce matches the
    pattern and the difficulty is positive. *)
Definition shape_ok (now : Time) (s : Share.t) : bool :=
  negb (String.eqb (Share.JobID s) "") && negb (String.eqb (Share.WorkerID s) "")
  && negb (String.eqb (Share.Nonce s) "")
  && (Z.abs (now - Share.Timestamp s) <=? 5 * Minute)
  && nonce_pattern (Share.Nonce s)
  && PrimFloat.ltb 0 (Share.Diff s).

(** "hex(H(job.data || s.nonce)) < job.target" with SHA-256 for H. *)
Definition meets_target (j : Job.t) (s : Share.t) : bool :=
  checkDifficulty (hashJob (Job.Data j) (Share.Nonce s)) (Job.Target j).

(** The sweep interval of the background sweeper and the retention bound
    "max(window, greylist TTL) plus one sweep interval". *)
Definition sweepInterval : Duration := 90 * Second.
Definition retention : Duration :=
  Z.max Security._windowSpan Security._greylistTimeout + sweepInterval.

(** "No subnet-window, nonce-window, or hash-window entry outlives the
    retention bound": every timestamp held at time [now] is that recent. *)
Definition windows_bounded (now : Time) (st : Security.state) : Prop :=
  (forall k ts t, Security.Subnets st !! k = Some ts -> In t ts -> now - t <= retention)
  /\ (forall k ts t, Security.Tokens st !! k = Some ts -> In t ts -> now - t <= retention)
  /\ (forall k m n t, Security.NonceMap st !! k = Some m -> m !! n = Some t ->
        now - t <= retention).

End Spec.

(** * Concrete scenarios

    The values the examples below are run on.  Times are nanoseconds since
    the zero Time; [t0] is a moment in the year 2025. *)

Module Scenario.
Import GoTime Core.

Definition t0 : Time := 63900000000 * Second.

Definition baseTarget : string :=
  "0000ffffffffffffffffffffffffffffffffffffffffffffffffffffffffffff".

(** A job created at [t0] by a job manager whose timeout is thirty seconds. *)
Definition job1 : Job.t :=
  {| Job.ID := "job-1"; Job.Data := "aa"; Job.Target := baseTarget;
     Job.CreatedAt := t0; Job.ExpiresAt := t0 + 30 * Second;
     Job.BlockHeight := 101; Job.Active := true |}.

Definition share1 : Share.t :=
  {| Share.ID := "s1"; Share.JobID := "job-1"; Share.WorkerID := "w1";
     Share.Nonce := "00000000"; Share.Hash := "ab"; Share.Diff := 1%float;
     Share.Timestamp := t0 + Second; Share.IP := "10.0.0.1" |}.

Definition share2 : Share.t :=
  {| Share.ID := "s2"; Share.JobID := "job-1"; Share.WorkerID := "w2";
     Share.Nonce := "00000001"; Share.Hash := "cd"; Share.Diff := 1%float;
     Share.Timestamp := t0 + Second; Share.IP := "10.0.1.7" |}.

(** The engine of a new pool, with workers [w1] and [w2] and job [job1]. *)
Definition engine1 : PoolCore :=
  let e0 := InitPool (30 * Second) (2 * Second) in
  let e1 := fst (AppendWorker e0 "w1" (Some (Worker.NewWorker "w1"))) in
  let e2 := fst (AppendWorker e1 "w2" (Some (Worker.NewWorker "w2"))) in
  DispatchJob t0 e2 (Some job1).

(** [engine1] after [w1] submitted [share1] at [t0 + 1s]. *)
Definition engine2 : PoolCore :=
  fst (SubmitShare (t0 + Second) (t0 + Second) engine1 "w1" (Some share1)).

(** Three submissions of [w1], one second, two seconds and three seconds
    after [t0], with a submission of [w2] in between. *)
Definition schedule1 : list Step :=
  [ StepSubmit "w1" (Some share1) (t0 + Second) (t0 + Second);
    StepSubmit "w2" (Some share2) (t0 + Second) (t0 + Second);
    StepSection "w1" share1 (t0 + 2 * Second);
    StepExpire (t0 + 2 * Second);
    StepSubmit "w1" (Some share1) (t0 + 3 * Second) (t0 + 3 * Second) ].

(** [w1] submits, is purged and registered again, and submits again one
    nanosecond after its first submission. *)
Definition purgeSchedule : list Call :=
  [ CallStep (StepSubmit "w1" (Some share1) (t0 + Second) (t0 + Second));
    CallPurgeWorkers "w1";
    CallPurgeShares "w1";
    CallStep (StepAppend "w1" (Some (Worker.NewWorker "w1")));
    CallStep (StepSubmit "w1" (Some share1) (t0 + Second + 1) (t0 + Second + 1)) ].

(** [w1] submits; a second submission of [w1] passes its job and worker
    checks, then [w1] is purged, then the second submission runs its locked
    section, one nanosecond after the first. *)
Definition purgeRace : list Call :=
  [ CallStep (StepSubmit "w1" (Some share1) (t0 + Second) (t0 + Second));
    CallPurgeWorkers "w1";
    CallPurgeShares "w1";
    CallStep (StepSection "w1" share1 (t0 + Second + 1)) ].

Definition metrics0 : Metrics.t :=
  {| Metrics.SharesValid := 0; Metrics.SharesInvalid := 0 |}.

(** [ProcessShare] over the in-memory store, with the IPv4 key function. *)
Definition processV4 : Clock -> World internalStore.t -> Share.t ->
    (ShareResult.t * option string) * World internalStore.t :=
  ProcessShare Net.extractSubnetV4.

(** A pool over the in-memory store, before any share was processed. *)
Definition world1 : World internalStore.t :=
  {| pool := {| Pool.Engine := engine1;
                Pool.ShareStore := Some (newInternalStore (45 * Second)) |};
     globalInspector := None; metrics := metrics0 |}.

(** The same pool with a nil store. *)
Definition worldNil : World internalStore.t :=
  {| pool := {| Pool.Engine := engine1; Pool.ShareStore := None |};
     globalInspector := None; metrics := metrics0 |}.

(** [world1] and [worldNil] after [share1] was processed at [t0 + 1s]. *)
Definition world2 : World internalStore.t :=
  snd (processV4 (instant (t0 + Second)) world1 share1).
Definition worldNil2 : World internalStore.t :=
  snd (processV4 (instant (t0 + Second)) worldNil share1).

(** [world1] with its store observed, before and after [share1] was
    processed at [t0 + 1s]. *)
Definition worldCounted : World (Counted.t internalStore.t) :=
  {| pool := {| Pool.Engine := engine1;
                Pool.ShareStore :=
                  Some {| Counted.inner := newInternalStore (45 * Second);
                          Counted.saves := 0 |} |};
     globalInspector := None; metrics := metrics0 |}.
Definition worldCounted2 : World (Counted.t internalStore.t) :=
  snd (ProcessShare Net.extractSubnetV4 (instant (t0 + Second)) worldCounted share1).
Definition worldCounted3 : World (Counted.t internalStore.t) :=
  snd (ProcessShare Net.extractSubnetV4 (instant (t0 + 17 * Second)) worldCounted2 share1).

(** The store and the inspector of [world2]. *)
Definition store2 : internalStore.t :=
  default (newInternalStore (45 * Second)) (Pool.ShareStore (pool world2)).
Definition inspector2 : Security.state := Security.current (globalInspector world2).

(** [share1] without a nonce, and without a client hash. *)
Definition share1NoNonce : Share.t :=
  {| Share.ID := "s1"; Share.JobID := "job-1"; Share.WorkerID := "w1";
     Share.Nonce := ""; Share.Hash := "ab"; Share.Diff := 1%float;
     Share.Timestamp := t0 + Second; Share.IP := "10.0.0.1" |}.
Definition share1NoHash : Share.t :=
  {| Share.ID := "s1"; Share.JobID := "job-1"; Share.WorkerID := "w1";
     Share.Nonce := "00000000"; Share.Hash := ""; Share.Diff := 1%float;
     Share.Timestamp := t0 + Second; Share.IP := "10.0.0.1" |}.

(** A share whose nonce is not hexadecimal and whose difficulty is zero, and
    a share stamped ten minutes ahead of the clock. *)
Definition shareOdd : Share.t :=
  {| Share.ID := "s3"; Share.JobID := "job-1"; Share.WorkerID := "w1";
     Share.Nonce := "XYZ"; Share.Hash := "ab"; Share.Diff := 0%float;
     Share.Timestamp := t0 + Second; Share.IP := "10.0.0.1" |}.
Definition shareAhead : Share.t :=
  {| Share.ID := "s4"; Share.JobID := "job-1"; Share.WorkerID := "w1";
     Share.Nonce := "00000000"; Share.Hash := "ab"; Share.Diff := 1%float;
     Share.Timestamp := t0 + 10 * Minute; Share.IP := "10.0.0.1" |}.

(** A job issued by a job manager whose timeout is ten seconds, dispatched
    to an engine whose time to live is thirty, and a share that names it
    twenty seconds after its creation. *)
Definition jobShort : Job.t :=
  {| Job.ID := "job-2"; Job.Data := "bb"; Job.Target := baseTarget;
     Job.CreatedAt := t0; Job.ExpiresAt := t0 + 10 * Second;
     Job.BlockHeight := 102; Job.Active := true |}.
Definition worldShort : World internalStore.t :=
  {| pool := {| Pool.Engine := DispatchJob t0 engine1 (Some jobShort);
                Pool.ShareStore := Some (newInternalStore (45 * Second)) |};
     globalInspector := None; metrics := metrics0 |}.
Definition shareLate : Share.t :=
  {| Share.ID := "s5"; Share.JobID := "job-2"; Share.WorkerID := "w1";
     Share.Nonce := "0000000a"; Share.Hash := "ef"; Share.Diff := 1%float;
     Share.Timestamp := t0 + 20 * Second; Share.IP := "10.0.0.1" |}.
Definition shareUnknownJob : Share.t :=
  {| Share.ID := "s6"; Share.JobID := "job-9"; Share.WorkerID := "w1";
     Share.Nonce := ""; Share.Hash := "ef"; Share.Diff := 1%float;
     Share.Timestamp := t0 + Second; Share.IP := "10.0.0.1" |}.

(** [job1] with a target its data and the nonce of [share1] meet. *)
Definition job1Easy : Job.t :=
  {| Job.ID := "job-1"; Job.Data := "aa";
     Job.Target := "2000000000000000000000000000000000000000000000000000000000000000";
     Job.CreatedAt := t0; Job.ExpiresAt := t0 + 30 * Second;
     Job.BlockHeight := 101; Job.Active := true |}.

(** A run of evaluations of the inspector, all at the same reading [now]:
    each request gives the miner, the address and the nonce; the hash is
    empty and the timestamp is [now]. *)
Fixpoint evaluations (now : Time) (g : option Security.state)
    (reqs : list (string * string * string)) : list Security.Verdict * option Security.state :=
  match reqs with
  | [] => ([], g)
  | (miner, ip, nonce) :: rest =>
      let '(v, st) :=
        Security.EvaluateShare Net.extractSubnetV4 now now now g miner ip nonce "" now in
      let '(vs, g') := evaluations now (Some st) rest in
      (v :: vs, g')
  end.

(** Nine miners on nine subnets submitting the same nonce. *)
Definition nineSubnets : list (string * string * string) :=
  [ ("m1", "10.0.1.1", "cafe0001"); ("m2", "10.0.2.1", "cafe0001");
    ("m3", "10.0.3.1", "cafe0001"); ("m4", "10.0.4.1", "cafe0001");
    ("m5", "10.0.5.1", "cafe0001"); ("m6", "10.0.6.1", "cafe0001");
    ("m7", "10.0.7.1", "cafe0001"); ("m8", "10.0.8.1", "cafe0001");
    ("m9", "10.0.9.1", "cafe0001") ]%string.

(** Twenty miners of the subnet 10.0.0.0/24, each with a nonce of its own. *)
Definition twentyNeighbours : list (string * string * string) :=
  map (fun n : nat =>
         let d := string_of_list_ascii (Net.itoa (Z.of_nat n)) in
         (String.append "n" d, String.append "10.0.0." d, String.append "beef00" d))
      (seq 10 20).

(** The inspector after those runs, at [t0 + 1s]. *)
Definition afterNine : option Security.state :=
  snd (evaluations (t0 + Second) None nineSubnets).
Definition afterTwenty : option Security.state :=
  snd (evaluations (t0 + Second) None twentyNeighbours).

(** The ticks of the sweeper during fifteen minutes of silence. *)
Definition silentTicks : list Time :=
  map (fun n : nat => t0 + Second + Z.of_nat n * Spec.sweepInterval) (seq 1 10).

(** The inspector once the subnet 10.0.0.0/24 has been greylisted at
    [t0 + 2s] by its twenty-first submission, and [world1] with that
    inspector. *)
Definition afterTwentyOne : option Security.state :=
  Some (snd (Security.EvaluateShare Net.extractSubnetV4 (t0 + 2 * Second)
               (t0 + 2 * Second) (t0 + 2 * Second) afterTwenty
               "n99" "10.0.0.99" "beef0099" "" (t0 + 2 * Second))).
Definition worldGreylisted : World internalStore.t :=
  {| pool := pool world1; globalInspector := afterTwentyOne; metrics := metrics0 |}.

(** Nine sightings of one hash, half a second apart. *)
Definition nineSightings : list Time :=
  map (fun n : nat => t0 + Z.of_nat n * 500000000) (seq 0 9).

(** A job manager with a timeout of thirty seconds after it created one job
    at [t0]; the job; and the manager's sweeps during the next two
    minutes, one every twenty seconds. *)
Definition manager1 : JobManager :=
  snd (CreateJob "5eed" "da7a" "123e4567-e89b-12d3-a456-426614174000" 0.5%float
         t0 t0 (NewJobManager (30 * Second)) 101).
Definition managerJob : Job.t :=
  fst (CreateJob "5eed" "da7a" "123e4567-e89b-12d3-a456-426614174000" 0.5%float
         t0 t0 (NewJobManager (30 * Second)) 101).
Definition sweeps : list Time :=
  map (fun n : nat => t0 + Z.of_nat n * (20 * Second)) (seq 1 6).

(** The sweeps of [Pool.Start] during the first minute after [t0]. *)
Definition poolTicks : list Time :=
  map (fun n : nat => t0 + Z.of_nat n * (15 * Second)) (seq 1 4).

(** A target that half of all digests meet, and the in-memory store after
    [share1] went through the share processor at [t0 + 1s] under it. *)
Definition halfTarget : string :=
  "8000000000000000000000000000000000000000000000000000000000000000".
Definition storeProcessed : internalStore.t :=
  snd (Process (t0 + Second) (t0 + Second) (t0 + Second)
         (newInternalStore (45 * Second)) share1 halfTarget (30 * Second)).

End Scenario.

(** * Properties of the embedding *)

Import GoTime.

(** ** Saturating subtraction *)

Section SubFacts.

Lemma Sub_le_iff (t u d : Z) :
  minDuration <= d < maxDuration -> (Sub t u <= d <-> t - u <= d).
Proof. unfold Sub, minDuration, maxDuration. lia. Qed.

Lemma Sub_gt_iff (t u d : Z) :
  minDuration <= d < maxDuration -> (d < Sub t u <-> d < t - u).
Proof. unfold Sub, minDuration, maxDuration. lia. Qed.

Lemma Sub_lt_iff (t u d : Z) :
  minDuration < d <= maxDuration -> (Sub t u < d <-> t - u < d).
Proof. unfold Sub, minDuration, maxDuration. lia. Qed.

Lemma Sub_ge_iff (t u d : Z) :
  minDuration < d <= maxDuration -> (d <= Sub t u <-> d <= t - u).
Proof. unfold Sub, minDuration, maxDuration. lia. Qed.

Lemma Sub_ge_nonneg (t u d : Z) : 0 <= d -> d <= Sub t u -> d <= t - u.
Proof. unfold Sub, minDuration, maxDuration. lia. Qed.

Lemma Sub_lt_nonneg (t u d : Z) : 0 <= d -> t - u < d -> Sub t u < d.
Proof. unfold Sub, minDuration, maxDuration. lia. Qed.

End SubFacts.

(** ** The engine: [SubmitShare] *)

Section Engine.
Import Core.

Lemma submitSection_error (now : Z) (pc : PoolCore) (wid : string) (sh : Share.t)
    (e : string) :
  snd (submitSection now pc wid sh) = Some e ->
  fst (submitSection now pc wid sh) = pc /\ e = "rate limit exceeded"%string.
Proof.
  unfold submitSection.
  destruct (lastSubmission pc !! wid) as [last|]; [|discriminate].
  destruct (Sub now last <? interval pc); [|discriminate].
  cbn. intros [= <-]. split; reflexivity.
Qed.

Lemma SubmitShare_error (nowJob now : Z) (pc : PoolCore) (wid : string)
    (s : option Share.t) (e : string) :
  snd (SubmitShare nowJob now pc wid s) = Some e ->
  fst (SubmitShare nowJob now pc wid s) = pc
  /\ (e = "nil share" \/ e = "invalid or expired job" \/ e = "worker not active"
      \/ e = "rate limit exceeded")%string.
Proof.
  unfold SubmitShare.
  destruct s as [sh|]; [|cbn; intros [= <-]; tauto].
  destruct (activeJobs pc !! Share.JobID sh) as [jb|]; [|cbn; intros [= <-]; tauto].
  destruct (ttlJob pc <? Since nowJob (Job.CreatedAt jb)); [cbn; intros [= <-]; tauto|].
  destruct (workers pc !! wid) as [wk|]; [|cbn; intros [= <-]; tauto].
  destruct (negb (Worker.IsActive wk)); [cbn; intros [= <-]; tauto|].
  intros He. apply submitSection_error in He. tauto.
Qed.

(** What an accepted run of the locked section writes. *)
Lemma submitSection_accept (now : Z) (pc : PoolCore) (wid : string) (sh : Share.t) :
  snd (submitSection now pc wid sh) = None ->
  lastSubmission (fst (submitSection now pc wid sh)) = <[wid := now]> (lastSubmission pc)
  /\ workerShares (fst (submitSection now pc wid sh))
     = <[wid := default [] (workerShares pc !! wid) ++ [sh]]> (workerShares pc)
  /\ interval (fst (submitSection now pc wid sh)) = interval pc
  /\ (forall last, lastSubmission pc !! wid = Some last -> interval pc <= Sub now last).
Proof.
  unfold submitSection.
  destruct (lastSubmission pc !! wid) as [last|] eqn:Hl.
  - destruct (Sub now last <? interval pc) eqn:Hc; [discriminate|].
    cbn. intros _. repeat split; try reflexivity.
    intros last' [= <-]. apply Z.ltb_ge in Hc. exact Hc.
  - cbn. intros _. repeat split; try reflexivity. intros last' [=].
Qed.

Lemma SubmitShare_accept (nowJob now : Z) (pc : PoolCore) (wid : string)
    (s : option Share.t) :
  snd (SubmitShare nowJob now pc wid s) = None ->
  exists sh, s = Some sh
    /\ SubmitShare nowJob now pc wid s = submitSection now pc wid sh.
Proof.
  unfold SubmitShare.
  destruct s as [sh|]; [|discriminate].
  destruct (activeJobs pc !! Share.JobID sh) as [jb|]; [|discriminate].
  destruct (ttlJob pc <? Since nowJob (Job.CreatedAt jb)); [discriminate|].
  destruct (workers pc !! wid) as [wk|]; [|discriminate].
  destruct (negb (Worker.IsActive wk)); [discriminate|].
  intros _. exists sh. split; reflexivity.
Qed.

(** The effect of one step of a schedule on the rate-limit state. *)
Lemma step_lastSubmission (pc : PoolCore) (st : Step) :
  interval (fst (step pc st)) = interval pc
  /\ match snd (step pc st) with
     | Some (w, now) =>
         lastSubmission (fst (step pc st)) = <[w := now]> (lastSubmission pc)
         /\ (forall last, lastSubmission pc !! w = Some last -> interval pc <= Sub now last)
     | None => lastSubmission (fst (step pc st)) = lastSubmission pc
     end.
Proof.
  destruct st as [wid s nowJob now|wid sh now|id wrk|j now|now]; cbn.
  - destruct (SubmitShare nowJob now pc wid s) as [pc' err] eqn:E.
    destruct err as [e|]; cbn.
    + pose proof (SubmitShare_error nowJob now pc wid s e) as H.
      rewrite E in H. cbn in H. destruct (H eq_refl) as [-> _]. split; reflexivity.
    + pose proof (SubmitShare_accept nowJob now pc wid s) as H.
      rewrite E in H. cbn in H. destruct (H eq_refl) as (sh & _ & Hs).
      pose proof (submitSection_accept now pc wid sh) as Ha.
      rewrite <- Hs in Ha. cbn in Ha. destruct (Ha eq_refl) as (H1 & _ & H3 & H4).
      split; [exact H3|]. split; assumption.
  - destruct (submitSection now pc wid sh) as [pc' err] eqn:E.
    destruct err as [e|]; cbn.
    + pose proof (submitSection_error now pc wid sh e) as H.
      rewrite E in H. cbn in H. destruct (H eq_refl) as [-> _]. split; reflexivity.
    + pose proof (submitSection_accept now pc wid sh) as Ha.
      rewrite E in Ha. cbn in Ha. destruct (Ha eq_refl) as (H1 & _ & H3 & H4).
      split; [exact H3|]. split; assumption.
  - unfold AppendWorker. destruct wrk as [w|]; cbn; [|split; reflexivity].
    destruct (String.eqb id ""); cbn; split; reflexivity.
  - unfold DispatchJob. destruct j as [jb|]; [|split; reflexivity].
    destruct (String.eqb (Job.ID jb) ""); cbn; split; reflexivity.
  - split; reflexivity.
Qed.

Lemma spaced_lookup (d : Z) (ts : list Z) (i j : nat) (ti tj : Z) :
  spaced d ts -> ts !! i = Some ti -> ts !! j = Some tj -> (i < j)%nat -> d <= tj - ti.
Proof.
  revert i j. induction ts as [|t rest IH]; intros i j Hs Hi Hj Hlt.
  - discriminate.
  - destruct Hs as [Hhd Htl]. destruct j as [|j]; [lia|].
    destruct i as [|i]; cbn in Hi, Hj.
    + injection Hi as <-. apply Hhd. apply list_elem_of_In.
      eapply list_elem_of_lookup_2. exact Hj.
    + apply (IH i j); auto with zarith.
Qed.

Lemma acceptedTimes_cons (wid : string) (a : string * Z) (log : list (string * Z)) :
  acceptedTimes wid (a :: log)
  = if String.eqb (fst a) wid then snd a :: acceptedTimes wid log
    else acceptedTimes wid log.
Proof. unfold acceptedTimes. cbn. destruct (String.eqb (fst a) wid); reflexivity. Qed.

(** The invariant of a schedule: the accepted submissions of a worker are
    [interval] apart from each other and from the submission the engine
    remembered for that worker when the schedule started. *)
Lemma run_spaced (sched : list Step) (pc : PoolCore) (wid : string) :
  0 <= interval pc ->
  spaced (interval pc) (acceptedTimes wid (snd (run pc sched)))
  /\ (forall last u, lastSubmission pc !! wid = Some last ->
        In u (acceptedTimes wid (snd (run pc sched))) -> interval pc <= u - last).
Proof.
  revert pc. induction sched as [|st rest IH]; intros pc Hpos.
  - cbn. split; [exact I|]. intros last u _ [].
  - cbn [run].
    pose proof (step_lastSubmission pc st) as [Hint Hstep].
    destruct (step pc st) as [pc1 acc] eqn:Est. cbn in Hint, Hstep.
    specialize (IH pc1). rewrite Hint in IH. destruct (IH Hpos) as [IHs IHl].
    destruct (run pc1 rest) as [pc2 log] eqn:Erun. cbn [snd] in IHs, IHl |- *.
    destruct acc as [[w now]|].
    + destruct Hstep as [Hls Hgap]. rewrite acceptedTimes_cons. cbn [fst snd].
      destruct (String.eqb w wid) eqn:Ew.
      * apply String.eqb_eq in Ew. subst w.
        assert (Hnow : forall u, In u (acceptedTimes wid log) -> interval pc <= u - now).
        { intros u Hu. apply (IHl now u); [|exact Hu].
          rewrite Hls. apply lookup_insert_eq. }
        split; [split; assumption|].
        intros last u Hl [<-|Hu].
        -- apply Sub_ge_nonneg; auto.
        -- specialize (Hgap last Hl). apply Sub_ge_nonneg in Hgap; [|exact Hpos].
           specialize (Hnow u Hu). lia.
      * apply String.eqb_neq in Ew.
        split; [exact IHs|]. intros last u Hl Hu. apply (IHl last u); [|exact Hu].
        rewrite Hls, lookup_insert_ne; assumption.
    + split; [exact IHs|]. intros last u Hl Hu. apply (IHl last u); [|exact Hu].
      rewrite Hstep. exact Hl.
Qed.

(** [PurgeWorker] removes the worker together with its rate-limit state: the
    next submission under that id finds no remembered time. *)
Lemma PurgeWorker_forgets_last_submission (pc : PoolCore) (id : string) :
  lastSubmission (PurgeWorker pc id) !! id = None
  /\ workerShares (PurgeWorker pc id) !! id = None
  /\ workers (PurgeWorker pc id) !! id = None.
Proof. unfold PurgeWorker. cbn. rewrite !lookup_delete_eq. auto. Qed.

End Engine.

(** C10.  Whenever [SubmitShare] returns an error the engine is the one it
    was called on: in particular the last-submission time and the share list
    of the worker are what they were, and the error is one of "nil share",
    "invalid or expired job", "worker not active" and "rate limit
    exceeded".  Only an accepted submission writes the rate-limit clock or
    the share list. *)
Theorem C10_SubmitShare_error_is_atomic (nowJob now : Z) (pc : Core.PoolCore)
    (wid : string) (s : option Core.Share.t) (e : string) :
  snd (Core.SubmitShare nowJob now pc wid s) = Some e ->
  fst (Core.SubmitShare nowJob now pc wid s) = pc
  /\ Core.lastSubmission (fst (Core.SubmitShare nowJob now pc wid s)) !! wid
     = Core.lastSubmission pc !! wid
  /\ Core.workerShares (fst (Core.SubmitShare nowJob now pc wid s)) !! wid
     = Core.workerShares pc !! wid
  /\ (e = "nil share" \/ e = "invalid or expired job" \/ e = "worker not active"
      \/ e = "rate limit exceeded")%string.
Proof.
  intros He. destruct (SubmitShare_error nowJob now pc wid s e He) as [Hpc Hmsg].
  rewrite Hpc. repeat split; [reflexivity..|exact Hmsg].
Qed.

(** The theorem at work: a third submission of [w1] one second after the
    accepted one is refused and the engine is untouched. *)
Lemma C10_witness :
  fst (Core.SubmitShare (Scenario.t0 + 2 * Second) (Scenario.t0 + 2 * Second)
         Scenario.engine2 "w1" (Some Scenario.share1)) = Scenario.engine2
  /\ Core.lastSubmission
       (fst (Core.SubmitShare (Scenario.t0 + 2 * Second) (Scenario.t0 + 2 * Second)
               Scenario.engine2 "w1" (Some Scenario.share1))) !! "w1"%string
     = Core.lastSubmission Scenario.engine2 !! "w1"%string
  /\ Core.workerShares
       (fst (Core.SubmitShare (Scenario.t0 + 2 * Second) (Scenario.t0 + 2 * Second)
               Scenario.engine2 "w1" (Some Scenario.share1))) !! "w1"%string
     = Core.workerShares Scenario.engine2 !! "w1"%string
  /\ ("rate limit exceeded" = "nil share"
      \/ "rate limit exceeded" = "invalid or expired job"
      \/ "rate limit exceeded" = "worker not active"
      \/ "rate limit exceeded" = "rate limit exceeded")%string.
Proof.
  apply (C10_SubmitShare_error_is_atomic (Scenario.t0 + 2 * Second)
           (Scenario.t0 + 2 * Second) Scenario.engine2 "w1" (Some Scenario.share1)
           "rate limit exceeded").
  vm_compute. reflexivity.
Defined.

Section EngineCalls.
Import Core.

Lemma PurgeWorker_sections (pc : PoolCore) (id : string) :
  PurgeWorker pc id = purgeShares (purgeWorkers pc id) id.
Proof. reflexivity. Qed.

(** The effect of one call on the rate-limit state of a worker whose time
    the call does not delete. *)
Lemma call_lastSubmission (pc : PoolCore) (c : Call) (wid : string) :
  keepsRateLimit wid [c] = true ->
  interval (fst (call pc c)) = interval pc
  /\ match snd (call pc c) with
     | Some (w, now) =>
         lastSubmission (fst (call pc c)) = <[w := now]> (lastSubmission pc)
         /\ (forall last, lastSubmission pc !! w = Some last -> interval pc <= Sub now last)
     | None => lastSubmission (fst (call pc c)) !! wid = lastSubmission pc !! wid
     end.
Proof.
  intros Hkeep. destruct c as [st|id|id]; cbn [call].
  - pose proof (step_lastSubmission pc st) as [Hint Hstep].
    split; [exact Hint|].
    destruct (snd (step pc st)) as [[w now]|]; [exact Hstep|].
    rewrite Hstep. reflexivity.
  - split; reflexivity.
  - cbn in Hkeep. rewrite andb_true_r in Hkeep. apply negb_true_iff in Hkeep.
    apply String.eqb_neq in Hkeep.
    split; [reflexivity|]. cbn. apply lookup_delete_ne. exact Hkeep.
Qed.

Lemma call_interval (pc : PoolCore) (c : Call) :
  interval (fst (call pc c)) = interval pc.
Proof.
  destruct c as [st|id|id]; [|reflexivity|reflexivity].
  exact (proj1 (step_lastSubmission pc st)).
Qed.

Lemma runCalls_interval (calls : list Call) (pc : PoolCore) :
  interval (fst (runCalls pc calls)) = interval pc.
Proof.
  revert pc. induction calls as [|c rest IH]; intros pc; [reflexivity|].
  cbn [runCalls]. pose proof (call_interval pc c) as Hc.
  destruct (call pc c) as [pc1 acc]. cbn [fst] in Hc.
  specialize (IH pc1). destruct (runCalls pc1 rest) as [pc2 log].
  cbn [fst] in *. congruence.
Qed.

Lemma runCalls_app (before calls : list Call) (pc : PoolCore) :
  runCalls pc (before ++ calls)
  = (fst (runCalls (fst (runCalls pc before)) calls),
     snd (runCalls pc before) ++ snd (runCalls (fst (runCalls pc before)) calls)).
Proof.
  revert pc. induction before as [|c rest IH]; intros pc.
  - cbn. destruct (runCalls pc calls). reflexivity.
  - cbn [app runCalls]. destruct (call pc c) as [pc1 acc].
    rewrite (IH pc1). destruct (runCalls pc1 rest) as [pc2 log]. cbn [fst snd].
    destruct acc; reflexivity.
Qed.

(** A schedule of steps is a call schedule without purges. *)
Lemma runCalls_steps (sched : list Step) (pc : PoolCore) :
  runCalls pc (map CallStep sched) = run pc sched.
Proof.
  revert pc. induction sched as [|st rest IH]; intros pc; [reflexivity|].
  cbn [map runCalls run call]. destruct (step pc st) as [pc1 acc].
  rewrite (IH pc1). reflexivity.
Qed.

(** The invariant of a call schedule that keeps the rate-limit time of a
    worker: its accepted submissions are [interval] apart from each other
    and from the submission the engine remembered when the schedule
    started. *)
Lemma runCalls_spaced (calls : list Call) (pc : PoolCore) (wid : string) :
  0 <= interval pc ->
  keepsRateLimit wid calls = true ->
  spaced (interval pc) (acceptedTimes wid (snd (runCalls pc calls)))
  /\ (forall last u, lastSubmission pc !! wid = Some last ->
        In u (acceptedTimes wid (snd (runCalls pc calls))) -> interval pc <= u - last).
Proof.
  revert pc. induction calls as [|c rest IH]; intros pc Hpos Hkeep.
  - cbn. split; [exact I|]. intros last u _ [].
  - cbn [runCalls].
    assert (Hsplit : keepsRateLimit wid [c] = true /\ keepsRateLimit wid rest = true).
    { unfold keepsRateLimit in *. cbn [forallb] in *. rewrite andb_true_r.
      apply andb_true_iff. exact Hkeep. }
    destruct Hsplit as [Hc Hrest].
    pose proof (call_lastSubmission pc c wid Hc) as [Hint Hstep].
    destruct (call pc c) as [pc1 acc] eqn:Ecall. cbn [fst snd] in Hint, Hstep.
    specialize (IH pc1). rewrite Hint in IH. destruct (IH Hpos Hrest) as [IHs IHl].
    destruct (runCalls pc1 rest) as [pc2 log] eqn:Erun. cbn [snd] in IHs, IHl |- *.
    destruct acc as [[w now]|].
    + destruct Hstep as [Hls Hgap]. rewrite acceptedTimes_cons. cbn [fst snd].
      destruct (String.eqb w wid) eqn:Ew.
      * apply String.eqb_eq in Ew. subst w.
        assert (Hnow : forall u, In u (acceptedTimes wid log) -> interval pc <= u - now).
        { intros u Hu. apply (IHl now u); [|exact Hu].
          rewrite Hls. apply lookup_insert_eq. }
        split; [split; assumption|].
        intros last u Hl [<-|Hu].
        -- apply Sub_ge_nonneg; auto.
        -- specialize (Hgap last Hl). apply Sub_ge_nonneg in Hgap; [|exact Hpos].
           specialize (Hnow u Hu). lia.
      * apply String.eqb_neq in Ew.
        split; [exact IHs|]. intros last u Hl Hu. apply (IHl last u); [|exact Hu].
        rewrite Hls, lookup_insert_ne; assumption.
    + split; [exact IHs|]. intros last u Hl Hu. apply (IHl last u); [|exact Hu].
      rewrite Hstep. exact Hl.
Qed.

End EngineCalls.

(** C7, as amended.  In an engine whose minimum interval is not negative
    (two seconds in a pool built by [NewPool]), whatever the schedule of
    concurrent callers, and whatever ran before it: over any stretch of the
    schedule in which [PurgeWorker] does not delete the rate-limit time of a
    worker, any two accepted submissions of that worker have submission
    times at least the interval apart, and each of them is at least the
    interval after the submission the engine remembered for the worker when
    the stretch began; the accepted submissions of a schedule are those of
    its stretches, in order.  A submission that arrives less than the
    interval after the remembered one is rejected without touching the
    engine, with "rate limit exceeded" when its job and worker checks
    pass. *)
Theorem C7_rate_limit_is_monotone (pc : Core.PoolCore) :
  0 <= Core.interval pc ->
  (forall before calls wid i j ti tj,
      Core.keepsRateLimit wid calls = true ->
      Core.acceptedTimes wid
        (snd (Core.runCalls (fst (Core.runCalls pc before)) calls)) !! i = Some ti ->
      Core.acceptedTimes wid
        (snd (Core.runCalls (fst (Core.runCalls pc before)) calls)) !! j = Some tj ->
      (i < j)%nat -> Core.interval pc <= tj - ti)
  /\ (forall before calls wid last u,
        Core.keepsRateLimit wid calls = true ->
        Core.lastSubmission (fst (Core.runCalls pc before)) !! wid = Some last ->
        In u (Core.acceptedTimes wid
                (snd (Core.runCalls (fst (Core.runCalls pc before)) calls))) ->
        Core.interval pc <= u - last)
  /\ (forall before calls,
        snd (Core.runCalls pc (before ++ calls))
        = snd (Core.runCalls pc before)
          ++ snd (Core.runCalls (fst (Core.runCalls pc before)) calls))
  /\ (forall nowJob now wid s last,
        Core.lastSubmission pc !! wid = Some last ->
        now - last < Core.interval pc ->
        exists e,
          Core.SubmitShare nowJob now pc wid s = (pc, Some e)
          /\ (forall sh jb wk,
                s = Some sh ->
                Core.activeJobs pc !! Core.Share.JobID sh = Some jb ->
                Since nowJob (Core.Job.CreatedAt jb) <= Core.ttlJob pc ->
                Core.workers pc !! wid = Some wk ->
                Core.Worker.IsActive wk = true ->
                e = "rate limit exceeded"%string)).
Proof.
  intros Hpos.
  assert (Hpos' : forall before, 0 <= Core.interval (fst (Core.runCalls pc before)))
    by (intros before; rewrite runCalls_interval; exact Hpos).
  split; [|split; [|split]].
  - intros before calls wid i j ti tj Hkeep Hi Hj Hlt.
    destruct (runCalls_spaced calls _ wid (Hpos' before) Hkeep) as [Hs _].
    rewrite runCalls_interval in Hs.
    exact (spaced_lookup _ _ i j ti tj Hs Hi Hj Hlt).
  - intros before calls wid last u Hkeep Hl Hu.
    destruct (runCalls_spaced calls _ wid (Hpos' before) Hkeep) as [_ Hb].
    rewrite runCalls_interval in Hb. exact (Hb last u Hl Hu).
  - intros before calls. rewrite runCalls_app. reflexivity.
  - intros nowJob now wid s last Hl Hsoon.
    apply Sub_lt_nonneg in Hsoon; [|exact Hpos]. apply Z.ltb_lt in Hsoon.
    assert (Hsec : forall sh, Core.submitSection now pc wid sh
                              = (pc, Some "rate limit exceeded"%string)).
    { intros sh. unfold Core.submitSection. rewrite Hl, Hsoon. reflexivity. }
    unfold Core.SubmitShare.
    destruct s as [sh|]; [|eexists; split; [reflexivity|intros ? ? ? [=]]].
    destruct (Core.activeJobs pc !! Core.Share.JobID sh) as [jb|] eqn:Hj.
    2:{ eexists; split; [reflexivity|]. intros sh' jb' wk' [= <-] Hj'.
        rewrite Hj in Hj'. discriminate. }
    destruct (Core.ttlJob pc <? Since nowJob (Core.Job.CreatedAt jb)) eqn:Httl.
    { eexists; split; [reflexivity|]. intros sh' jb' wk' [= <-] Hj' Hle.
      rewrite Hj in Hj'. injection Hj' as <-. apply Z.ltb_lt in Httl. lia. }
    destruct (Core.workers pc !! wid) as [wk|] eqn:Hw.
    2:{ eexists; split; [reflexivity|]. intros sh' jb' wk' _ _ _ [=]. }
    destruct (negb (Core.Worker.IsActive wk)) eqn:Hact.
    { eexists; split; [reflexivity|]. intros sh' jb' wk' _ _ _ [= <-] Ha.
      rewrite Ha in Hact. discriminate. }
    rewrite Hsec. eexists; split; reflexivity.
Qed.

(** C7 fails as stated.  [PurgeWorker] deletes the rate-limit time of a
    worker with its share list: [w1], purged and registered again, has two
    submissions accepted one nanosecond apart in an engine whose interval is
    two seconds; so has a submission of [w1] whose job and worker checks ran
    before the purge and whose locked section runs after it.  And a
    submission that arrives too soon is rejected with the error of an
    earlier check when it fails one: a nil share with "nil share". *)
Lemma C7_counterexample :
  Core.interval Scenario.engine1 = 2 * Second
  /\ Core.acceptedTimes "w1" (snd (Core.runCalls Scenario.engine1 Scenario.purgeSchedule))
     = [Scenario.t0 + Second; Scenario.t0 + Second + 1]
  /\ Core.acceptedTimes "w1" (snd (Core.runCalls Scenario.engine1 Scenario.purgeRace))
     = [Scenario.t0 + Second; Scenario.t0 + Second + 1]
  /\ Core.lastSubmission Scenario.engine2 !! "w1"%string = Some (Scenario.t0 + Second)
  /\ Core.SubmitShare (Scenario.t0 + Second + 1) (Scenario.t0 + Second + 1)
       Scenario.engine2 "w1" None
     = (Scenario.engine2, Some "nil share"%string).
Proof.
  repeat match goal with |- _ /\ _ => split end; vm_compute; reflexivity.
Qed.

(** The amended theorem at work on [schedule1], in the engine of a new pool,
    after [w2] was purged: of the three submissions of [w1] the first and
    the last are accepted, two seconds apart. *)
Lemma C7_witness :
  Core.acceptedTimes "w1"
    (snd (Core.runCalls
            (fst (Core.runCalls Scenario.engine1 [Core.CallPurgeShares "w2"]))
            (map Core.CallStep Scenario.schedule1)))
  = [Scenario.t0 + Second; Scenario.t0 + 3 * Second]
  /\ Core.interval Scenario.engine1 <= (Scenario.t0 + 3 * Second) - (Scenario.t0 + Second).
Proof.
  split; [vm_compute; reflexivity|].
  assert (Hpos : 0 <= Core.interval Scenario.engine1) by (vm_compute; congruence).
  apply (proj1 (C7_rate_limit_is_monotone Scenario.engine1 Hpos)
           [Core.CallPurgeShares "w2"] (map Core.CallStep Scenario.schedule1)
           "w1"%string 0%nat 1%nat);
    [vm_compute; reflexivity | vm_compute; reflexivity | vm_compute; reflexivity | lia].
Defined.

(** ** The facade: the gates of [ProcessShare] *)

Section AfterGates.
Import Core.

Context {St : Type} `{ShareStore St}.

Lemma afterGates_description (clk : Clock) (w1 : World St) (s : Share.t) :
  In (ShareResult.Description (fst (fst (afterGates clk w1 s))))
     ["share accepted"; "duplicate share ignored"; "failed to persist share"]%string.
Proof.
  unfold afterGates.
  destruct (Pool.ShareStore (pool w1)) as [st|]; [|cbn; tauto].
  destruct (Exists (at_exists clk) st (Share.ID s)) as [st1 [found err]].
  destruct (Save (at_save clk) st1 s) as [st2 serr] eqn:Esave.
  destruct err as [e|], found, serr as [e'|]; cbn; rewrite ?Esave; cbn; tauto.
Qed.

End AfterGates.

Section Gates.
Import Core.

Variable extractSubnet : string -> string.
Context {St : Type} `{ShareStore St}.

Lemma five_minutes_in_range : minDuration <= 5 * Minute < maxDuration.
Proof. unfold minDuration, maxDuration, Minute, Second. lia. Qed.

Lemma validateShareBasic_error_iff (now : Z) (s : Share.t) :
  (exists e, validateShareBasic now s = Some e) <-> shapeFails now s.
Proof.
  unfold validateShareBasic, shapeFails, IsZero, Since.
  destruct (String.eqb_spec (Share.JobID s) "") as [E1|E1];
    [split; [tauto|eauto]|].
  destruct (String.eqb_spec (Share.WorkerID s) "") as [E2|E2];
    [split; [tauto|eauto]|].
  destruct (String.eqb_spec (Share.Nonce s) "") as [E3|E3];
    [split; [tauto|eauto]|].
  destruct (String.eqb_spec (Share.Hash s) "") as [E4|E4];
    [split; [tauto|eauto]|].
  cbn [orb].
  destruct (Z.eqb_spec (Share.Timestamp s) 0) as [E5|E5];
    [split; [tauto|eauto]|].
  cbn [orb].
  pose proof (Sub_gt_iff now (Share.Timestamp s) (5 * Minute) five_minutes_in_range) as Hs.
  destruct (Z.ltb_spec (5 * Minute) (Sub now (Share.Timestamp s))) as [E6|E6].
  - split; [|eauto]. intros _. do 5 right. apply Hs. exact E6.
  - split; [intros [e [=]]|]. intros [?|[?|[?|[?|[?|E]]]]]; try contradiction.
    apply Hs in E. lia.
Qed.

Lemma validateShareBasic_None_iff (now : Z) (s : Share.t) :
  validateShareBasic now s = None <-> ~ shapeFails now s.
Proof.
  rewrite <- validateShareBasic_error_iff.
  destruct (validateShareBasic now s) as [e|]; split; intros Hx.
  - discriminate.
  - exfalso. apply Hx. eauto.
  - intros [e [=]].
  - reflexivity.
Qed.

(** Gate 1. *)
Lemma ProcessShare_shape (clk : Clock) (w : World St) (s : Share.t) (e : string) :
  validateShareBasic (at_basic clk) s = Some e ->
  ProcessShare extractSubnet clk w s
  = ((result ShareInvalid "basic validation failed" (Some e) false, Some e),
     invalidated w).
Proof. intros He. unfold ProcessShare. rewrite He. reflexivity. Qed.

(** Gate 2. *)
Lemma ProcessShare_job (clk : Clock) (w : World St) (s : Share.t) :
  validateShareBasic (at_basic clk) s = None ->
  isJobActive (at_job clk) (pool w) (Share.JobID s) = false ->
  ProcessShare extractSubnet clk w s
  = ((result ShareInvalid "job not active or expired"
             (Some "job not active or expired"%string) false, None),
     invalidated w).
Proof. intros Hs Hj. unfold ProcessShare. rewrite Hs, Hj. reflexivity. Qed.

(** Gate 3, when the verdict is flagged. *)
Lemma ProcessShare_fraud (clk : Clock) (w : World St) (s : Share.t) :
  validateShareBasic (at_basic clk) s = None ->
  isJobActive (at_job clk) (pool w) (Share.JobID s) = true ->
  Security.Flagged (fst (fraudGate extractSubnet clk w s)) = true ->
  ProcessShare extractSubnet clk w s
  = ((result ShareInvalid
             (String.append "blocked by antifraud: "
                (Security.Reason (fst (fraudGate extractSubnet clk w s))))
             (Some "antifraud rejection"%string) false, None),
     invalidated (inspected w (snd (fraudGate extractSubnet clk w s)))).
Proof.
  intros Hs Hj Hf. unfold ProcessShare. rewrite Hs, Hj. cbn [negb].
  destruct (fraudGate extractSubnet clk w s) as [v insp]. cbn [fst snd] in *.
  rewrite Hf. reflexivity.
Qed.

Lemma ProcessShare_passed (clk : Clock) (w : World St) (s : Share.t) :
  validateShareBasic (at_basic clk) s = None ->
  isJobActive (at_job clk) (pool w) (Share.JobID s) = true ->
  Security.Flagged (fst (fraudGate extractSubnet clk w s)) = false ->
  ProcessShare extractSubnet clk w s
  = afterGates clk (inspected w (snd (fraudGate extractSubnet clk w s))) s.
Proof.
  intros Hs Hj Hf. unfold ProcessShare. rewrite Hs, Hj. cbn [negb].
  destruct (fraudGate extractSubnet clk w s) as [v insp]. cbn [fst snd] in *.
  rewrite Hf. reflexivity.
Qed.

End Gates.

(** ** The fraud inspector *)

Section InspectorFrames.
Import Security.

Lemma pruneOld_recent (ts : list Z) (now t : Z) :
  In t (pruneOld ts now) <-> In t ts /\ now - t <= _windowSpan.
Proof.
  unfold pruneOld. rewrite filter_In, Z.leb_le.
  assert (Hr : minDuration <= _windowSpan < maxDuration)
    by (unfold minDuration, maxDuration, _windowSpan, Second; lia).
  pose proof (Sub_le_iff now t _windowSpan Hr). tauto.
Qed.

Lemma checkNonceReuse_frame (st : state) (minerID nonce : string) (now : Z) :
  Greylist (snd (checkNonceReuse st minerID nonce now)) = Greylist st
  /\ Subnets (snd (checkNonceReuse st minerID nonce now)) = Subnets st
  /\ Tokens (snd (checkNonceReuse st minerID nonce now)) = Tokens st.
Proof.
  unfold checkNonceReuse.
  destruct (negb _); cbn; repeat split; reflexivity.
Qed.

Lemma checkNonceReuse_level (st : state) (minerID nonce : string) (now : Z) :
  fst (checkNonceReuse st minerID nonce now) = (NoThreat, ""%string)
  \/ fst (checkNonceReuse st minerID nonce now)
     = (Warn, "nonce reuse by miner within window"%string).
Proof. unfold checkNonceReuse. destruct (negb _); cbn; tauto. Qed.

Lemma markToken_frame (st : state) (token : string) (now : Z) :
  Greylist (snd (markToken st token now)) = Greylist st
  /\ Subnets (snd (markToken st token now)) = Subnets st
  /\ NonceMap (snd (markToken st token now)) = NonceMap st.
Proof.
  unfold markToken.
  repeat match goal with |- context [if ?b then _ else _] => destruct b end;
    cbn; repeat split; reflexivity.
Qed.

(** One tick of the sweeper writes the greylist only. *)
Lemma cleanGreylist_frame (ticks : list Z) (st : state) :
  Subnets (cleanGreylist ticks st) = Subnets st
  /\ Tokens (cleanGreylist ticks st) = Tokens st
  /\ NonceMap (cleanGreylist ticks st) = NonceMap st.
Proof.
  revert st. induction ticks as [|now rest IH]; intros st; [repeat split|].
  cbn [cleanGreylist fold_left]. destruct (IH (cleanGreylistTick now st)) as (A & B & C).
  unfold cleanGreylist in *. rewrite A, B, C. repeat split.
Qed.

Lemma greylistTimeout_in_range : minDuration <= _greylistTimeout < maxDuration.
Proof. unfold minDuration, maxDuration, _greylistTimeout, Minute, Second. lia. Qed.

Lemma cleanGreylist_Greylist (ticks : list Z) (st : state) (k : string) (added : Z) :
  Greylist (cleanGreylist ticks st) !! k = Some added
  <-> Greylist st !! k = Some added
      /\ Forall (fun now => now - added <= _greylistTimeout) ticks.
Proof.
  revert st. induction ticks as [|now rest IH]; intros st.
  - cbn. split; [intros Hk; split; [exact Hk|constructor]|tauto].
  - change (cleanGreylist (now :: rest) st)
      with (cleanGreylist rest (cleanGreylistTick now st)).
    rewrite IH. unfold cleanGreylistTick at 1. cbn [Greylist with_Greylist].
    rewrite map_lookup_filter_Some. cbn [snd].
    pose proof (Sub_gt_iff now added _greylistTimeout greylistTimeout_in_range) as Hs.
    rewrite Forall_cons_iff. split.
    + intros [[Hk Hf] Hr]. split; [exact Hk|]. split; [lia|exact Hr].
    + intros [Hk [Hf Hr]]. split; [|exact Hr]. split; [exact Hk|lia].
Qed.

End InspectorFrames.

Section InspectorFacts.
Import Security.

Variable extractSubnet : string -> string.

Lemma LogRequest_Subnets (now : Z) (st : state) (ip token : string) :
  Subnets (snd (LogRequest extractSubnet now st ip token))
  = <[extractSubnet ip := windowAfter now st (extractSubnet ip)]> (Subnets st).
Proof.
  unfold LogRequest, windowAfter.
  repeat match goal with |- context [if ?b then _ else _] => destruct b end;
    reflexivity.
Qed.

Lemma LogRequest_Tokens (now : Z) (st : state) (ip token : string) :
  Tokens (snd (LogRequest extractSubnet now st ip token))
  = <[token := tokensAfter now st token]> (Tokens st).
Proof.
  unfold LogRequest, tokensAfter.
  repeat match goal with |- context [if ?b then _ else _] => destruct b end;
    reflexivity.
Qed.

Lemma LogRequest_NonceMap (now : Z) (st : state) (ip token : string) :
  NonceMap (snd (LogRequest extractSubnet now st ip token)) = NonceMap st.
Proof.
  unfold LogRequest.
  repeat match goal with |- context [if ?b then _ else _] => destruct b end;
    reflexivity.
Qed.

Lemma LogRequest_Greylist (now : Z) (st : state) (ip token : string) :
  Greylist (snd (LogRequest extractSubnet now st ip token))
  = if (_maxRequestsPerSubnet <? length (windowAfter now st (extractSubnet ip)))%nat
    then <[extractSubnet ip := now]> (Greylist st)
    else Greylist st.
Proof.
  unfold LogRequest, windowAfter.
  repeat match goal with |- context [if ?b then _ else _] => destruct b end;
    reflexivity.
Qed.

(** [LogRequest] answers [Block] for two reasons: the window of the subnet
    holds more than twenty entries, or the token has been logged ten times
    within the window. *)
Lemma LogRequest_Block_iff (now : Z) (st : state) (ip token : string) :
  fst (LogRequest extractSubnet now st ip token) = Block
  <-> (_maxRequestsPerSubnet < length (windowAfter now st (extractSubnet ip)))%nat
      \/ (_nonceReuseBlock <= length (tokensAfter now st token))%nat.
Proof.
  unfold LogRequest, windowAfter, tokensAfter. cbn [Tokens with_Subnets].
  set (rec := pruneOld (default [] (Subnets st !! extractSubnet ip)) now ++ [now]).
  set (u := pruneOld (default [] (Tokens st !! token)) now ++ [now]).
  destruct (Nat.ltb_spec _maxRequestsPerSubnet (length rec)) as [H1|H1];
    [cbn; tauto|].
  destruct (Nat.leb_spec _nonceReuseWarn (length u)) as [H2|H2];
    destruct (Nat.ltb_spec (length u) _nonceReuseBlock) as [H3|H3]; cbn [andb fst].
  - split; [discriminate|]. intros [?|?]; lia.
  - destruct (Nat.leb_spec _nonceReuseBlock (length u)); [tauto|lia].
  - destruct (Nat.leb_spec _nonceReuseBlock (length u)); [lia|].
    split; [discriminate|]. intros [?|?]; lia.
  - destruct (Nat.leb_spec _nonceReuseBlock (length u)); [tauto|lia].
Qed.

(** When the clock-skew guard fires nothing is logged. *)
Lemma EvaluateShare_skewed (now nowLog nowChk : Z) (g : option state)
    (minerID ip nonce hash : string) (ts : Z) :
  clockSkewed now ts = true ->
  EvaluateShare extractSubnet now nowLog nowChk g minerID ip nonce hash ts
  = ({| Flagged := true; Reason := "clock skew out of tolerance"; Level := Warn |},
     current g).
Proof. intros Hs. unfold EvaluateShare. rewrite Hs. reflexivity. Qed.

(** Past the guard, the subnet window and the greylist are those
    [LogRequest] leaves: the later checks do not write them. *)
Lemma EvaluateShare_frame (now nowLog nowChk : Z) (g : option state)
    (minerID ip nonce hash : string) (ts : Z) :
  clockSkewed now ts = false ->
  Subnets (snd (EvaluateShare extractSubnet now nowLog nowChk g minerID ip nonce hash ts))
  = Subnets (snd (LogRequest extractSubnet nowLog (current g) (extractSubnet ip) nonce))
  /\ Greylist (snd (EvaluateShare extractSubnet now nowLog nowChk g minerID ip nonce hash ts))
     = Greylist (snd (LogRequest extractSubnet nowLog (current g) (extractSubnet ip) nonce)).
Proof.
  intros Hs. unfold EvaluateShare. rewrite Hs.
  destruct (LogRequest extractSubnet nowLog (current g) (extractSubnet ip) nonce)
    as [lvl st1]. cbn [snd].
  pose proof (checkNonceReuse_frame st1 minerID nonce now) as (G2 & S2 & _).
  destruct (checkNonceReuse st1 minerID nonce now) as [[nlvl nreason] st2].
  cbn [snd] in G2, S2.
  pose proof (markToken_frame st2 hash now) as (G3 & S3 & _).
  destruct (markToken st2 hash now) as [[hlvl hreason] st3]. cbn [snd] in G3, S3.
  destruct lvl, nlvl, hlvl; cbn [snd]; try destruct (Check nowChk st3 (extractSubnet ip));
    cbn [snd]; split; congruence.
Qed.

(** A [Block] of [LogRequest] ends the evaluation with the subnet-rate
    verdict. *)
Lemma EvaluateShare_LogRequest_Block (now nowLog nowChk : Z) (g : option state)
    (minerID ip nonce hash : string) (ts : Z) :
  clockSkewed now ts = false ->
  fst (LogRequest extractSubnet nowLog (current g) (extractSubnet ip) nonce) = Block ->
  fst (EvaluateShare extractSubnet now nowLog nowChk g minerID ip nonce hash ts)
  = {| Flagged := true; Reason := "rate limit subnet/24 exceeded (greylisted)";
       Level := Block |}.
Proof.
  intros Hs Hb. unfold EvaluateShare. rewrite Hs.
  destruct (LogRequest extractSubnet nowLog (current g) (extractSubnet ip) nonce)
    as [lvl st1]. cbn [fst] in Hb. subst lvl. reflexivity.
Qed.

(** Every verdict is flagged unless its level is [NoThreat]. *)
Lemma EvaluateShare_Flagged (now nowLog nowChk : Z) (g : option state)
    (minerID ip nonce hash : string) (ts : Z) :
  Flagged (fst (EvaluateShare extractSubnet now nowLog nowChk g minerID ip nonce hash ts))
  = match Level (fst (EvaluateShare extractSubnet now nowLog nowChk g
                        minerID ip nonce hash ts)) with
    | NoThreat => false
    | _ => true
    end.
Proof.
  unfold EvaluateShare.
  destruct (clockSkewed now ts); [reflexivity|].
  destruct (LogRequest extractSubnet nowLog (current g) (extractSubnet ip) nonce)
    as [lvl st1].
  destruct (checkNonceReuse st1 minerID nonce now) as [[nlvl nreason] st2].
  destruct (markToken st2 hash now) as [[hlvl hreason] st3].
  destruct lvl, nlvl, hlvl; try reflexivity;
    destruct (Check nowChk st3 (extractSubnet ip)); reflexivity.
Qed.

(** [IsFraudulentNonce], the check of the HTTP handler, looks at the level
    of the verdict and reports fraud for [Block] only. *)
Lemma IsFraudulentNonce_Block_only (ts now nowLog nowChk : Z) (g : option state)
    (minerID nonce : string) :
  fst (IsFraudulentNonce extractSubnet ts now nowLog nowChk g minerID nonce) = true
  <-> Level (fst (EvaluateShare extractSubnet now nowLog nowChk g
                    minerID minerID nonce "" ts)) = Block.
Proof.
  unfold IsFraudulentNonce.
  destruct (EvaluateShare extractSubnet now nowLog nowChk g minerID minerID nonce "" ts)
    as [verdict st]. cbn [fst].
  destruct (Level verdict); split; intros Hx; try reflexivity; discriminate.
Qed.

End InspectorFacts.

(** ** The claims about the gates *)

Section GateClaims.
Import Core.

Variable extractSubnet : string -> string.
Context {St : Type} `{ShareStore St}.

(** C4, as amended.  [ProcessShare] answers "basic validation failed"
    exactly when the job id, the worker id, the nonce or the client hash is
    empty, or the timestamp is the zero time or more than five minutes
    behind the clock; the answer is then INVALID with valid=false, the error
    of [validateShareBasic] is returned and only the invalid-share counter
    changes.  Neither the shape of the nonce, nor the difficulty, nor a
    timestamp ahead of the clock takes part in the check. *)
Theorem C4_shape_gate (clk : Clock) (w : World St) (s : Share.t) :
  (ShareResult.Description (fst (fst (ProcessShare extractSubnet clk w s)))
   = "basic validation failed"%string
   <-> shapeFails (at_basic clk) s)
  /\ (shapeFails (at_basic clk) s ->
      exists e,
        validateShareBasic (at_basic clk) s = Some e
        /\ ProcessShare extractSubnet clk w s
           = ((result ShareInvalid "basic validation failed" (Some e) false, Some e),
              invalidated w)).
Proof.
  assert (Hfwd : shapeFails (at_basic clk) s ->
                 exists e,
                   validateShareBasic (at_basic clk) s = Some e
                   /\ ProcessShare extractSubnet clk w s
                      = ((result ShareInvalid "basic validation failed" (Some e) false,
                          Some e), invalidated w)).
  { intros Hf. apply validateShareBasic_error_iff in Hf. destruct Hf as [e He].
    exists e. split; [exact He|]. apply ProcessShare_shape. exact He. }
  split; [|exact Hfwd]. split.
  - intros Hd.
    destruct (validateShareBasic (at_basic clk) s) as [e|] eqn:Hv.
    { apply validateShareBasic_error_iff. eauto. }
    exfalso.
    destruct (isJobActive (at_job clk) (pool w) (Share.JobID s)) eqn:Hj.
    + destruct (Security.Flagged (fst (fraudGate extractSubnet clk w s))) eqn:Hf.
      * rewrite (ProcessShare_fraud extractSubnet clk w s Hv Hj Hf) in Hd.
        cbn in Hd. discriminate.
      * rewrite (ProcessShare_passed extractSubnet clk w s Hv Hj Hf) in Hd.
        pose proof (afterGates_description clk
                      (inspected w (snd (fraudGate extractSubnet clk w s))) s) as Hin.
        rewrite Hd in Hin. cbn in Hin.
        destruct Hin as [E|[E|[E|[]]]]; discriminate.
    + rewrite (ProcessShare_job extractSubnet clk w s Hv Hj) in Hd.
      cbn in Hd. discriminate.
  - intros Hf. destruct (Hfwd Hf) as (e & _ & ->). reflexivity.
Qed.

Lemma isJobActive_stale (now : Z) (p : Pool.t St) (jobID : string) :
  ttlJob (Pool.Engine p) < maxDuration ->
  jobStale now (Pool.Engine p) jobID ->
  isJobActive now p jobID = false.
Proof.
  unfold jobStale, isJobActive. intros Httl Hst.
  destruct (String.eqb jobID ""); [reflexivity|].
  destruct (activeJobs (Pool.Engine p) !! jobID) as [j|]; [|reflexivity].
  apply Z.leb_gt. unfold Since, Sub, minDuration. unfold maxDuration in *. lia.
Qed.

(** C5, as amended.  When the job a share names is unknown to the engine, or
    its age [now - created_at] exceeds the engine's time to live (for a job
    whose [expires_at] is [created_at] plus that time to live: when [now] is
    past [expires_at]), the share is not accepted; if it passes the shape
    check the answer is INVALID "job not active or expired", and if it does
    not, the answer is the one of the shape check. *)
Theorem C5_stale_job_is_rejected (clk : Clock) (w : World St) (s : Share.t) :
  ttlJob (Pool.Engine (pool w)) < maxDuration ->
  (activeJobs (Pool.Engine (pool w)) !! Share.JobID s = None
   \/ (exists j, activeJobs (Pool.Engine (pool w)) !! Share.JobID s = Some j
                 /\ Job.CreatedAt j + ttlJob (Pool.Engine (pool w)) < at_job clk)
   \/ (exists j, activeJobs (Pool.Engine (pool w)) !! Share.JobID s = Some j
                 /\ Job.ExpiresAt j = Job.CreatedAt j + ttlJob (Pool.Engine (pool w))
                 /\ Job.ExpiresAt j < at_job clk)) ->
  ShareResult.Valid (fst (fst (ProcessShare extractSubnet clk w s))) = false
  /\ ShareResult.Status (fst (fst (ProcessShare extractSubnet clk w s))) = ShareInvalid
  /\ (validateShareBasic (at_basic clk) s = None ->
      ProcessShare extractSubnet clk w s
      = ((result ShareInvalid "job not active or expired"
                 (Some "job not active or expired"%string) false, None),
         invalidated w)).
Proof.
  intros Httl Hjob.
  assert (Hst : jobStale (at_job clk) (Pool.Engine (pool w)) (Share.JobID s)).
  { unfold jobStale. destruct Hjob as [Hn|[(j & Hj & Hlt)|(j & Hj & He & Hlt)]].
    - rewrite Hn. exact I.
    - rewrite Hj. exact Hlt.
    - rewrite Hj. lia. }
  pose proof (isJobActive_stale (at_job clk) (pool w) (Share.JobID s) Httl Hst) as Hj.
  destruct (validateShareBasic (at_basic clk) s) as [e|] eqn:Hv.
  - rewrite (ProcessShare_shape extractSubnet clk w s e Hv). cbn.
    repeat split. discriminate.
  - rewrite (ProcessShare_job extractSubnet clk w s Hv Hj). cbn.
    repeat split.
Qed.

(** C3, as amended.  For a share that passed the shape and job gates: the
    verdict of the inspector is flagged exactly when its level is WARN or
    BLOCK; a verdict of either level rejects the share with INVALID
    "blocked by antifraud: <reason>"; only a verdict of level NONE lets the
    share go on to the duplicate check and the save. *)
Theorem C3_flagged_verdict_rejects (clk : Clock) (w : World St) (s : Share.t) :
  validateShareBasic (at_basic clk) s = None ->
  isJobActive (at_job clk) (pool w) (Share.JobID s) = true ->
  (Security.Flagged (fst (fraudGate extractSubnet clk w s)) = true
   <-> Security.Level (fst (fraudGate extractSubnet clk w s)) = Security.Warn
       \/ Security.Level (fst (fraudGate extractSubnet clk w s)) = Security.Block)
  /\ (Security.Level (fst (fraudGate extractSubnet clk w s)) = Security.Warn
      \/ Security.Level (fst (fraudGate extractSubnet clk w s)) = Security.Block ->
      ProcessShare extractSubnet clk w s
      = ((result ShareInvalid
                 (String.append "blocked by antifraud: "
                    (Security.Reason (fst (fraudGate extractSubnet clk w s))))
                 (Some "antifraud rejection"%string) false, None),
         invalidated (inspected w (snd (fraudGate extractSubnet clk w s)))))
  /\ (Security.Level (fst (fraudGate extractSubnet clk w s)) = Security.NoThreat ->
      ProcessShare extractSubnet clk w s
      = afterGates clk (inspected w (snd (fraudGate extractSubnet clk w s))) s
      /\ In (ShareResult.Description (fst (fst (ProcessShare extractSubnet clk w s))))
            ["share accepted"; "duplicate share ignored"; "failed to persist share"]%string).
Proof.
  intros Hv Hj.
  pose proof (EvaluateShare_Flagged extractSubnet (at_eval clk) (at_log clk)
                (at_check clk) (globalInspector w) (Share.WorkerID s) (Share.IP s)
                (Share.Nonce s) (Share.Hash s) (Share.Timestamp s)) as Hfl.
  fold (fraudGate extractSubnet clk w s) in Hfl.
  assert (Hiff : Security.Flagged (fst (fraudGate extractSubnet clk w s)) = true
                 <-> Security.Level (fst (fraudGate extractSubnet clk w s)) = Security.Warn
                     \/ Security.Level (fst (fraudGate extractSubnet clk w s))
                        = Security.Block).
  { rewrite Hfl.
    destruct (Security.Level (fst (fraudGate extractSubnet clk w s)));
      split; try tauto; try discriminate; intros [?|?]; discriminate. }
  split; [exact Hiff|]. split.
  - intros Hl. apply Hiff in Hl. exact (ProcessShare_fraud extractSubnet clk w s Hv Hj Hl).
  - intros Hl.
    assert (Hp : ProcessShare extractSubnet clk w s
                 = afterGates clk (inspected w (snd (fraudGate extractSubnet clk w s))) s).
    { apply (ProcessShare_passed extractSubnet clk w s Hv Hj).
      rewrite Hfl, Hl. reflexivity. }
    split; [exact Hp|]. rewrite Hp. apply afterGates_description.
Qed.

End GateClaims.

(** ** The claims about the store *)

Section StoreClaims.
Import Core.

Variable extractSubnet : string -> string.
Context {St : Type} `{ShareStore St}.

Lemma Counted_countsSaves : countsSaves (St := Counted.t St) Counted.saves.
Proof.
  split.
  - intros now c id. cbn. unfold Counted_Exists.
    destruct (Exists now (Counted.inner c) id). reflexivity.
  - intros now c share. cbn. unfold Counted_Save.
    destruct (Save now (Counted.inner c) share) as [st err]. reflexivity.
Qed.

Lemma afterGates_nil (clk : Clock) (w1 : World St) (s : Share.t) :
  Pool.ShareStore (pool w1) = None ->
  afterGates clk w1 s
  = ((result ShareAccepted "share accepted" None true, None), validated w1).
Proof. intros Hn. unfold afterGates. rewrite Hn. reflexivity. Qed.

Lemma afterGates_duplicate (clk : Clock) (w1 : World St) (s : Share.t) (st st1 : St) :
  Pool.ShareStore (pool w1) = Some st ->
  Exists (at_exists clk) st (Share.ID s) = (st1, (true, None)) ->
  afterGates clk w1 s
  = ((result ShareAccepted "duplicate share ignored" None true, None), stored w1 st1).
Proof. intros Hs He. unfold afterGates. rewrite Hs, He. reflexivity. Qed.

Lemma afterGates_saved (clk : Clock) (w1 : World St) (s : Share.t) (st st1 st2 : St)
    (found : bool) (err : option string) :
  Pool.ShareStore (pool w1) = Some st ->
  Exists (at_exists clk) st (Share.ID s) = (st1, (found, err)) ->
  found = false \/ err <> None ->
  Save (at_save clk) st1 s = (st2, None) ->
  afterGates clk w1 s
  = ((result ShareAccepted "share accepted" None true, None),
     validated (stored w1 st2)).
Proof.
  intros Hs He Hne Hsv. unfold afterGates. rewrite Hs, He.
  destruct err as [e|], found; rewrite ?Hsv; try reflexivity.
  destruct Hne as [?|?]; [discriminate|contradiction].
Qed.

(** C9.  On a pool whose store is nil, a share that passes the shape, job and
    fraud gates is answered ACCEPTED "share accepted" with valid=true; no
    store is consulted or written (it is still nil afterwards) and only the
    inspector and the valid-share counter change.  So when the same share is
    submitted again and passes the three gates again, it is accepted in full
    a second time and counted twice. *)
Theorem C9_nil_store_accepts_twice (clk : Clock) (w : World St) (s : Share.t) :
  Pool.ShareStore (pool w) = None ->
  passesGates extractSubnet clk w s ->
  ProcessShare extractSubnet clk w s
  = ((result ShareAccepted "share accepted" None true, None),
     validated (inspected w (snd (fraudGate extractSubnet clk w s))))
  /\ Pool.ShareStore (pool (snd (ProcessShare extractSubnet clk w s))) = None
  /\ (forall clk2,
        passesGates extractSubnet clk2 (snd (ProcessShare extractSubnet clk w s)) s ->
        fst (ProcessShare extractSubnet clk2 (snd (ProcessShare extractSubnet clk w s)) s)
        = (result ShareAccepted "share accepted" None true, None)
        /\ Metrics.SharesValid
             (metrics (snd (ProcessShare extractSubnet clk2
                              (snd (ProcessShare extractSubnet clk w s)) s)))
           = S (S (Metrics.SharesValid (metrics w)))).
Proof.
  intros Hnil (Hv & Hj & Hf).
  assert (E1 : ProcessShare extractSubnet clk w s
               = ((result ShareAccepted "share accepted" None true, None),
                  validated (inspected w (snd (fraudGate extractSubnet clk w s))))).
  { rewrite (ProcessShare_passed extractSubnet clk w s Hv Hj Hf).
    apply afterGates_nil. exact Hnil. }
  rewrite E1. cbn [fst snd]. split; [reflexivity|]. split; [exact Hnil|].
  intros clk2 (Hv2 & Hj2 & Hf2).
  rewrite (ProcessShare_passed extractSubnet clk2 _ s Hv2 Hj2 Hf2).
  rewrite afterGates_nil by exact Hnil. split; reflexivity.
Qed.

(** C2, as amended.  For a share that passes the shape, job and fraud gates
    on a pool with a store:
    (a) if the store reports the id of the share as present, without error,
    the answer is ACCEPTED "duplicate share ignored" with valid=true, nothing
    is saved and no counter moves;
    (b) if the store does not, and the save succeeds, the answer is ACCEPTED
    "share accepted" with valid=true; and when the same share is processed
    again, passes the three gates again and the store now reports its id,
    the second answer is the duplicate one: over the two calls the store
    received exactly one successful save (whatever counts its successful
    saves went up by one) and the share was counted once. *)
Theorem C2_duplicate_is_accepted_without_save (clk : Clock) (w : World St)
    (s : Share.t) (st : St) :
  Pool.ShareStore (pool w) = Some st ->
  passesGates extractSubnet clk w s ->
  (forall st1,
      Exists (at_exists clk) st (Share.ID s) = (st1, (true, None)) ->
      ProcessShare extractSubnet clk w s
      = ((result ShareAccepted "duplicate share ignored" None true, None),
         stored (inspected w (snd (fraudGate extractSubnet clk w s))) st1))
  /\ (forall st1 found err st2,
        Exists (at_exists clk) st (Share.ID s) = (st1, (found, err)) ->
        found = false \/ err <> None ->
        Save (at_save clk) st1 s = (st2, None) ->
        ProcessShare extractSubnet clk w s
        = ((result ShareAccepted "share accepted" None true, None),
           validated (stored (inspected w (snd (fraudGate extractSubnet clk w s))) st2))
        /\ (forall clk2 st3,
              passesGates extractSubnet clk2 (snd (ProcessShare extractSubnet clk w s)) s ->
              Exists (at_exists clk2) st2 (Share.ID s) = (st3, (true, None)) ->
              fst (ProcessShare extractSubnet clk2
                     (snd (ProcessShare extractSubnet clk w s)) s)
              = (result ShareAccepted "duplicate share ignored" None true, None)
              /\ Pool.ShareStore
                   (pool (snd (ProcessShare extractSubnet clk2
                                 (snd (ProcessShare extractSubnet clk w s)) s)))
                 = Some st3
              /\ (forall saves : St -> nat,
                    countsSaves saves -> saves st3 = S (saves st))
              /\ Metrics.SharesValid
                   (metrics (snd (ProcessShare extractSubnet clk2
                                    (snd (ProcessShare extractSubnet clk w s)) s)))
                 = S (Metrics.SharesValid (metrics w)))).
Proof.
  intros Hst (Hv & Hj & Hf).
  pose proof (ProcessShare_passed extractSubnet clk w s Hv Hj Hf) as Hp.
  split.
  - intros st1 He. rewrite Hp. apply (afterGates_duplicate clk _ s st st1); assumption.
  - intros st1 found err st2 He Hne Hsv.
    assert (E1 : ProcessShare extractSubnet clk w s
                 = ((result ShareAccepted "share accepted" None true, None),
                    validated
                      (stored (inspected w (snd (fraudGate extractSubnet clk w s))) st2))).
    { rewrite Hp. apply (afterGates_saved clk _ s st st1 st2 found err); assumption. }
    split; [exact E1|]. rewrite E1. cbn [fst snd].
    intros clk2 st3 (Hv2 & Hj2 & Hf2) He2.
    rewrite (ProcessShare_passed extractSubnet clk2 _ s Hv2 Hj2 Hf2).
    rewrite (afterGates_duplicate clk2 _ s st2 st3); [|reflexivity|exact He2].
    split; [reflexivity|]. split; [reflexivity|]. split; [|reflexivity].
    intros saves [Hlook Hsave].
    pose proof (Hlook (at_exists clk2) st2 (Share.ID s)) as H3. rewrite He2 in H3.
    pose proof (Hsave (at_save clk) st1 s) as H2. rewrite Hsv in H2.
    pose proof (Hlook (at_exists clk) st (Share.ID s)) as H1. rewrite He in H1.
    cbn [fst snd] in H1, H2, H3. congruence.
Qed.

End StoreClaims.

(** ** The claims about the inspector *)

Section InspectorClaims.
Import Security.

Variable extractSubnet : string -> string.

(** C6, as amended.  An evaluation stopped by the clock-skew guard logs
    nothing.  Every other evaluation replaces the window of the submitter's
    subnet key by its entries at most fifteen seconds old followed by the
    current time; when that window then holds more than twenty entries the
    subnet is put on the greylist with the current time and the verdict is
    BLOCK with reason "rate limit subnet/24 exceeded (greylisted)"; when it
    holds twenty entries or fewer the greylist is left as it was. *)
Theorem C6_subnet_rate_rule (now nowLog nowChk : Z) (g : option state)
    (minerID ip nonce hash : string) (ts : Z) :
  (clockSkewed now ts = true ->
   EvaluateShare extractSubnet now nowLog nowChk g minerID ip nonce hash ts
   = ({| Flagged := true; Reason := "clock skew out of tolerance"; Level := Warn |},
      current g))
  /\ (clockSkewed now ts = false ->
      Subnets (snd (EvaluateShare extractSubnet now nowLog nowChk g
                      minerID ip nonce hash ts))
      = <[extractSubnet (extractSubnet ip) :=
            pruneOld (default [] (Subnets (current g) !! extractSubnet (extractSubnet ip)))
                     nowLog ++ [nowLog]]> (Subnets (current g))
      /\ (forall t,
            In t (pruneOld (default [] (Subnets (current g)
                                          !! extractSubnet (extractSubnet ip))) nowLog)
            <-> In t (default [] (Subnets (current g) !! extractSubnet (extractSubnet ip)))
                /\ nowLog - t <= 15 * Second)
      /\ ((20 < length (windowAfter nowLog (current g) (extractSubnet (extractSubnet ip))))%nat ->
          fst (EvaluateShare extractSubnet now nowLog nowChk g minerID ip nonce hash ts)
          = {| Flagged := true; Reason := "rate limit subnet/24 exceeded (greylisted)";
               Level := Block |}
          /\ Greylist (snd (EvaluateShare extractSubnet now nowLog nowChk g
                              minerID ip nonce hash ts))
             = <[extractSubnet (extractSubnet ip) := nowLog]> (Greylist (current g)))
      /\ ((length (windowAfter nowLog (current g) (extractSubnet (extractSubnet ip))) <= 20)%nat ->
          Greylist (snd (EvaluateShare extractSubnet now nowLog nowChk g
                           minerID ip nonce hash ts))
          = Greylist (current g))).
Proof.
  split; [apply EvaluateShare_skewed|]. intros Hs.
  destruct (EvaluateShare_frame extractSubnet now nowLog nowChk g minerID ip nonce hash
              ts Hs) as [HS HG].
  rewrite HS, HG, LogRequest_Subnets, LogRequest_Greylist.
  split; [reflexivity|]. split; [intros t; apply pruneOld_recent|]. split.
  - intros Hlen. split.
    + apply EvaluateShare_LogRequest_Block; [exact Hs|].
      apply LogRequest_Block_iff. left. exact Hlen.
    + apply Nat.ltb_lt in Hlen. unfold _maxRequestsPerSubnet. rewrite Hlen. reflexivity.
  - intros Hlen. apply Nat.ltb_ge in Hlen. unfold _maxRequestsPerSubnet.
    rewrite Hlen. reflexivity.
Qed.

End InspectorClaims.

(** C8, as amended.  During silence the only thing that runs is the sweeper,
    and the sweeper writes the greylist only: whatever the ticks, the subnet
    windows, the token windows and the nonce windows are exactly what they
    were, and a greylist entry survives exactly when at every tick it was
    at most three minutes old. *)
Theorem C8_sweeper_only_cleans_greylist (ticks : list Z) (st : Security.state) :
  Security.Subnets (Security.cleanGreylist ticks st) = Security.Subnets st
  /\ Security.Tokens (Security.cleanGreylist ticks st) = Security.Tokens st
  /\ Security.NonceMap (Security.cleanGreylist ticks st) = Security.NonceMap st
  /\ (forall k added,
        Security.Greylist (Security.cleanGreylist ticks st) !! k = Some added
        <-> Security.Greylist st !! k = Some added
            /\ Forall (fun now => now - added <= 3 * Minute) ticks).
Proof.
  destruct (cleanGreylist_frame ticks st) as (A & B & C).
  split; [exact A|]. split; [exact B|]. split; [exact C|].
  intros k added. exact (cleanGreylist_Greylist ticks st k added).
Qed.

(** ** The digest and the target comparison *)

Section Digest.
Import Core.

Example sha256_of_abc :
  sha256_hex "abc"
  = "ba7816bf8f01cfea414140de5dae2223b00361a396177a9cb410ff61f20015ad"%string.
Proof. vm_compute. reflexivity. Qed.

Example sha256_of_two_blocks :
  sha256_hex "abcdbcdecdefdefgefghfghighijhijkijkljklmklmnlmnomnopnopq"
  = "248d6a61d20638b8e5c026930c3e6039a33ce45964ff2167f6ecedd419db06c1"%string.
Proof. vm_compute. reflexivity. Qed.

Lemma round_length (st : list Z * list Z) (k : Z) :
  length (fst st) = 8%nat -> length (fst (Sha256.round st k)) = 8%nat.
Proof.
  destruct st as [v w]. cbn [fst]. intros Hv.
  do 8 (destruct v as [|? v]; [discriminate|]).
  destruct v; [reflexivity|discriminate].
Qed.

Lemma rounds_length (ks : list Z) (st : list Z * list Z) :
  length (fst st) = 8%nat -> length (fst (fold_left Sha256.round ks st)) = 8%nat.
Proof.
  revert st. induction ks as [|k ks IH]; intros st Hst; [exact Hst|].
  cbn [fold_left]. apply IH, round_length, Hst.
Qed.

Lemma add_words_length (xs ys : list Z) :
  length xs = length ys -> length (Sha256.add_words xs ys) = length xs.
Proof.
  revert ys. induction xs as [|x xs IH]; intros [|y ys] Hl; try discriminate;
    [reflexivity|]. cbn. f_equal. apply IH. injection Hl as Hl. exact Hl.
Qed.

Lemma compress_length (h block : list Z) :
  length h = 8%nat -> length (Sha256.compress h block) = 8%nat.
Proof.
  intros Hh. unfold Sha256.compress. rewrite add_words_length; [exact Hh|].
  rewrite Hh. symmetry. apply rounds_length. exact Hh.
Qed.

Lemma blocks_length (fuel : nat) (h ws : list Z) :
  length h = 8%nat -> length (Sha256.blocks fuel h ws) = 8%nat.
Proof.
  revert h ws. induction fuel as [|fuel IH]; intros h ws Hh; [exact Hh|].
  cbn [Sha256.blocks]. destruct ws as [|w ws]; [exact Hh|].
  apply IH, compress_length, Hh.
Qed.

(** A hexadecimal digit is never below the character 0. *)
Lemma digit_not_below_zero (n : Z) :
  0 <= n < 16 -> Ascii.compare (Hex.digit n) "0"%char <> Lt.
Proof.
  intros Hn.
  assert (Hcases : In n [0; 1; 2; 3; 4; 5; 6; 7; 8; 9; 10; 11; 12; 13; 14; 15])
    by (cbn; lia).
  cbn in Hcases.
  repeat (destruct Hcases as [<-|Hcases]; [vm_compute; discriminate|]).
  contradiction.
Qed.

Lemma high_nibble (b : Z) : 0 <= Z.shiftr (Z.land b 255) 4 < 16.
Proof.
  change 255 with (Z.ones 8). rewrite Z.land_ones by lia.
  rewrite Z.shiftr_div_pow2 by lia.
  pose proof (Z.mod_pos_bound b (2 ^ 8) ltac:(lia)).
  change (2 ^ 4) with 16. change (2 ^ 8) with 256 in *.
  split; [apply Z.div_pos; lia|apply Z.div_lt_upper_bound; lia].
Qed.

Lemma low_nibble (b : Z) : 0 <= Z.land b 15 < 16.
Proof.
  change 15 with (Z.ones 4). rewrite Z.land_ones by lia.
  apply Z.mod_pos_bound. lia.
Qed.

(** A string that starts with four characters not below 0 is not below
    "0000" in the byte-wise order. *)
Lemma not_below_0000 (c1 c2 c3 c4 : ascii) (rest : string) :
  Ascii.compare c1 "0"%char <> Lt -> Ascii.compare c2 "0"%char <> Lt ->
  Ascii.compare c3 "0"%char <> Lt -> Ascii.compare c4 "0"%char <> Lt ->
  go_string_lt (String c1 (String c2 (String c3 (String c4 rest)))) "0000" = false.
Proof.
  intros H1 H2 H3 H4. unfold go_string_lt, String.ltb. cbn [String.compare].
  destruct (Ascii.compare c1 "0"); [|contradiction|reflexivity].
  destruct (Ascii.compare c2 "0"); [|contradiction|reflexivity].
  destruct (Ascii.compare c3 "0"); [|contradiction|reflexivity].
  destruct (Ascii.compare c4 "0"); [|contradiction|reflexivity].
  destruct rest; reflexivity.
Qed.

(** No digest is below the target "0000" the handler passes. *)
Lemma digest_not_below_0000 (s : string) : go_string_lt (sha256_hex s) "0000" = false.
Proof.
  unfold sha256_hex, Sha256.Sum256.
  set (p := Sha256.pad (Sha256.bytes_of_string s)).
  set (ws := Sha256.words (length p) p).
  pose proof (blocks_length (length ws) Sha256.initial ws eq_refl) as Hl.
  destruct (Sha256.blocks (length ws) Sha256.initial ws) as [|x xs]; [discriminate|].
  cbn [flat_map Sha256.be_bytes app Hex.EncodeToString].
  apply not_below_0000; apply digit_not_below_zero;
    first [apply high_nibble | apply low_nibble].
Qed.

(** [JobManager.ValidateShare] is the one place that recomputes the digest of
    the job data: it approves a share only if the job is known, active and
    not past [ExpiresAt], the client hash is that digest, and the digest is
    below the target of the job. *)
Lemma JobManager_ValidateShare_sound (ValidateUUID : string -> bool) (now : Z)
    (jm : JobManager) (jobID nonce result : string) :
  JobManager_ValidateShare ValidateUUID now jm jobID nonce result = Some true ->
  exists jb,
    jobs jm !! jobID = Some jb
    /\ Job.Active jb = true
    /\ now <= Job.ExpiresAt jb
    /\ result = hashJob (Job.Data jb) nonce
    /\ checkDifficulty (hashJob (Job.Data jb) nonce) (Job.Target jb) = true.
Proof.
  unfold JobManager_ValidateShare, After.
  destruct (jobs jm !! jobID) as [jb|]; [|discriminate].
  destruct (Job.Active jb) eqn:Hact; [|discriminate]. cbn [negb].
  destruct (Z.ltb_spec (Job.ExpiresAt jb) now) as [Hlt|Hle]; [discriminate|].
  destruct (drop4 jobID) as [u|]; [|discriminate].
  destruct (ValidateUUID u); [|discriminate]. cbn [negb].
  destruct (String.eqb_spec (hashJob (Job.Data jb) nonce) result) as [Heq|Hne];
    [|discriminate]. cbn [negb].
  destruct (checkDifficulty (hashJob (Job.Data jb) nonce) (Job.Target jb)) eqn:Hd;
    [|discriminate].
  intros _. exists jb. split; [reflexivity|]. split; [exact Hact|].
  split; [exact Hle|]. split; [symmetry; exact Heq|exact Hd].
Qed.

(** [CleanupExpiredJobs] keeps exactly the jobs that are not past their
    [ExpiresAt]. *)
Lemma CleanupExpiredJobs_keeps (now : Z) (jm : JobManager) (id : string) (jb : Job.t) :
  jobs (CleanupExpiredJobs now jm) !! id = Some jb
  <-> jobs jm !! id = Some jb /\ now <= Job.ExpiresAt jb.
Proof.
  unfold CleanupExpiredJobs. cbn [jobs]. rewrite map_lookup_filter_Some. cbn [snd].
  split; intros [Hl Hk]; (split; [exact Hl|lia]).
Qed.

Context {St : Type} `{ShareStore St}.

(** So [ShareProcessor.Process], called with the target "0000" as the HTTP
    handler does, accepts no share at all. *)
Lemma Process_handler_accepts_nothing (nowDup nowStale nowSave : Z) (st : St)
    (share : Share.t) (ttl : Z) :
  ShareResult.Valid (fst (Process nowDup nowStale nowSave st share "0000" ttl)) = false.
Proof.
  unfold Process, ValidateShare, IsValidHash, calculateHash.
  rewrite digest_not_below_0000.
  destruct (IsDuplicate nowDup st share) as [dup st'].
  destruct dup; [reflexivity|].
  destruct (IsStale nowStale share ttl); reflexivity.
Qed.

End Digest.

(** ** [ProcessShare] does not read the data or the target of a job *)

Section Blindness.
Import Core.

Variable extractSubnet : string -> string.
Context {St : Type} `{ShareStore St}.

Lemma afterGates_answer (clk : Clock) (w1 w1' : World St) (s : Share.t) :
  Pool.ShareStore (pool w1) = Pool.ShareStore (pool w1') ->
  fst (afterGates clk w1 s) = fst (afterGates clk w1' s).
Proof.
  intros Hst. unfold afterGates. rewrite <- Hst.
  destruct (Pool.ShareStore (pool w1)) as [st|]; [|reflexivity].
  destruct (Exists (at_exists clk) st (Share.ID s)) as [st1 [found err]].
  destruct (Save (at_save clk) st1 s) as [st2 serr].
  destruct err, found, serr; reflexivity.
Qed.

(** Whatever data and target the job of a share carries, the answer of
    [ProcessShare] is the same. *)
Lemma ProcessShare_blind_to_data_and_target (clk : Clock) (w : World St) (s : Share.t)
    (j : Job.t) (data target : string) :
  activeJobs (Pool.Engine (pool w)) !! Share.JobID s = Some j ->
  fst (ProcessShare extractSubnet clk (withJob w (Share.JobID s) (retarget j data target)) s)
  = fst (ProcessShare extractSubnet clk w s).
Proof.
  intros Hj. unfold ProcessShare.
  destruct (validateShareBasic (at_basic clk) s) as [e|]; [reflexivity|].
  assert (Hact : isJobActive (at_job clk)
                   (pool (withJob w (Share.JobID s) (retarget j data target)))
                   (Share.JobID s)
                 = isJobActive (at_job clk) (pool w) (Share.JobID s)).
  { unfold isJobActive. destruct (String.eqb (Share.JobID s) ""); [reflexivity|].
    cbn [withJob pool Pool.Engine with_activeJobs activeJobs ttlJob].
    rewrite lookup_insert_eq, Hj. reflexivity. }
  rewrite Hact.
  destruct (isJobActive (at_job clk) (pool w) (Share.JobID s)); [|reflexivity].
  cbn [negb].
  change (fraudGate extractSubnet clk (withJob w (Share.JobID s) (retarget j data target)) s)
    with (fraudGate extractSubnet clk w s).
  destruct (fraudGate extractSubnet clk w s) as [verdict insp].
  destruct (Security.Flagged verdict); [reflexivity|].
  apply afterGates_answer. reflexivity.
Qed.

End Blindness.

(** * The claims on the concrete scenarios *)

Section Examples.
Import Core Scenario.

Local Abbreviation P := processV4.

(** Closed goals are decided by evaluation, one conjunct at a time. *)
Ltac evaluate :=
  unfold passesGates;
  repeat match goal with |- _ /\ _ => split end;
  vm_compute; reflexivity.

(** C1.  [ProcessShare] has no gate that recomputes the hash: [share1]
    passes the shape, job and fraud gates and is answered ACCEPTED although
    the digest of [job.data || nonce] is not below the target of its job.
    The other path, [ShareProcessor.Process] as the handler calls it, hashes
    the job id instead of the job data and compares with the constant "0000":
    it answers "invalid hash" for the same share even for a job whose target
    the digest of [job.data || nonce] does meet. *)
Theorem C1_accepts_share_above_target :
  activeJobs (Pool.Engine (pool world1)) !! Share.JobID share1 = Some job1
  /\ hashJob (Job.Data job1) (Share.Nonce share1)
     = "01b9cad010c0bdf4775b87d3fc2c2322629cf710ea324c539b16958f7010e442"%string
  /\ Spec.meets_target job1 share1 = false
  /\ fst (P (instant (t0 + Second)) world1 share1)
     = (result ShareAccepted "share accepted" None true, None)
  /\ Spec.meets_target job1Easy share1 = true
  /\ fst (Process (t0 + Second) (t0 + Second) (t0 + Second)
            (newInternalStore (45 * Second)) share1 "0000" (30 * Second))
     = {| ShareResult.Status := ShareInvalid; ShareResult.Description := "invalid hash";
          ShareResult.Error := Some "rejected: invalid hash"%string;
          ShareResult.Valid := false |}.
Proof. evaluate. Qed.

(** C2 fails as stated: a share whose id is in the store is answered
    "basic validation failed" when its nonce is missing; the same share
    processed again one second after it was accepted is answered INVALID by
    the fraud gate (nonce reuse), before the duplicate check is reached; and
    [DefaultShareValidator.ValidateShare] answers a duplicate with
    valid=false. *)
Lemma C2_counterexample :
  fst (snd (Exists (t0 + 17 * Second) store2 (Share.ID share1NoNonce))) = true
  /\ fst (P (instant (t0 + 17 * Second)) world2 share1NoNonce)
     = (result ShareInvalid "basic validation failed"
               (Some "missing required fields"%string) false,
        Some "missing required fields"%string)
  /\ fst (P (instant (t0 + Second)) world1 share1)
     = (result ShareAccepted "share accepted" None true, None)
  /\ fst (P (instant (t0 + 2 * Second)) world2 share1)
     = (result ShareInvalid "blocked by antifraud: nonce reuse by miner within window"
               (Some "antifraud rejection"%string) false, None)
  /\ fst (ValidateShare (t0 + 17 * Second) (t0 + 17 * Second) store2 share1
            "ffff" (30 * Second))
     = {| ShareResult.Status := ShareDuplicate;
          ShareResult.Description := "duplicate share";
          ShareResult.Error := None; ShareResult.Valid := false |}.
Proof. evaluate. Qed.

(** The amended statement at work, over the observed in-memory store:
    [share1] accepted at [t0 + 1s] and presented again sixteen seconds later;
    one save in all. *)
Lemma C2_witness :
  fst (ProcessShare Net.extractSubnetV4 (instant (t0 + Second)) worldCounted share1)
  = (result ShareAccepted "share accepted" None true, None)
  /\ fst (ProcessShare Net.extractSubnetV4 (instant (t0 + 17 * Second))
            worldCounted2 share1)
     = (result ShareAccepted "duplicate share ignored" None true, None)
  /\ Counted.saves <$> Pool.ShareStore (pool worldCounted3) = Some 1%nat
  /\ Metrics.SharesValid (metrics worldCounted3) = 1%nat.
Proof.
  pose (st0 := {| Counted.inner := newInternalStore (45 * Second);
                  Counted.saves := 0%nat |}).
  pose (st1 := fst (Exists (t0 + Second) st0 "s1")).
  pose (st2 := fst (Save (t0 + Second) st1 share1)).
  pose (st3 := fst (Exists (t0 + 17 * Second) st2 "s1")).
  assert (Hst : Pool.ShareStore (pool worldCounted) = Some st0) by reflexivity.
  assert (Hg : passesGates Net.extractSubnetV4 (instant (t0 + Second)) worldCounted share1)
    by evaluate.
  destruct (proj2 (C2_duplicate_is_accepted_without_save Net.extractSubnetV4
                     (instant (t0 + Second)) worldCounted share1 st0 Hst Hg)
              st1 false None st2)
    as [E1 E2];
    [vm_compute; reflexivity | left; reflexivity | vm_compute; reflexivity |].
  split; [rewrite E1; reflexivity|].
  assert (Hg2 : passesGates Net.extractSubnetV4 (instant (t0 + 17 * Second))
                  worldCounted2 share1) by evaluate.
  assert (He2 : Exists (at_exists (instant (t0 + 17 * Second))) st2 (Share.ID share1)
                = (st3, (true, None))) by (vm_compute; reflexivity).
  destruct (E2 (instant (t0 + 17 * Second)) st3 Hg2 He2) as (A & B & C & D).
  split; [exact A|]. split; [|exact D].
  unfold worldCounted3, worldCounted2. rewrite B. cbn [fmap option_fmap option_map].
  rewrite (C Counted.saves Counted_countsSaves). reflexivity.
Defined.

(** C3 fails as stated: the second submission of a nonce by the same miner
    within the window gets a verdict of level WARN, and [ProcessShare]
    rejects it with INVALID "blocked by antifraud". *)
Lemma C3_counterexample :
  Security.Level (fst (fraudGate Net.extractSubnetV4 (instant (t0 + 2 * Second))
                         world2 share1)) = Security.Warn
  /\ fst (P (instant (t0 + 2 * Second)) world2 share1)
     = (result ShareInvalid "blocked by antifraud: nonce reuse by miner within window"
               (Some "antifraud rejection"%string) false, None).
Proof. evaluate. Qed.

(** The amended statement at work on the same submission. *)
Lemma C3_witness :
  P (instant (t0 + 2 * Second)) world2 share1
  = ((result ShareInvalid
             (String.append "blocked by antifraud: "
                (Security.Reason
                   (fst (fraudGate Net.extractSubnetV4 (instant (t0 + 2 * Second))
                           world2 share1))))
             (Some "antifraud rejection"%string) false, None),
     invalidated
       (inspected world2
          (snd (fraudGate Net.extractSubnetV4 (instant (t0 + 2 * Second)) world2 share1)))).
Proof.
  assert (Hv : validateShareBasic (at_basic (instant (t0 + 2 * Second))) share1 = None)
    by (vm_compute; reflexivity).
  assert (Hj : isJobActive (at_job (instant (t0 + 2 * Second))) (pool world2)
                 (Share.JobID share1) = true)
    by (vm_compute; reflexivity).
  apply (proj1 (proj2 (C3_flagged_verdict_rejects Net.extractSubnetV4
                         (instant (t0 + 2 * Second)) world2 share1 Hv Hj))).
  left. vm_compute. reflexivity.
Defined.

(** C4 fails as stated: a share that meets every condition of the
    specification but has no client hash is answered "basic validation
    failed"; a share whose nonce is not hexadecimal and whose difficulty is
    zero is accepted; a share stamped ten minutes ahead passes the shape
    check. *)
Lemma C4_counterexample :
  (Spec.shape_ok (t0 + Second) share1NoHash = true
   /\ ShareResult.Description (fst (fst (P (instant (t0 + Second)) world1 share1NoHash)))
      = "basic validation failed"%string)
  /\ (Spec.shape_ok (t0 + Second) shareOdd = false
      /\ fst (P (instant (t0 + Second)) world1 shareOdd)
         = (result ShareAccepted "share accepted" None true, None))
  /\ (Spec.shape_ok (t0 + Second) shareAhead = false
      /\ validateShareBasic (t0 + Second) shareAhead = None).
Proof. evaluate. Qed.

(** C5 fails as stated: a share naming a job whose [expires_at] has passed,
    but which is younger than the engine's time to live, is accepted; and a
    share naming an unknown job is answered by the shape check when it fails
    it. *)
Lemma C5_counterexample :
  (activeJobs (Pool.Engine (pool worldShort)) !! Share.JobID shareLate = Some jobShort
   /\ Job.ExpiresAt jobShort < t0 + 20 * Second
   /\ fst (P (instant (t0 + 20 * Second)) worldShort shareLate)
      = (result ShareAccepted "share accepted" None true, None))
  /\ (activeJobs (Pool.Engine (pool worldShort)) !! Share.JobID shareUnknownJob = None
      /\ ShareResult.Description
           (fst (fst (P (instant (t0 + Second)) worldShort shareUnknownJob)))
         = "basic validation failed"%string).
Proof. evaluate. Qed.

(** The amended statement at work: [share1] thirty-one seconds after its
    job was created. *)
Lemma C5_witness :
  P (instant (t0 + 31 * Second)) world1 share1
  = ((result ShareInvalid "job not active or expired"
             (Some "job not active or expired"%string) false, None),
     invalidated world1).
Proof.
  assert (Httl : ttlJob (Pool.Engine (pool world1)) < maxDuration)
    by (vm_compute; reflexivity).
  assert (Hj : activeJobs (Pool.Engine (pool world1)) !! Share.JobID share1 = Some job1)
    by (vm_compute; reflexivity).
  assert (Hold : Job.CreatedAt job1 + ttlJob (Pool.Engine (pool world1))
                 < at_job (instant (t0 + 31 * Second)))
    by (vm_compute; reflexivity).
  assert (Hv : validateShareBasic (at_basic (instant (t0 + 31 * Second))) share1 = None)
    by (vm_compute; reflexivity).
  exact (proj2 (proj2 (C5_stale_job_is_rejected Net.extractSubnetV4
                         (instant (t0 + 31 * Second)) world1 share1 Httl
                         (or_intror (or_introl (ex_intro _ job1 (conj Hj Hold))))))
               Hv).
Defined.

(** C6 fails as stated: the evaluation of a share stamped three minutes ago
    logs nothing; and the tenth use of one nonce within the window, by ten miners
    on ten subnets, gets the subnet-rate verdict although the window of its
    subnet holds one entry and nothing is greylisted. *)
Lemma C6_counterexample :
  Security.Subnets
    (snd (Security.EvaluateShare Net.extractSubnetV4 (t0 + Second) (t0 + Second)
            (t0 + Second) None "w1" "10.0.0.1" "00000000" "ab"
            (t0 + Second - 3 * Minute)))
    !! "10.0.0.0"%string = None
  /\ fst (Security.EvaluateShare Net.extractSubnetV4 (t0 + 2 * Second) (t0 + 2 * Second)
            (t0 + 2 * Second) afterNine "m10" "10.0.10.1" "cafe0001" ""
            (t0 + 2 * Second))
     = {| Security.Flagged := true;
          Security.Reason := "rate limit subnet/24 exceeded (greylisted)";
          Security.Level := Security.Block |}
  /\ Security.windowAfter (t0 + 2 * Second) (Security.current afterNine) "10.0.10.0"
     = [t0 + 2 * Second]
  /\ Security.Greylist
       (snd (Security.EvaluateShare Net.extractSubnetV4 (t0 + 2 * Second)
               (t0 + 2 * Second) (t0 + 2 * Second) afterNine "m10" "10.0.10.1"
               "cafe0001" "" (t0 + 2 * Second)))
       !! "10.0.10.0"%string = None.
Proof. evaluate. Qed.

(** The amended statement at work: the twenty-first submission of the
    subnet 10.0.0.0/24 within the window. *)
Lemma C6_witness :
  fst (Security.EvaluateShare Net.extractSubnetV4 (t0 + 2 * Second) (t0 + 2 * Second)
         (t0 + 2 * Second) afterTwenty "n99" "10.0.0.99" "beef0099" "" (t0 + 2 * Second))
  = {| Security.Flagged := true;
       Security.Reason := "rate limit subnet/24 exceeded (greylisted)";
       Security.Level := Security.Block |}
  /\ Security.Greylist
       (snd (Security.EvaluateShare Net.extractSubnetV4 (t0 + 2 * Second)
               (t0 + 2 * Second) (t0 + 2 * Second) afterTwenty "n99" "10.0.0.99"
               "beef0099" "" (t0 + 2 * Second)))
     = <[Net.extractSubnetV4 (Net.extractSubnetV4 "10.0.0.99") := t0 + 2 * Second]>
         (Security.Greylist (Security.current afterTwenty)).
Proof.
  assert (Hs : Security.clockSkewed (t0 + 2 * Second) (t0 + 2 * Second) = false)
    by (vm_compute; reflexivity).
  apply (proj2 (C6_subnet_rate_rule Net.extractSubnetV4 (t0 + 2 * Second)
                  (t0 + 2 * Second) (t0 + 2 * Second) afterTwenty "n99" "10.0.0.99"
                  "beef0099" "" (t0 + 2 * Second)) Hs).
  vm_compute. lia.
Defined.

(** C8 fails as stated: fifteen minutes and ten sweeps after the only
    submission, the subnet window, the token window and the nonce window it
    wrote are all still there, far older than the retention bound. *)
Lemma C8_counterexample :
  Security.Subnets (Security.cleanGreylist silentTicks inspector2) !! "10.0.0.0"%string
  = Some [t0 + Second]
  /\ Security.Tokens (Security.cleanGreylist silentTicks inspector2) !! "00000000"%string
     = Some [t0 + Second]
  /\ Security.NonceMap (Security.cleanGreylist silentTicks inspector2) !! "w1"%string
     = Some {["00000000"%string := t0 + Second]}
  /\ Spec.retention < (t0 + 901 * Second) - (t0 + Second)
  /\ ~ Spec.windows_bounded (t0 + 901 * Second)
         (Security.cleanGreylist silentTicks inspector2).
Proof.
  assert (E : Security.Subnets (Security.cleanGreylist silentTicks inspector2)
              !! "10.0.0.0"%string = Some [t0 + Second])
    by (vm_compute; reflexivity).
  assert (Hr : Spec.retention < (t0 + 901 * Second) - (t0 + Second))
    by (vm_compute; reflexivity).
  split; [exact E|]. split; [vm_compute; reflexivity|].
  split; [vm_compute; reflexivity|]. split; [exact Hr|].
  intros (Hb & _ & _).
  specialize (Hb "10.0.0.0"%string [t0 + Second] (t0 + Second) E (or_introl eq_refl)).
  lia.
Qed.

(** The theorem at work: [share1] accepted at [t0 + 1s] and again sixteen
    seconds later by a pool without a store. *)
Lemma C9_witness :
  fst (P (instant (t0 + Second)) worldNil share1)
  = (result ShareAccepted "share accepted" None true, None)
  /\ fst (P (instant (t0 + 17 * Second)) worldNil2 share1)
     = (result ShareAccepted "share accepted" None true, None)
  /\ Metrics.SharesValid (metrics (snd (P (instant (t0 + 17 * Second)) worldNil2 share1)))
     = 2%nat.
Proof.
  assert (Hg : passesGates Net.extractSubnetV4 (instant (t0 + Second)) worldNil share1)
    by evaluate.
  destruct (C9_nil_store_accepts_twice Net.extractSubnetV4 (instant (t0 + Second))
              worldNil share1 eq_refl Hg) as (E1 & _ & E2).
  split; [unfold processV4; rewrite E1; reflexivity|].
  apply (E2 (instant (t0 + 17 * Second))).
  evaluate.
Defined.

End Examples.

(** * Further properties of the sources *)

(** ** The authenticator *)

Section Authenticator.
Import Security.

Lemma splitAtSpace_sound (s a b : string) :
  splitAtSpace s = Some (a, b) -> s = String.append a (String " " b).
Proof.
  revert a. induction s as [|c rest IH]; intros a Hs; [discriminate|].
  cbn in Hs. destruct (Ascii.eqb_spec c " "%char) as [->|Hc].
  - injection Hs as <- <-. reflexivity.
  - destruct (splitAtSpace rest) as [[a' b']|]; [|discriminate].
    injection Hs as <- <-.
    change (String c rest = String c (String.append a' (String " " b'))).
    f_equal. apply IH. reflexivity.
Qed.

Lemma extractToken_Bearer (token : string) :
  extractToken (String.append "Bearer " token) = token.
Proof. reflexivity. Qed.

Lemma extractToken_sound (h : string) :
  extractToken h <> ""%string -> h = String.append "Bearer " (extractToken h).
Proof.
  unfold extractToken. destruct (String.eqb h ""); [congruence|].
  destruct (splitAtSpace h) as [[scheme token]|] eqn:Hs; [|congruence].
  destruct (String.eqb_spec scheme "Bearer") as [->|Hne]; [|congruence].
  intros _. apply splitAtSpace_sound in Hs. exact Hs.
Qed.

(** X1.  The middleware hands a request to the next handler exactly when the
    API key is not empty and the [Authorization] header is the word Bearer,
    one space and the key, byte for byte; it answers 401 exactly when the
    header does not have the form "Bearer <non-empty token>" (absent header,
    other scheme, no space, empty token), and 403 for every other token.  With
    an empty key nobody is served. *)
Theorem X1_middleware_admits_exactly_the_key (apiKey authHeader : string) :
  (Middleware apiKey authHeader = Served
   <-> apiKey <> ""%string /\ authHeader = String.append "Bearer " apiKey)
  /\ (Middleware apiKey authHeader = Unauthorized
      <-> ~ exists token, token <> ""%string
                          /\ authHeader = String.append "Bearer " token)
  /\ (Middleware apiKey authHeader = Forbidden
      <-> exists token, token <> ""%string /\ token <> apiKey
                        /\ authHeader = String.append "Bearer " token).
Proof.
  unfold Middleware.
  destruct (String.eqb_spec (extractToken authHeader) "") as [He|He].
  - assert (Hno : ~ exists token, token <> ""%string
                                  /\ authHeader = String.append "Bearer " token).
    { intros (token & Hne & ->). rewrite extractToken_Bearer in He. contradiction. }
    split; [|split].
    + split; [discriminate|]. intros [Hk ->].
      rewrite extractToken_Bearer in He. contradiction.
    + split; [intros _; exact Hno|reflexivity].
    + split; [discriminate|]. intros (token & Hne & _ & Hh). exfalso. apply Hno. eauto.
  - pose proof (extractToken_sound authHeader He) as Hh.
    destruct (String.eqb_spec (extractToken authHeader) apiKey) as [Hk|Hk]; cbn [negb].
    + split; [|split].
      * split; [|reflexivity]. intros _. split; congruence.
      * split; [discriminate|]. intros Hno. exfalso. apply Hno. eauto.
      * split; [discriminate|]. intros (token & Hne & Hne' & Heq).
        rewrite Heq, extractToken_Bearer in Hk. contradiction.
    + split; [|split].
      * split; [discriminate|]. intros [_ Heq].
        rewrite Heq, extractToken_Bearer in Hk. contradiction.
      * split; [discriminate|]. intros Hno. exfalso. apply Hno. eauto.
      * split; [|reflexivity]. intros _. exists (extractToken authHeader). auto.
Qed.

End Authenticator.

(** ** The inspector: nonce reuse, hash reuse and the greylist *)

Section NonceReuse.
Import Security.

Lemma windowSpan_in_range : minDuration <= _windowSpan < maxDuration.
Proof. unfold minDuration, maxDuration, _windowSpan, Second. lia. Qed.

(** The nonces [checkNonceReuse] keeps for a miner before it records the
    new one: those recorded at most fifteen seconds ago. *)
Lemma kept_nonce_iff (m : gmap string Z) (now : Z) (n : string) (t : Z) :
  filter (fun kv : string * Z => ¬ (_windowSpan < Sub now kv.2)) m !! n = Some t
  <-> m !! n = Some t /\ now - t <= 15 * Second.
Proof.
  rewrite map_lookup_filter_Some. cbn [snd].
  pose proof (Sub_gt_iff now t _windowSpan windowSpan_in_range) as Hs.
  change (15 * Second) with _windowSpan. split; intros [Hl Hk]; (split; [exact Hl|lia]).
Qed.

Lemma checkNonceReuse_seen (st : state) (minerID nonce : string) (now : Z) :
  (exists t, default ∅ (NonceMap st !! minerID) !! nonce = Some t /\ now - t <= 15 * Second)
  -> fst (checkNonceReuse st minerID nonce now)
     = (Warn, "nonce reuse by miner within window"%string).
Proof.
  intros (t & Ht & Hr). unfold checkNonceReuse.
  rewrite bool_decide_eq_true_2; [reflexivity|].
  exists t. apply kept_nonce_iff. split; assumption.
Qed.

Lemma checkNonceReuse_unseen (st : state) (minerID nonce : string) (now : Z) :
  ~ (exists t, default ∅ (NonceMap st !! minerID) !! nonce = Some t
               /\ now - t <= 15 * Second)
  -> fst (checkNonceReuse st minerID nonce now) = (NoThreat, ""%string).
Proof.
  intros Hno. unfold checkNonceReuse.
  rewrite bool_decide_eq_false_2; [reflexivity|].
  intros [t Ht]. apply kept_nonce_iff in Ht. apply Hno. exists t. exact Ht.
Qed.

Lemma checkNonceReuse_NonceMap (st : state) (minerID nonce : string) (now : Z) :
  NonceMap (snd (checkNonceReuse st minerID nonce now))
  = <[minerID :=
        <[nonce := now]>
          (filter (fun kv : string * Z => ¬ (_windowSpan < Sub now kv.2))
                  (default ∅ (NonceMap st !! minerID)))]> (NonceMap st).
Proof. unfold checkNonceReuse. destruct (negb _); reflexivity. Qed.

(** X2.  [checkNonceReuse] answers WARN "nonce reuse by miner within window"
    exactly when the same miner had the same nonce recorded at most fifteen
    seconds before, and NONE otherwise (it never answers BLOCK).  Either way
    it records the nonce for that miner with the current time and leaves the
    records of every other miner as they were.  Hence a second check of the
    same nonce by the same miner is a WARN when it comes at most fifteen
    seconds after the first and is clean again when it comes later. *)
Theorem X2_nonce_reuse_is_per_miner_and_windowed (st : state)
    (minerID nonce : string) (now : Z) :
  (fst (checkNonceReuse st minerID nonce now)
   = (Warn, "nonce reuse by miner within window"%string)
   <-> exists m t, NonceMap st !! minerID = Some m /\ m !! nonce = Some t
                   /\ now - t <= 15 * Second)
  /\ (fst (checkNonceReuse st minerID nonce now) = (NoThreat, ""%string)
      <-> ~ exists m t, NonceMap st !! minerID = Some m /\ m !! nonce = Some t
                        /\ now - t <= 15 * Second)
  /\ (exists m', NonceMap (snd (checkNonceReuse st minerID nonce now)) !! minerID = Some m'
                 /\ m' !! nonce = Some now)
  /\ (forall other, other <> minerID ->
        NonceMap (snd (checkNonceReuse st minerID nonce now)) !! other
        = NonceMap st !! other)
  /\ (forall now2,
        fst (fst (checkNonceReuse (snd (checkNonceReuse st minerID nonce now))
                    minerID nonce now2))
        = if now2 - now <=? 15 * Second then Warn else NoThreat).
Proof.
  assert (Hsame : (exists m t, NonceMap st !! minerID = Some m /\ m !! nonce = Some t
                               /\ now - t <= 15 * Second)
                  <-> (exists t, default ∅ (NonceMap st !! minerID) !! nonce = Some t
                                 /\ now - t <= 15 * Second)).
  { destruct (NonceMap st !! minerID) as [m|]; cbn [default from_option id].
    - split; [intros (m' & t & [= <-] & Ht & Hr); eauto|intros (t & Ht & Hr); eauto].
    - split; [intros (m' & t & [=] & _)|intros (t & Ht & _)].
      rewrite lookup_empty in Ht. discriminate. }
  assert (Hdec : (exists t, default ∅ (NonceMap st !! minerID) !! nonce = Some t
                            /\ now - t <= 15 * Second)
                 \/ ~ (exists t, default ∅ (NonceMap st !! minerID) !! nonce = Some t
                                 /\ now - t <= 15 * Second)).
  { destruct (default ∅ (NonceMap st !! minerID) !! nonce) as [t|].
    - destruct (Z_le_gt_dec (now - t) (15 * Second)) as [Hle|Hgt].
      + left. eauto.
      + right. intros (t' & [= <-] & Hr). lia.
    - right. intros (t' & [=] & _). }
  split; [|split; [|split; [|split]]].
  - rewrite Hsame. split; [|apply checkNonceReuse_seen].
    intros Hw. destruct Hdec as [Hy|Hn]; [exact Hy|].
    rewrite (checkNonceReuse_unseen _ _ _ _ Hn) in Hw. discriminate.
  - rewrite Hsame. split; [|apply checkNonceReuse_unseen].
    intros Hw Hy. rewrite (checkNonceReuse_seen _ _ _ _ Hy) in Hw. discriminate.
  - rewrite checkNonceReuse_NonceMap, lookup_insert_eq.
    eexists. split; [reflexivity|]. apply lookup_insert_eq.
  - intros other Hne. rewrite checkNonceReuse_NonceMap, lookup_insert_ne by congruence.
    reflexivity.
  - intros now2.
    set (st1 := snd (checkNonceReuse st minerID nonce now)).
    assert (Hrec : default ∅ (NonceMap st1 !! minerID) !! nonce = Some now).
    { unfold st1. rewrite checkNonceReuse_NonceMap, lookup_insert_eq. cbn [default from_option id].
      apply lookup_insert_eq. }
    destruct (Z.leb_spec (now2 - now) (15 * Second)) as [Hle|Hgt].
    + rewrite checkNonceReuse_seen; [reflexivity|]. exists now. split; assumption.
    + rewrite checkNonceReuse_unseen; [reflexivity|].
      intros (t & Ht & Hr). rewrite Hrec in Ht. injection Ht as <-. lia.
Qed.

(** X3.  After a check, the record of the checked miner holds nothing older
    than fifteen seconds: the nonce just recorded, and of the others exactly
    those that were recorded at most fifteen seconds before, each with its
    old time. *)
Theorem X3_nonce_record_is_pruned_on_access (st : state) (minerID nonce : string)
    (now : Z) (n : string) (t : Z) :
  default ∅ (NonceMap (snd (checkNonceReuse st minerID nonce now)) !! minerID) !! n
  = Some t
  <-> (n = nonce /\ t = now)
      \/ (n <> nonce
          /\ default ∅ (NonceMap st !! minerID) !! n = Some t
          /\ now - t <= 15 * Second).
Proof.
  rewrite checkNonceReuse_NonceMap, lookup_insert_eq. cbn [default from_option id].
  destruct (decide (n = nonce)) as [->|Hne].
  - rewrite lookup_insert_eq. split.
    + intros [= <-]. left. split; reflexivity.
    + intros [[_ ->]|[Hx _]]; [reflexivity|contradiction].
  - rewrite lookup_insert_ne by congruence. rewrite kept_nonce_iff. split.
    + intros [Hl Hr]. right. repeat split; assumption.
    + intros [[Hx _]|(_ & Hl & Hr)]; [contradiction|split; assumption].
Qed.

End NonceReuse.

Section HashReuse.
Import Security.

Lemma pruneOld_all (ts : list Z) (now : Z) :
  (forall t, In t ts -> now - t <= 15 * Second) -> pruneOld ts now = ts.
Proof.
  intros Hall. unfold pruneOld. apply forallb_filter_id. apply forallb_forall.
  intros t Ht. apply Z.leb_le. apply Sub_le_iff; [exact windowSpan_in_range|].
  exact (Hall t Ht).
Qed.

Lemma markToken_Tokens (st : state) (token : string) (now : Z) :
  token <> ""%string ->
  Tokens (snd (markToken st token now))
  = <[token := tokensAfter now st token]> (Tokens st)
  /\ fst (markToken st token now) = tokenLevel (length (tokensAfter now st token)).
Proof.
  intros Hne. unfold markToken, tokenLevel, tokensAfter.
  destruct (String.eqb_spec token "") as [->|_]; [contradiction|].
  repeat match goal with |- context [if ?b then _ else _] => destruct b end;
    split; reflexivity.
Qed.

Lemma markTokenAt_entries (token : string) (ts : list Z) (st : state) (stored : list Z) :
  token <> ""%string ->
  default [] (Tokens st !! token) = stored ->
  (forall t u, In t (stored ++ ts) -> In u ts -> u - t <= 15 * Second) ->
  default [] (Tokens (markTokenAt token st ts) !! token) = stored ++ ts.
Proof.
  intros Hne. revert st stored. induction ts as [|u rest IH]; intros st stored Hst Hall.
  - cbn. rewrite app_nil_r. exact Hst.
  - change (markTokenAt token st (u :: rest))
      with (markTokenAt token (snd (markToken st token u)) rest).
    rewrite (IH _ (stored ++ [u])).
    + rewrite <- app_assoc. reflexivity.
    + destruct (markToken_Tokens st token u Hne) as [-> _].
      rewrite lookup_insert_eq. cbn [default from_option id]. unfold tokensAfter.
      rewrite Hst, pruneOld_all; [reflexivity|].
      intros t Ht. apply (Hall t u); [apply in_or_app; left; exact Ht|left; reflexivity].
    + intros t v Ht Hv. apply (Hall t v); [|right; exact Hv].
      rewrite <- app_assoc in Ht. exact Ht.
Qed.

(** X4.  [markToken] counts the sightings of a hash within the window.  When
    a non-empty hash that the inspector did not know has been marked at the
    readings [ts], and [ts] and [now] all lie within fifteen seconds of one
    another, the mark at [now] is sighting number [length ts + 1] and is
    answered NONE for the first two sightings, WARN "hash reuse approaching
    threshold" for the third to the ninth, and BLOCK "hash reuse over hard
    threshold" from the tenth on.  An empty hash is never counted. *)
Theorem X4_hash_sightings_are_counted_in_the_window (st : state) (token : string)
    (ts : list Z) (now : Z) :
  token <> ""%string ->
  Tokens st !! token = None ->
  (forall t u, In t (ts ++ [now]) -> In u (ts ++ [now]) -> u - t <= 15 * Second) ->
  fst (markToken (markTokenAt token st ts) token now) = tokenLevel (S (length ts))
  /\ Tokens (snd (markToken (markTokenAt token st ts) token now)) !! token
     = Some (ts ++ [now])
  /\ markToken st "" now = ((NoThreat, ""%string), st).
Proof.
  intros Hne Hnew Hall.
  assert (Hent : default [] (Tokens (markTokenAt token st ts) !! token) = ts).
  { apply (markTokenAt_entries token ts st [] Hne).
    - rewrite Hnew. reflexivity.
    - cbn [app]. intros t u Ht Hu.
      apply Hall; apply in_or_app; left; assumption. }
  destruct (markToken_Tokens (markTokenAt token st ts) token now Hne) as [HT HL].
  assert (Hafter : tokensAfter now (markTokenAt token st ts) token = ts ++ [now]).
  { unfold tokensAfter. rewrite Hent, pruneOld_all; [reflexivity|].
    intros t Ht. apply Hall; apply in_or_app; [left; exact Ht|right; left; reflexivity]. }
  rewrite HL, HT, Hafter, lookup_insert_eq.
  split; [|split; reflexivity].
  rewrite length_app. cbn [length]. rewrite Nat.add_1_r. reflexivity.
Qed.

Lemma X4_witness :
  fst (markToken (markTokenAt "ab" LaunchInspector Scenario.nineSightings) "ab"
         (Scenario.t0 + 5 * Second))
  = (Block, "hash reuse over hard threshold"%string).
Proof.
  assert (Hne : "ab"%string <> ""%string) by discriminate.
  assert (Hall : forall t u,
             In t (Scenario.nineSightings ++ [Scenario.t0 + 5 * Second]) ->
             In u (Scenario.nineSightings ++ [Scenario.t0 + 5 * Second]) ->
             u - t <= 15 * Second).
  { intros t u Ht Hu. vm_compute in Ht, Hu.
    repeat (destruct Ht as [<-|Ht]);
      try contradiction; repeat (destruct Hu as [<-|Hu]); try contradiction;
      vm_compute; discriminate. }
  exact (proj1 (X4_hash_sightings_are_counted_in_the_window LaunchInspector "ab"
                  Scenario.nineSightings (Scenario.t0 + 5 * Second) Hne eq_refl Hall)).
Defined.

End HashReuse.

Section Greylisting.
Import Security.

Variable extractSubnet : string -> string.

Lemma Check_iff (now : Z) (st : state) (subnet : string) :
  Check now st subnet = true
  <-> exists added, Greylist st !! subnet = Some added /\ now - added <= 3 * Minute.
Proof.
  unfold Check, Since. destruct (Greylist st !! subnet) as [added|].
  - rewrite Z.leb_le, (Sub_le_iff now added _ greylistTimeout_in_range).
    change _greylistTimeout with (3 * Minute). split.
    + intros Hle. exists added. split; [reflexivity|exact Hle].
    + intros (a & [= <-] & Hle). exact Hle.
  - split; [discriminate|]. intros (a & [=] & _).
Qed.

(** Unless it answers [Block], [LogRequest] leaves the greylist alone. *)
Lemma LogRequest_quiet (now : Z) (st : state) (ip token : string) :
  fst (LogRequest extractSubnet now st ip token) <> Block ->
  Greylist (snd (LogRequest extractSubnet now st ip token)) = Greylist st.
Proof.
  intros Hnb. rewrite LogRequest_Greylist.
  destruct (Nat.ltb_spec _maxRequestsPerSubnet
              (length (windowAfter now st (extractSubnet ip)))) as [Hlt|_];
    [|reflexivity].
  exfalso. apply Hnb. apply LogRequest_Block_iff. left. exact Hlt.
Qed.

Lemma nonce_seen_forms (st : state) (minerID nonce : string) (now : Z) :
  (exists m t, NonceMap st !! minerID = Some m /\ m !! nonce = Some t
               /\ now - t <= 15 * Second)
  <-> (exists t, default ∅ (NonceMap st !! minerID) !! nonce = Some t
                 /\ now - t <= 15 * Second).
Proof.
  destruct (NonceMap st !! minerID) as [m|]; cbn [default from_option id].
  - split; [intros (m' & t & [= <-] & Ht & Hr); eauto|intros (t & Ht & Hr); eauto].
  - split; [intros (m' & t & [=] & _)|intros (t & Ht & _)].
    rewrite lookup_empty in Ht. discriminate.
Qed.

Lemma nonce_seen_dec (st : state) (minerID nonce : string) (now : Z) :
  (exists t, default ∅ (NonceMap st !! minerID) !! nonce = Some t
             /\ now - t <= 15 * Second)
  \/ ~ (exists t, default ∅ (NonceMap st !! minerID) !! nonce = Some t
                  /\ now - t <= 15 * Second).
Proof.
  destruct (default ∅ (NonceMap st !! minerID) !! nonce) as [t|].
  - destruct (Z_le_gt_dec (now - t) (15 * Second)) as [Hle|Hgt].
    + left. eauto.
    + right. intros (t' & [= <-] & Hr). lia.
  - right. intros (t' & [=] & _).
Qed.

(** The greylist an evaluation leaves. *)
Lemma EvaluateShare_Greylist (now nowLog nowChk : Z) (g : option state)
    (minerID ip nonce hash : string) (ts : Z) :
  Greylist (snd (EvaluateShare extractSubnet now nowLog nowChk g minerID ip nonce hash ts))
  = if clockSkewed now ts then Greylist (current g)
    else if (_maxRequestsPerSubnet
             <? length (windowAfter nowLog (current g)
                          (extractSubnet (extractSubnet ip))))%nat
    then <[extractSubnet (extractSubnet ip) := nowLog]> (Greylist (current g))
    else Greylist (current g).
Proof.
  destruct (clockSkewed now ts) eqn:Hs.
  - rewrite EvaluateShare_skewed by exact Hs. reflexivity.
  - destruct (EvaluateShare_frame extractSubnet now nowLog nowChk g minerID ip nonce
                hash ts Hs) as [_ ->].
    apply LogRequest_Greylist.
Qed.

(** X6.  An evaluation never lifts a greylisting.  The greylist after
    [EvaluateShare] is the one before it, or the one before it with the
    subnet key of the request entered at the reading of [LogRequest]; so
    every subnet greylisted before is greylisted after, and an entry that is
    new or has a new time comes with the BLOCK verdict "rate limit subnet/24
    exceeded (greylisted)".  Entries leave the greylist through the sweeper
    only. *)
Theorem X6_evaluation_never_lifts_a_greylisting (now nowLog nowChk : Z)
    (g : option state) (minerID ip nonce hash : string) (ts : Z) :
  (Greylist (snd (EvaluateShare extractSubnet now nowLog nowChk g
                    minerID ip nonce hash ts)) = Greylist (current g)
   \/ Greylist (snd (EvaluateShare extractSubnet now nowLog nowChk g
                       minerID ip nonce hash ts))
      = <[extractSubnet (extractSubnet ip) := nowLog]> (Greylist (current g)))
  /\ (forall k, is_Some (Greylist (current g) !! k) ->
        is_Some (Greylist (snd (EvaluateShare extractSubnet now nowLog nowChk g
                                  minerID ip nonce hash ts)) !! k))
  /\ (forall k added,
        Greylist (snd (EvaluateShare extractSubnet now nowLog nowChk g
                         minerID ip nonce hash ts)) !! k = Some added ->
        Greylist (current g) !! k = Some added
        \/ (k = extractSubnet (extractSubnet ip) /\ added = nowLog
            /\ fst (EvaluateShare extractSubnet now nowLog nowChk g
                      minerID ip nonce hash ts)
               = {| Flagged := true;
                    Reason := "rate limit subnet/24 exceeded (greylisted)";
                    Level := Block |})).
Proof.
  rewrite EvaluateShare_Greylist.
  destruct (clockSkewed now ts) eqn:Hs; [split; [left; reflexivity|split; auto]|].
  destruct (Nat.ltb_spec _maxRequestsPerSubnet
              (length (windowAfter nowLog (current g)
                         (extractSubnet (extractSubnet ip))))) as [Hlt|Hle];
    [|split; [left; reflexivity|split; auto]].
  split; [right; reflexivity|]. split.
  - intros k Hk.
    destruct (decide (k = extractSubnet (extractSubnet ip))) as [->|Hne].
    + rewrite lookup_insert_eq. eauto.
    + rewrite lookup_insert_ne by congruence. exact Hk.
  - intros k added.
    destruct (decide (k = extractSubnet (extractSubnet ip))) as [->|Hne].
    + rewrite lookup_insert_eq. intros [= <-]. right.
      split; [reflexivity|]. split; [reflexivity|].
      apply EvaluateShare_LogRequest_Block; [exact Hs|].
      apply LogRequest_Block_iff. left. exact Hlt.
    + rewrite lookup_insert_ne by congruence. tauto.
Qed.

(** An evaluation flags every request of a subnet whose greylisting is at
    most three minutes old. *)
Lemma EvaluateShare_greylisted (now nowLog nowChk : Z) (g : option state)
    (minerID ip nonce hash : string) (ts added : Z) :
  Greylist (current g) !! extractSubnet ip = Some added ->
  nowChk - added <= 3 * Minute ->
  Flagged (fst (EvaluateShare extractSubnet now nowLog nowChk g
                  minerID ip nonce hash ts)) = true.
Proof.
  intros Hg Hage. unfold EvaluateShare.
  destruct (clockSkewed now ts); [reflexivity|].
  pose proof (LogRequest_quiet nowLog (current g) (extractSubnet ip) nonce) as Hq.
  destruct (LogRequest extractSubnet nowLog (current g) (extractSubnet ip) nonce)
    as [lvl st1]. cbn [fst snd] in Hq.
  pose proof (checkNonceReuse_frame st1 minerID nonce now) as (G2 & _).
  destruct (checkNonceReuse st1 minerID nonce now) as [[nlvl nreason] st2].
  cbn [snd] in G2.
  pose proof (markToken_frame st2 hash now) as (G3 & _).
  destruct (markToken st2 hash now) as [[hlvl hreason] st3]. cbn [snd] in G3.
  assert (Hc : lvl <> Block -> Check nowChk st3 (extractSubnet ip) = true).
  { intros Hnb. apply Check_iff. exists added. split; [|exact Hage].
    rewrite G3, G2, (Hq Hnb). exact Hg. }
  destruct lvl, nlvl, hlvl; try reflexivity; rewrite Hc by discriminate; reflexivity.
Qed.

(** X7.  [IsFraudulentNonce], the check of the HTTP handler, reports fraud
    in exactly three cases, all of them past the clock-skew guard: the
    window of the miner's key holds more than twenty requests; the nonce has
    been logged ten times or more within the window; or the key is on the
    greylist for at most three minutes and the miner did not use the same
    nonce within the last fifteen seconds.  A miner who repeats a nonce
    within the window gets the WARN of the reuse check, which ends the
    evaluation before the greylist is looked at, and is not reported. *)
Theorem X7_handler_fraud_check (ts now nowLog nowChk : Z) (g : option state)
    (minerID nonce : string) :
  fst (IsFraudulentNonce extractSubnet ts now nowLog nowChk g minerID nonce) = true
  <-> clockSkewed now ts = false
      /\ ((_maxRequestsPerSubnet
           < length (windowAfter nowLog (current g)
                       (extractSubnet (extractSubnet minerID))))%nat
          \/ (_nonceReuseBlock <= length (tokensAfter nowLog (current g) nonce))%nat
          \/ (~ (exists m t, NonceMap (current g) !! minerID = Some m
                             /\ m !! nonce = Some t /\ now - t <= 15 * Second)
              /\ exists added, Greylist (current g) !! extractSubnet minerID = Some added
                               /\ nowChk - added <= 3 * Minute)).
Proof.
  rewrite nonce_seen_forms. unfold IsFraudulentNonce, EvaluateShare.
  destruct (clockSkewed now ts); [cbn; split; [discriminate|intros [[=] _]]|].
  pose proof (LogRequest_Block_iff extractSubnet nowLog (current g)
                (extractSubnet minerID) nonce) as Hb.
  pose proof (LogRequest_quiet nowLog (current g) (extractSubnet minerID) nonce) as Hq.
  pose proof (LogRequest_NonceMap extractSubnet nowLog (current g)
                (extractSubnet minerID) nonce) as Hn.
  destruct (LogRequest extractSubnet nowLog (current g) (extractSubnet minerID) nonce)
    as [lvl st1]. cbn [fst snd] in Hb, Hq, Hn.
  assert (Hcases : lvl = Block \/ lvl <> Block)
    by (destruct lvl; [right|right|left]; congruence).
  destruct Hcases as [->|Hnb].
  { cbn. split; [intros _; split; [reflexivity|]|reflexivity].
    destruct (proj1 Hb eq_refl) as [Hx|Hx]; [left; exact Hx|right; left; exact Hx]. }
  assert (Hno : ~ ((_maxRequestsPerSubnet
                    < length (windowAfter nowLog (current g)
                                (extractSubnet (extractSubnet minerID))))%nat
                   \/ (_nonceReuseBlock
                       <= length (tokensAfter nowLog (current g) nonce))%nat))
    by (intros Hx; apply Hnb, Hb, Hx).
  pose proof (checkNonceReuse_frame st1 minerID nonce now) as (G2 & _).
  pose proof (checkNonceReuse_seen st1 minerID nonce now) as Hseen.
  pose proof (checkNonceReuse_unseen st1 minerID nonce now) as Hunseen.
  rewrite Hn in Hseen, Hunseen.
  destruct (nonce_seen_dec (current g) minerID nonce now) as [Hy|Hnot].
  - specialize (Hseen Hy).
    destruct (checkNonceReuse st1 minerID nonce now) as [[nlvl nreason] st2].
    cbn [fst] in Hseen. injection Hseen as -> ->.
    destruct lvl; [| |contradiction]; cbn [fst Level];
      (split; [discriminate|]; intros [_ Hx]; exfalso;
       destruct Hx as [Hx|[Hx|[Hx _]]];
       [ apply Hno; left; exact Hx
       | apply Hno; right; exact Hx
       | exact (Hx Hy) ]).
  - specialize (Hunseen Hnot).
    destruct (checkNonceReuse st1 minerID nonce now) as [[nlvl nreason] st2].
    cbn [fst snd] in Hunseen, G2. injection Hunseen as -> ->.
    change (markToken st2 "" now) with ((NoThreat, ""%string), st2).
    pose proof (Check_iff nowChk st2 (extractSubnet minerID)) as Hc.
    rewrite G2, (Hq Hnb) in Hc.
    destruct lvl; [| |contradiction];
      (destruct (Check nowChk st2 (extractSubnet minerID)); cbn [fst Level];
       (split;
        [ first
            [ discriminate
            | intros _; split; [reflexivity|];
              right; right; split; [exact Hnot|apply Hc; reflexivity] ]
        | first
            [ reflexivity
            | intros [_ [Hx|[Hx|[_ Hx]]]];
              [ exfalso; apply Hno; left; exact Hx
              | exfalso; apply Hno; right; exact Hx
              | apply Hc in Hx; discriminate ] ] ])).
Qed.

End Greylisting.

Section GreylistGate.
Import Core.

Variable extractSubnet : string -> string.
Context {St : Type} `{ShareStore St}.

(** X5.  A share from a subnet that is on the greylist for at most three
    minutes is never accepted: whatever its other fields are, the verdict of
    the inspector is flagged, [ProcessShare] answers INVALID with
    valid=false, the store of the pool is not touched and the counter of
    valid shares does not move; when the share passes the shape and the job
    gate the answer is the antifraud rejection. *)
Theorem X5_greylisted_subnet_is_rejected (clk : Clock) (w : World St) (s : Share.t)
    (added : Z) :
  Security.Greylist (Security.current (globalInspector w))
    !! extractSubnet (Share.IP s) = Some added ->
  at_check clk - added <= 3 * Minute ->
  Security.Flagged (fst (fraudGate extractSubnet clk w s)) = true
  /\ ShareResult.Valid (fst (fst (ProcessShare extractSubnet clk w s))) = false
  /\ ShareResult.Status (fst (fst (ProcessShare extractSubnet clk w s))) = ShareInvalid
  /\ pool (snd (ProcessShare extractSubnet clk w s)) = pool w
  /\ Metrics.SharesValid (metrics (snd (ProcessShare extractSubnet clk w s)))
     = Metrics.SharesValid (metrics w)
  /\ (validateShareBasic (at_basic clk) s = None ->
      isJobActive (at_job clk) (pool w) (Share.JobID s) = true ->
      fst (ProcessShare extractSubnet clk w s)
      = (result ShareInvalid
           (String.append "blocked by antifraud: "
              (Security.Reason (fst (fraudGate extractSubnet clk w s))))
           (Some "antifraud rejection"%string) false, None)).
Proof.
  intros Hg Hage.
  assert (Hf : Security.Flagged (fst (fraudGate extractSubnet clk w s)) = true)
    by (unfold fraudGate; eapply EvaluateShare_greylisted; eassumption).
  split; [exact Hf|].
  destruct (validateShareBasic (at_basic clk) s) as [e|] eqn:Hv.
  { rewrite (ProcessShare_shape extractSubnet clk w s e Hv). cbn.
    repeat split. discriminate. }
  destruct (isJobActive (at_job clk) (pool w) (Share.JobID s)) eqn:Hj.
  - rewrite (ProcessShare_fraud extractSubnet clk w s Hv Hj Hf). cbn. repeat split.
  - rewrite (ProcessShare_job extractSubnet clk w s Hv Hj). cbn.
    repeat split. discriminate.
Qed.

End GreylistGate.

Section GreylistExample.
Import Core.

Lemma X5_witness :
  fst (Scenario.processV4 (instant (Scenario.t0 + 20 * Second))
         Scenario.worldGreylisted Scenario.share1)
  = (result ShareInvalid "blocked by antifraud: subnet greylisted"
       (Some "antifraud rejection"%string) false, None).
Proof.
  assert (Hg : Security.Greylist (Security.current (globalInspector Scenario.worldGreylisted))
                 !! Net.extractSubnetV4 (Share.IP Scenario.share1)
               = Some (Scenario.t0 + 2 * Second)) by (vm_compute; reflexivity).
  assert (Hage : at_check (instant (Scenario.t0 + 20 * Second))
                 - (Scenario.t0 + 2 * Second) <= 3 * Minute)
    by (vm_compute; discriminate).
  assert (Hv : validateShareBasic (at_basic (instant (Scenario.t0 + 20 * Second)))
                 Scenario.share1 = None) by (vm_compute; reflexivity).
  assert (Hj : isJobActive (at_job (instant (Scenario.t0 + 20 * Second)))
                 (pool Scenario.worldGreylisted) (Share.JobID Scenario.share1) = true)
    by (vm_compute; reflexivity).
  assert (Hr : Security.Reason
                 (fst (fraudGate Net.extractSubnetV4 (instant (Scenario.t0 + 20 * Second))
                         Scenario.worldGreylisted Scenario.share1))
               = "subnet greylisted"%string) by (vm_compute; reflexivity).
  pose proof (proj2 (proj2 (proj2 (proj2 (proj2
                (X5_greylisted_subnet_is_rejected Net.extractSubnetV4
                   (instant (Scenario.t0 + 20 * Second)) Scenario.worldGreylisted
                   Scenario.share1 (Scenario.t0 + 2 * Second) Hg Hage))))) Hv Hj) as Hx.
  rewrite Hr in Hx. exact Hx.
Defined.

End GreylistExample.

(** ** The job manager ([job.go]) *)

Section JobManagerFacts.
Import Core.

Variable ValidateUUID : string -> bool.

Lemma substring_all (s : string) : String.substring 0 (String.length s) s = s.
Proof. induction s as [|c s IH]; cbn; [reflexivity|]. rewrite IH. reflexivity. Qed.

Lemma drop4_job (u : string) : drop4 (String.append "job-" u) = Some u.
Proof.
  change (String.append "job-" u)
    with (String "j" (String "o" (String "b" (String "-" u)))).
  unfold drop4. cbn [String.length].
  change (S (S (S (S (String.length u)))) <? 4)%nat with false.
  cbn [Nat.sub String.substring]. rewrite Nat.sub_0_r, substring_all. reflexivity.
Qed.

Lemma drop4_None (s : string) : drop4 s = None <-> (String.length s < 4)%nat.
Proof.
  unfold drop4. destruct (Nat.ltb_spec (String.length s) 4) as [Hlt|Hge].
  - tauto.
  - split; [discriminate|lia].
Qed.

(** The ids a manager holds are those [CreateJob] made. *)
Lemma afterCalls_keeps_ids (cs : list JobManagerCall) (jm : JobManager) :
  (forall id, is_Some (jobs jm !! id) -> exists u, id = String.append "job-" u) ->
  forall id, is_Some (jobs (afterCalls jm cs) !! id) ->
             exists u, id = String.append "job-" u.
Proof.
  revert jm. induction cs as [|c rest IH]; intros jm Hinv; [exact Hinv|].
  change (afterCalls jm (c :: rest)) with (afterCalls (afterCall jm c) rest).
  apply IH. intros id.
  destruct c as [seed data uuid r nc ne h|now]; cbn [afterCall].
  - unfold CreateJob. cbn [snd jobs Job.ID].
    destruct (decide (id = String.append "job-" uuid)) as [->|Hne].
    + intros _. eauto.
    + rewrite lookup_insert_ne by congruence. apply Hinv.
  - intros [jb Hjb]. apply CleanupExpiredJobs_keeps in Hjb.
    apply Hinv. exists jb. tauto.
Qed.

Lemma afterCalls_ids (timeout : Z) (cs : list JobManagerCall) (id : string) :
  is_Some (jobs (afterCalls (NewJobManager timeout) cs) !! id) ->
  exists u, id = String.append "job-" u.
Proof.
  apply afterCalls_keeps_ids. intros k [x Hx]. cbn in Hx.
  rewrite lookup_empty in Hx. discriminate.
Qed.

(** X8.  [JobManager.ValidateShare] slices the job id with [jobID[4:]] and
    panics when the id has fewer than four bytes; that happens exactly for a
    job that is held under such an id, is active and has not expired.  A
    manager that was made by [NewJobManager] and written by [CreateJob] and
    [CleanupExpiredJobs] only holds ids of the form "job-<uuid>", so on it
    the call never panics, whatever the arguments; and it approves a share
    only for an id "job-<u>" whose rest [u] is a UUID. *)
Theorem X8_ValidateShare_panics_only_on_short_ids (now : Z) (jm : JobManager)
    (jobID nonce result : string) :
  (JobManager_ValidateShare ValidateUUID now jm jobID nonce result = None
   <-> (String.length jobID < 4)%nat
       /\ exists jb, jobs jm !! jobID = Some jb /\ Job.Active jb = true
                     /\ now <= Job.ExpiresAt jb)
  /\ (forall timeout cs,
        JobManager_ValidateShare ValidateUUID now
          (afterCalls (NewJobManager timeout) cs) jobID nonce result <> None)
  /\ (forall timeout cs,
        JobManager_ValidateShare ValidateUUID now
          (afterCalls (NewJobManager timeout) cs) jobID nonce result = Some true ->
        exists u, jobID = String.append "job-" u /\ ValidateUUID u = true).
Proof.
  assert (Hpanic : forall m : JobManager,
             JobManager_ValidateShare ValidateUUID now m jobID nonce result = None
             <-> (String.length jobID < 4)%nat
                 /\ exists jb, jobs m !! jobID = Some jb /\ Job.Active jb = true
                               /\ now <= Job.ExpiresAt jb).
  { intros m. unfold JobManager_ValidateShare, After.
    destruct (jobs m !! jobID) as [jb|];
      [|split; [discriminate|intros (_ & jb & [=] & _)]].
    destruct (Job.Active jb) eqn:Hact; cbn [negb];
      [|split; [discriminate|intros (_ & jb' & [= <-] & Ha & _); congruence]].
    destruct (Z.ltb_spec (Job.ExpiresAt jb) now) as [Hlt|Hle];
      [split; [discriminate|intros (_ & jb' & [= <-] & _ & Hx); lia]|].
    pose proof (drop4_None jobID) as Hd.
    destruct (drop4 jobID) as [u|].
    - split.
      + intros Hx. exfalso.
        destruct (negb (ValidateUUID u)); [discriminate|].
        destruct (negb (String.eqb (hashJob (Job.Data jb) nonce) result));
          [discriminate|].
        destruct (negb (checkDifficulty (hashJob (Job.Data jb) nonce) (Job.Target jb)));
          discriminate.
      + intros [Hlen _]. apply Hd in Hlen. discriminate.
    - split; [|reflexivity]. intros _. split; [apply Hd; reflexivity|].
      exists jb. repeat split; assumption. }
  split; [apply Hpanic|]. split.
  - intros timeout cs Hx. apply Hpanic in Hx. destruct Hx as (Hlen & jb & Hjb & _).
    destruct (afterCalls_ids timeout cs jobID) as [u ->]; [eauto|].
    change (String.append "job-" u)
      with (String "j" (String "o" (String "b" (String "-" u)))) in Hlen.
    cbn [String.length] in Hlen. lia.
  - intros timeout cs. unfold JobManager_ValidateShare.
    destruct (jobs (afterCalls (NewJobManager timeout) cs) !! jobID) as [jb|] eqn:Hjb;
      [|discriminate].
    destruct (afterCalls_ids timeout cs jobID) as [u ->]; [eauto|].
    rewrite drop4_job.
    destruct (negb (Job.Active jb)); [discriminate|].
    destruct (After now (Job.ExpiresAt jb)); [discriminate|].
    destruct (ValidateUUID u) eqn:Hu; [|discriminate].
    intros _. exists u. split; [reflexivity|exact Hu].
Qed.

(** X9.  The job [CreateJob] returns can be validated at once: for the id
    of the new job, [ValidateShare] never panics and approves a share
    exactly when the call is not later than [ExpiresAt], which is the second
    reading of the clock plus the manager's timeout; the part of the id
    after "job-" is accepted by [ValidateUUID]; the submitted result is the
    SHA-256 digest, in hexadecimal, of the job data followed by the nonce,
    the job data being the second random string followed by the first; and
    that digest is below the generated target in the byte order. *)
Theorem X9_created_job_validates (randomSeed randomData uuid : string) (r : float)
    (nowCreated nowExpires : Z) (jm : JobManager) (blockHeight : Z)
    (now : Z) (nonce result : string) :
  JobManager_ValidateShare ValidateUUID now
    (snd (CreateJob randomSeed randomData uuid r nowCreated nowExpires jm blockHeight))
    (Job.ID (fst (CreateJob randomSeed randomData uuid r nowCreated nowExpires
                    jm blockHeight)))
    nonce result
  = Some true
  <-> now <= nowExpires + timeout jm
      /\ ValidateUUID uuid = true
      /\ result = sha256_hex (String.append (String.append randomData randomSeed) nonce)
      /\ go_string_lt result (generateTarget blockHeight r) = true.
Proof.
  unfold CreateJob, JobManager_ValidateShare. cbn [fst snd jobs Job.ID].
  rewrite lookup_insert_eq, drop4_job.
  cbn [Job.Active Job.ExpiresAt Job.Data Job.Target negb].
  unfold After, Add, hashJob, checkDifficulty.
  destruct (Z.ltb_spec (nowExpires + timeout jm) now) as [Hlt|Hle];
    [split; [discriminate|intros [Hx _]; lia]|].
  destruct (ValidateUUID uuid); cbn [negb];
    [|split; [discriminate|intros (_ & [=] & _)]].
  destruct (String.eqb_spec
              (sha256_hex (String.append (String.append randomData randomSeed) nonce))
              result) as [<-|Hne]; cbn [negb];
    [|split; [discriminate|intros (_ & _ & Hx & _); congruence]].
  destruct (go_string_lt _ _); cbn [negb].
  - split; [intros _; repeat split; assumption|reflexivity].
  - split; [discriminate|intros (_ & _ & _ & [=])].
Qed.

Lemma ascii_compare_trans (a b c : ascii) :
  Ascii.compare a b = Lt -> Ascii.compare b c = Lt -> Ascii.compare a c = Lt.
Proof.
  unfold Ascii.compare. rewrite !N.compare_lt_iff. lia.
Qed.

Lemma string_compare_trans (a b c : string) :
  String.compare a b = Lt -> String.compare b c = Lt -> String.compare a c = Lt.
Proof.
  revert b c. induction a as [|x a IH]; intros [|y b] [|z c]; cbn [String.compare];
    try discriminate; try reflexivity.
  destruct (Ascii.compare x y) eqn:Hxy; [|intros _|discriminate].
  - apply Ascii.compare_eq_iff in Hxy. subst y.
    destruct (Ascii.compare x z); [apply IH|reflexivity|discriminate].
  - destruct (Ascii.compare y z) eqn:Hyz; [|intros _|discriminate].
    + apply Ascii.compare_eq_iff in Hyz. subst z. rewrite Hxy. reflexivity.
    + rewrite (ascii_compare_trans x y z Hxy Hyz). reflexivity.
Qed.

Lemma go_string_lt_trans (a b c : string) :
  go_string_lt a b = true -> go_string_lt b c = true -> go_string_lt a c = true.
Proof.
  unfold go_string_lt, String.ltb.
  destruct (String.compare a b) eqn:Hab; try discriminate.
  destruct (String.compare b c) eqn:Hbc; try discriminate.
  rewrite (string_compare_trans a b c Hab Hbc). reflexivity.
Qed.

(** X10.  [generateTarget] returns one of three targets, and whichever it
    returns, a digest that meets it also meets the base target
    "0000ffff...": the two other targets only make a job harder.  For a
    height that is a multiple of ten the target is the one with five leading
    zeros, whatever the random number would be. *)
Theorem X10_generated_targets_are_at_most_the_base (blockHeight : Z) (r r' : float)
    (hash : string) :
  (checkDifficulty hash (generateTarget blockHeight r) = true ->
   checkDifficulty hash targetBase = true)
  /\ (blockHeight mod 10 = 0 ->
      generateTarget blockHeight r = targetTenth
      /\ generateTarget blockHeight r' = targetTenth)
  /\ In (generateTarget blockHeight r) [targetBase; targetTenth; targetRare].
Proof.
  unfold checkDifficulty, generateTarget. split; [|split].
  - destruct (Z.rem blockHeight 10 =? 0).
    + intros Hh. apply (go_string_lt_trans hash targetTenth targetBase Hh).
      vm_compute. reflexivity.
    + destruct (PrimFloat.ltb r _); [|exact id].
      intros Hh. apply (go_string_lt_trans hash targetRare targetBase Hh).
      vm_compute. reflexivity.
  - intros Hm.
    assert (Hr : Z.rem blockHeight 10 = 0)
      by (apply Z.rem_divide; [lia|]; apply Z.mod_divide; [lia|exact Hm]).
    rewrite Hr. cbn. split; reflexivity.
  - destruct (Z.rem blockHeight 10 =? 0); [cbn; tauto|].
    destruct (PrimFloat.ltb r _); cbn; tauto.
Qed.

Lemma JobManager_ValidateShare_after_cleanup (tick now : Z) (jm : JobManager)
    (jobID nonce result : string) :
  tick <= now ->
  JobManager_ValidateShare ValidateUUID now (CleanupExpiredJobs tick jm)
    jobID nonce result
  = JobManager_ValidateShare ValidateUUID now jm jobID nonce result.
Proof.
  intros Hle. unfold JobManager_ValidateShare.
  destruct (jobs jm !! jobID) as [jb|] eqn:Hjb.
  - destruct (Z_lt_le_dec (Job.ExpiresAt jb) tick) as [Hexp|Hkeep].
    + assert (Hgone : jobs (CleanupExpiredJobs tick jm) !! jobID = None).
      { destruct (jobs (CleanupExpiredJobs tick jm) !! jobID) as [jb'|] eqn:Hx;
          [|reflexivity].
        apply CleanupExpiredJobs_keeps in Hx. destruct Hx as [Hx Hk].
        rewrite Hjb in Hx. injection Hx as <-. lia. }
      rewrite Hgone. destruct (negb (Job.Active jb)); [reflexivity|].
      unfold After. destruct (Z.ltb_spec (Job.ExpiresAt jb) now); [reflexivity|lia].
    + assert (Hstay : jobs (CleanupExpiredJobs tick jm) !! jobID = Some jb)
        by (apply CleanupExpiredJobs_keeps; split; assumption).
      rewrite Hstay. reflexivity.
  - assert (Hgone : jobs (CleanupExpiredJobs tick jm) !! jobID = None).
    { destruct (jobs (CleanupExpiredJobs tick jm) !! jobID) as [jb'|] eqn:Hx;
        [|reflexivity].
      apply CleanupExpiredJobs_keeps in Hx. destruct Hx as [Hx _].
      rewrite Hjb in Hx. discriminate. }
    rewrite Hgone. reflexivity.
Qed.

(** X11.  The garbage collector of the job manager is invisible to
    validation: when every sweep so far read the clock no later than a call
    of [ValidateShare] does, the call answers (or panics) as it would have
    without the sweeps.  The sweeps remove exactly the jobs that are past
    [ExpiresAt] at one of them, and never change the timeout. *)
Theorem X11_garbage_collection_is_invisible_to_validation (ticks : list Z) (now : Z)
    (jm : JobManager) (jobID nonce result : string) :
  Forall (fun tick => tick <= now) ticks ->
  JobManager_ValidateShare ValidateUUID now (StartGarbageCollector ticks jm)
    jobID nonce result
  = JobManager_ValidateShare ValidateUUID now jm jobID nonce result
  /\ timeout (StartGarbageCollector ticks jm) = timeout jm
  /\ (forall id jb,
        jobs (StartGarbageCollector ticks jm) !! id = Some jb
        <-> jobs jm !! id = Some jb
            /\ Forall (fun tick => tick <= Job.ExpiresAt jb) ticks).
Proof.
  revert jm. induction ticks as [|tick rest IH]; intros jm Hall.
  - cbn. split; [reflexivity|]. split; [reflexivity|].
    intros id jb. split; [intros Hx; split; [exact Hx|constructor]|tauto].
  - apply Forall_cons_iff in Hall. destruct Hall as [Hle Hrest].
    change (StartGarbageCollector (tick :: rest) jm)
      with (StartGarbageCollector rest (CleanupExpiredJobs tick jm)).
    destruct (IH (CleanupExpiredJobs tick jm) Hrest) as (Hv & Ht & Hj).
    split; [rewrite Hv; apply JobManager_ValidateShare_after_cleanup; exact Hle|].
    split; [rewrite Ht; reflexivity|].
    intros id jb. rewrite Hj, CleanupExpiredJobs_keeps, Forall_cons_iff. tauto.
Qed.

End JobManagerFacts.

Section JobManagerExample.
Import Core.

Lemma X11_witness :
  JobManager_ValidateShare (fun _ => true) (Scenario.t0 + 2 * Minute)
    (StartGarbageCollector Scenario.sweeps Scenario.manager1)
    (Job.ID Scenario.managerJob) "00000000" "ab"
  = JobManager_ValidateShare (fun _ => true) (Scenario.t0 + 2 * Minute)
      Scenario.manager1 (Job.ID Scenario.managerJob) "00000000" "ab".
Proof.
  assert (Hall : Forall (fun tick => tick <= Scenario.t0 + 2 * Minute) Scenario.sweeps).
  { unfold Scenario.sweeps. cbn [map seq].
    repeat (constructor; [vm_compute; discriminate|]). constructor. }
  exact (proj1 (X11_garbage_collection_is_invisible_to_validation (fun _ => true)
                  Scenario.sweeps (Scenario.t0 + 2 * Minute) Scenario.manager1
                  (Job.ID Scenario.managerJob) "00000000" "ab" Hall)).
Defined.

End JobManagerExample.

(** ** The engine: jobs, workers and sweeps ([pool.go]) *)

Section EngineJobs.
Import Core.

(** The negation of a [Duration] is the arithmetic one, except for the
    smallest duration, which is its own negation. *)
Lemma Neg_in_range (d : Z) : minDuration < d <= maxDuration -> Neg d = - d.
Proof.
  unfold Neg, wrap64, minDuration, maxDuration. intros Hd.
  rewrite Z.mod_small by lia. lia.
Qed.

Lemma Neg_minDuration : Neg minDuration = minDuration.
Proof. vm_compute. reflexivity. Qed.

(** [removeExpiredJobs] keeps exactly the jobs whose age at its reading is
    at most the time to live, the smallest duration apart. *)
Lemma removeExpiredJobs_keeps (now : Z) (pc : PoolCore) (id : string) (jb : Job.t) :
  minDuration < ttlJob pc <= maxDuration ->
  activeJobs (removeExpiredJobs now pc) !! id = Some jb
  <-> activeJobs pc !! id = Some jb /\ now - Job.CreatedAt jb <= ttlJob pc.
Proof.
  intros Hr. unfold removeExpiredJobs, Add. cbn [activeJobs with_activeJobs].
  rewrite map_lookup_filter_Some, (Neg_in_range _ Hr). cbn [snd].
  split; intros [Hl Hk]; (split; [exact Hl|lia]).
Qed.

(** With the smallest duration as time to live the threshold lies [2 ^ 63]
    nanoseconds before the reading, not after it: the sweep keeps every job
    created since. *)
Lemma removeExpiredJobs_smallest_ttl (now : Z) (pc : PoolCore) (id : string)
    (jb : Job.t) :
  ttlJob pc = minDuration ->
  activeJobs (removeExpiredJobs now pc) !! id = Some jb
  <-> activeJobs pc !! id = Some jb /\ now - Job.CreatedAt jb <= 2 ^ 63.
Proof.
  intros Hmin. unfold removeExpiredJobs, Add. cbn [activeJobs with_activeJobs].
  rewrite map_lookup_filter_Some, Hmin, Neg_minDuration. cbn [snd].
  unfold minDuration. split; intros [Hl Hk]; (split; [exact Hl|lia]).
Qed.

Lemma removeExpiredJobs_None (now : Z) (pc : PoolCore) (id : string) :
  minDuration < ttlJob pc <= maxDuration ->
  activeJobs (removeExpiredJobs now pc) !! id = None
  <-> match activeJobs pc !! id with
      | Some jb => ttlJob pc < now - Job.CreatedAt jb
      | None => True
      end.
Proof.
  intros Hr.
  pose proof (fun jb => removeExpiredJobs_keeps now pc id jb Hr) as Hk.
  destruct (activeJobs (removeExpiredJobs now pc) !! id) as [jb'|] eqn:Hx.
  - destruct (proj1 (Hk jb') eq_refl) as [Hl Hage]. rewrite Hl.
    split; [discriminate|lia].
  - split; [|reflexivity]. intros _.
    destruct (activeJobs pc !! id) as [jb|]; [|exact I].
    destruct (Z_le_gt_dec (now - Job.CreatedAt jb) (ttlJob pc)) as [Hle|Hgt]; [|lia].
    pose proof (proj2 (Hk jb) (conj eq_refl Hle)) as Hy. discriminate.
Qed.

Lemma submitSection_sweep (tick now : Z) (pc : PoolCore) (wid : string) (sh : Share.t) :
  submitSection now (removeExpiredJobs tick pc) wid sh
  = (removeExpiredJobs tick (fst (submitSection now pc wid sh)),
     snd (submitSection now pc wid sh)).
Proof.
  unfold submitSection, removeExpiredJobs, with_activeJobs.
  cbn [lastSubmission interval workers workerShares activeJobs ttlJob].
  destruct (lastSubmission pc !! wid) as [last|]; [|reflexivity].
  destruct (Sub now last <? interval pc); reflexivity.
Qed.

Lemma SubmitShare_sweep (tick nowJob now : Z) (pc : PoolCore) (wid : string)
    (s : option Share.t) :
  minDuration < ttlJob pc < maxDuration ->
  tick <= nowJob ->
  SubmitShare nowJob now (removeExpiredJobs tick pc) wid s
  = (removeExpiredJobs tick (fst (SubmitShare nowJob now pc wid s)),
     snd (SubmitShare nowJob now pc wid s)).
Proof.
  intros Hr Hle. unfold SubmitShare. destruct s as [sh|]; [|reflexivity].
  assert (Hr1 : minDuration < ttlJob pc <= maxDuration) by lia.
  assert (Hr2 : minDuration <= ttlJob pc < maxDuration) by lia.
  pose proof (fun jb => removeExpiredJobs_keeps tick pc (Share.JobID sh) jb Hr1) as Hk.
  pose proof (removeExpiredJobs_None tick pc (Share.JobID sh) Hr1) as Hn.
  change (ttlJob (removeExpiredJobs tick pc)) with (ttlJob pc).
  change (workers (removeExpiredJobs tick pc)) with (workers pc).
  destruct (activeJobs pc !! Share.JobID sh) as [jb|].
  - destruct (Z_le_gt_dec (tick - Job.CreatedAt jb) (ttlJob pc)) as [Hkeep|Hdrop].
    + rewrite (proj2 (Hk jb) (conj eq_refl Hkeep)).
      destruct (ttlJob pc <? Since nowJob (Job.CreatedAt jb)); [reflexivity|].
      destruct (workers pc !! wid) as [wk|]; [|reflexivity].
      destruct (negb (Worker.IsActive wk)); [reflexivity|].
      apply submitSection_sweep.
    + rewrite (proj2 Hn) by lia.
      destruct (Z.ltb_spec (ttlJob pc) (Since nowJob (Job.CreatedAt jb))) as [_|Hx];
        [reflexivity|].
      exfalso. unfold Since in Hx. apply (Sub_le_iff _ _ _ Hr2) in Hx. lia.
  - rewrite (proj2 Hn I). reflexivity.
Qed.

Lemma isJobActive_sweep {St : Type} (tick now : Z) (p : Pool.t St) (jobID : string) :
  minDuration < ttlJob (Pool.Engine p) < maxDuration ->
  tick <= now ->
  isJobActive now
    {| Pool.Engine := removeExpiredJobs tick (Pool.Engine p);
       Pool.ShareStore := Pool.ShareStore p |} jobID
  = isJobActive now p jobID.
Proof.
  intros Hr Hle. unfold isJobActive. cbn [Pool.Engine].
  destruct (String.eqb jobID ""); [reflexivity|].
  assert (Hr1 : minDuration < ttlJob (Pool.Engine p) <= maxDuration) by lia.
  assert (Hr2 : minDuration <= ttlJob (Pool.Engine p) < maxDuration) by lia.
  pose proof (fun jb => removeExpiredJobs_keeps tick (Pool.Engine p) jobID jb Hr1) as Hk.
  pose proof (removeExpiredJobs_None tick (Pool.Engine p) jobID Hr1) as Hn.
  change (ttlJob (removeExpiredJobs tick (Pool.Engine p))) with (ttlJob (Pool.Engine p)).
  destruct (activeJobs (Pool.Engine p) !! jobID) as [jb|].
  - destruct (Z_le_gt_dec (tick - Job.CreatedAt jb) (ttlJob (Pool.Engine p)))
      as [Hkeep|Hdrop].
    + rewrite (proj2 (Hk jb) (conj eq_refl Hkeep)). reflexivity.
    + rewrite (proj2 Hn) by lia. symmetry. apply Z.leb_gt.
      unfold Since. apply (Sub_gt_iff _ _ _ Hr2). lia.
  - rewrite (proj2 Hn I). reflexivity.
Qed.

(** X12.  The sweeps of [Pool.Start] are invisible to submitters.  When the
    time to live of the engine is a duration strictly between the smallest
    and the largest one (the negation of the smallest wraps around) and
    every sweep so far read the clock no later than a call does,
    [isJobActive] answers as it would have without the sweeps, and
    [SubmitShare] returns the same error or success and makes the same
    changes; the sweeps touch nothing but the job map, from which they
    remove exactly the jobs older than the time to live at one of them. *)
Theorem X12_sweeps_are_invisible_to_submitters {St : Type} (ticks : list Z)
    (p : Pool.t St) (nowJob now : Z) (wid : string) (s : option Share.t)
    (jobID : string) :
  minDuration < ttlJob (Pool.Engine p) < maxDuration ->
  Forall (fun tick => tick <= nowJob) ticks ->
  isJobActive nowJob (Start ticks p) jobID = isJobActive nowJob p jobID
  /\ snd (SubmitShare nowJob now (Pool.Engine (Start ticks p)) wid s)
     = snd (SubmitShare nowJob now (Pool.Engine p) wid s)
  /\ fst (SubmitShare nowJob now (Pool.Engine (Start ticks p)) wid s)
     = Pool.Engine (Start ticks
                      {| Pool.Engine := fst (SubmitShare nowJob now (Pool.Engine p) wid s);
                         Pool.ShareStore := Pool.ShareStore p |})
  /\ (forall id jb,
        activeJobs (Pool.Engine (Start ticks p)) !! id = Some jb
        <-> activeJobs (Pool.Engine p) !! id = Some jb
            /\ Forall (fun tick => tick - Job.CreatedAt jb <= ttlJob (Pool.Engine p))
                      ticks)
  /\ workers (Pool.Engine (Start ticks p)) = workers (Pool.Engine p)
  /\ workerShares (Pool.Engine (Start ticks p)) = workerShares (Pool.Engine p)
  /\ lastSubmission (Pool.Engine (Start ticks p)) = lastSubmission (Pool.Engine p)
  /\ Pool.ShareStore (Start ticks p) = Pool.ShareStore p.
Proof.
  destruct p as [pc store]. cbn [Pool.Engine Pool.ShareStore].
  revert pc. induction ticks as [|tick rest IH]; intros pc Hr Hall.
  - cbn. repeat split; try reflexivity; try tauto. constructor.
  - apply Forall_cons_iff in Hall. destruct Hall as [Hle Hrest].
    assert (Hstep : forall e,
               Start (tick :: rest) {| Pool.Engine := e; Pool.ShareStore := store |}
               = Start rest {| Pool.Engine := removeExpiredJobs tick e;
                               Pool.ShareStore := store |}) by reflexivity.
    rewrite !Hstep.
    destruct (IH (removeExpiredJobs tick pc) Hr Hrest)
      as (Hact & Hsnd & Hfst & Hjobs & Hw & Hs & Hl & Hst).
    split.
    { rewrite Hact.
      exact (isJobActive_sweep tick nowJob
               {| Pool.Engine := pc; Pool.ShareStore := store |} jobID Hr Hle). }
    split.
    { rewrite Hsnd, (SubmitShare_sweep tick nowJob now pc wid s Hr Hle). reflexivity. }
    split.
    { rewrite Hfst, (SubmitShare_sweep tick nowJob now pc wid s Hr Hle). reflexivity. }
    split.
    { intros id jb. rewrite Hjobs, removeExpiredJobs_keeps, Forall_cons_iff by lia.
      change (ttlJob (removeExpiredJobs tick pc)) with (ttlJob pc). tauto. }
    rewrite Hw, Hs, Hl, Hst. repeat split; reflexivity.
Qed.

(** X13.  In an engine whose time to live is a duration above the smallest
    one (whose negation wraps around), [DispatchJob] ignores a nil job and a
    job with an empty id, and then does not sweep either.  Otherwise the job
    replaces the one held under the same id and a sweep follows at once, so
    that afterwards the engine holds under each id exactly what it held
    before, or the new job under its id, provided that job is not older than
    the time to live at the reading of the sweep: a job dispatched too old
    is not held at all, and takes the job it replaced with it. *)
Theorem X13_DispatchJob_replaces_and_sweeps (now : Z) (pc : PoolCore)
    (j : option Job.t) (id : string) (jb : Job.t) :
  minDuration < ttlJob pc <= maxDuration ->
  match j with
  | None => DispatchJob now pc j = pc
  | Some new =>
      if String.eqb (Job.ID new) "" then DispatchJob now pc j = pc
      else
        (activeJobs (DispatchJob now pc j) !! id = Some jb
         <-> now - Job.CreatedAt jb <= ttlJob pc
             /\ (if String.eqb id (Job.ID new) then jb = new
                 else activeJobs pc !! id = Some jb))
        /\ workers (DispatchJob now pc j) = workers pc
        /\ workerShares (DispatchJob now pc j) = workerShares pc
        /\ lastSubmission (DispatchJob now pc j) = lastSubmission pc
  end.
Proof.
  intros Hr. destruct j as [new|]; [|reflexivity].
  unfold DispatchJob. destruct (String.eqb (Job.ID new) ""); [reflexivity|].
  split; [|repeat split; reflexivity].
  rewrite removeExpiredJobs_keeps by exact Hr. cbn [activeJobs with_activeJobs ttlJob].
  destruct (String.eqb_spec id (Job.ID new)) as [->|Hne].
  - rewrite lookup_insert_eq. split.
    + intros [[= <-] Hage]. split; [exact Hage|reflexivity].
    + intros [Hage ->]. split; [reflexivity|exact Hage].
  - rewrite lookup_insert_ne by congruence. tauto.
Qed.

End EngineJobs.

Section EngineJobsExample.
Import Core.

Lemma X12_witness :
  snd (SubmitShare (Scenario.t0 + Minute) (Scenario.t0 + Minute)
         (Pool.Engine (Start Scenario.poolTicks (pool Scenario.world1)))
         "w1" (Some Scenario.share1))
  = snd (SubmitShare (Scenario.t0 + Minute) (Scenario.t0 + Minute)
           (Pool.Engine (pool Scenario.world1)) "w1" (Some Scenario.share1)).
Proof.
  assert (Hr : minDuration < ttlJob (Pool.Engine (pool Scenario.world1)) < maxDuration)
    by (split; vm_compute; reflexivity).
  assert (Hall : Forall (fun tick => tick <= Scenario.t0 + Minute) Scenario.poolTicks).
  { unfold Scenario.poolTicks. cbn [map seq].
    repeat (constructor; [vm_compute; discriminate|]). constructor. }
  exact (proj1 (proj2 (X12_sweeps_are_invisible_to_submitters Scenario.poolTicks
                         (pool Scenario.world1) (Scenario.t0 + Minute)
                         (Scenario.t0 + Minute) "w1" (Some Scenario.share1) "job-1"
                         Hr Hall))).
Defined.

(** A job dispatched ten seconds old to an engine whose time to live is
    thirty seconds is held. *)
Lemma X13_witness :
  activeJobs (DispatchJob (Scenario.t0 + 10 * Second) Scenario.engine1
                (Some Scenario.jobShort)) !! "job-2"%string
  = Some Scenario.jobShort.
Proof.
  assert (Hr : minDuration < ttlJob Scenario.engine1 <= maxDuration)
    by (split; [vm_compute; reflexivity|vm_compute; discriminate]).
  assert (Hage : Scenario.t0 + 10 * Second - Job.CreatedAt Scenario.jobShort
                 <= ttlJob Scenario.engine1) by (vm_compute; discriminate).
  pose proof (X13_DispatchJob_replaces_and_sweeps (Scenario.t0 + 10 * Second)
                Scenario.engine1 (Some Scenario.jobShort) "job-2"
                Scenario.jobShort Hr) as Hx.
  change (String.eqb (Job.ID Scenario.jobShort) "") with false in Hx.
  change (String.eqb "job-2" (Job.ID Scenario.jobShort)) with true in Hx.
  cbv beta iota in Hx. destruct Hx as [Hiff _].
  apply Hiff. split; [exact Hage|reflexivity].
Defined.

End EngineJobsExample.

Section EngineWorkers.
Import Core.

Lemma step_shares (pc : PoolCore) (st : Step) (wid : string) :
  exists added,
    default [] (ListShares (fst (step pc st)) wid)
    = default [] (ListShares pc wid) ++ added
    /\ length added
       = match snd (step pc st) with
         | Some (w, _) => if String.eqb w wid then 1%nat else 0%nat
         | None => 0%nat
         end.
Proof.
  unfold ListShares.
  assert (Hsame : forall pc',
             workerShares pc' = workerShares pc ->
             exists added,
               default [] (workerShares pc' !! wid)
               = default [] (workerShares pc !! wid) ++ added
               /\ length added = 0%nat).
  { intros pc' ->. exists []. rewrite app_nil_r. split; reflexivity. }
  assert (Hsec : forall now w sh,
             exists added,
               default [] (workerShares (fst (submitSection now pc w sh)) !! wid)
               = default [] (workerShares pc !! wid) ++ added
               /\ length added
                  = match snd (submitSection now pc w sh) with
                    | None => if String.eqb w wid then 1%nat else 0%nat
                    | Some _ => 0%nat
                    end).
  { intros now w sh.
    destruct (snd (submitSection now pc w sh)) as [e|] eqn:He.
    - destruct (submitSection_error now pc w sh e He) as [-> _].
      exists []. rewrite app_nil_r. split; reflexivity.
    - destruct (submitSection_accept now pc w sh He) as (_ & -> & _).
      destruct (String.eqb_spec w wid) as [->|Hne].
      + rewrite lookup_insert_eq. exists [sh]. split; reflexivity.
      + rewrite lookup_insert_ne by congruence.
        exists []. rewrite app_nil_r. split; reflexivity. }
  destruct st as [w s nowJob now|w sh now|id wrk|j now|now]; cbn [step].
  - destruct (snd (SubmitShare nowJob now pc w s)) as [e|] eqn:He.
    + destruct (SubmitShare_error nowJob now pc w s e He) as [Hpc _].
      destruct (SubmitShare nowJob now pc w s) as [pc' err]. cbn [fst snd] in *.
      subst pc' err. exists []. rewrite app_nil_r. split; reflexivity.
    + destruct (SubmitShare_accept nowJob now pc w s He) as (sh & -> & Hs).
      specialize (Hsec now w sh). rewrite <- Hs in Hsec.
      destruct (SubmitShare nowJob now pc w (Some sh)) as [pc' err].
      cbn [fst snd] in *. subst err. exact Hsec.
  - specialize (Hsec now w sh).
    destruct (submitSection now pc w sh) as [pc' err]. cbn [fst snd] in *.
    destruct err; exact Hsec.
  - apply Hsame. unfold AppendWorker.
    destruct wrk as [wk|]; [|reflexivity]. destruct (String.eqb id ""); reflexivity.
  - apply Hsame. unfold DispatchJob.
    destruct j as [jb|]; [|reflexivity].
    destruct (String.eqb (Job.ID jb) ""); reflexivity.
  - apply Hsame. reflexivity.
Qed.

(** X14.  Over any schedule of engine steps, the share list of a worker
    only grows at its end, by one share for each accepted submission of that
    worker and by nothing else; and the time the rate limit remembers for
    the worker is the time of its last accepted submission in the schedule,
    or what was remembered before when the schedule accepted none. *)
Theorem X14_accepted_submissions_are_recorded_once (sched : list Step)
    (pc : PoolCore) (wid : string) :
  (exists added,
     default [] (ListShares (fst (run pc sched)) wid)
     = default [] (ListShares pc wid) ++ added
     /\ length added = length (acceptedTimes wid (snd (run pc sched))))
  /\ lastSubmission (fst (run pc sched)) !! wid
     = match last (acceptedTimes wid (snd (run pc sched))) with
       | Some t => Some t
       | None => lastSubmission pc !! wid
       end.
Proof.
  revert pc. induction sched as [|st rest IH]; intros pc.
  - cbn. split; [|reflexivity]. exists []. rewrite app_nil_r. split; reflexivity.
  - cbn [run].
    destruct (step_shares pc st wid) as (add1 & Hadd1 & Hlen1).
    pose proof (step_lastSubmission pc st) as [_ Hlast].
    destruct (step pc st) as [pc1 acc]. cbn [fst snd] in Hadd1, Hlen1, Hlast.
    destruct (IH pc1) as [(add2 & Hadd2 & Hlen2) Hlast2].
    destruct (run pc1 rest) as [pc2 log]. cbn [fst snd] in *.
    split.
    + exists (add1 ++ add2). rewrite Hadd2, Hadd1, <- app_assoc.
      split; [reflexivity|]. rewrite length_app, Hlen1, Hlen2.
      destruct acc as [[w now]|]; [|reflexivity].
      rewrite acceptedTimes_cons. cbn [fst snd].
      destruct (String.eqb w wid); reflexivity.
    + rewrite Hlast2. destruct acc as [[w now]|]; [|rewrite Hlast; reflexivity].
      destruct Hlast as [-> _]. rewrite acceptedTimes_cons. cbn [fst snd].
      destruct (String.eqb_spec w wid) as [->|Hne].
      * rewrite last_cons, lookup_insert_eq.
        destruct (last (acceptedTimes wid log)); reflexivity.
      * rewrite lookup_insert_ne by congruence. reflexivity.
Qed.

(** X15.  [PurgeWorker] resets the rate limit and [AppendWorker] does not.
    For an active worker and a share of a job within its time to live: once
    the worker's id has been purged and registered again, its next
    submission is accepted whenever it comes and starts a new share list;
    registered again without the purge, the worker keeps its share list and
    is refused with "rate limit exceeded" exactly when the submission comes
    less than the interval after the last accepted one. *)
Theorem X15_purge_resets_the_rate_limit (pc : PoolCore) (wid : string)
    (wk : Worker.t) (sh : Share.t) (jb : Job.t) (nowJob now : Z) :
  wid <> ""%string ->
  Worker.IsActive wk = true ->
  activeJobs pc !! Share.JobID sh = Some jb ->
  nowJob - Job.CreatedAt jb <= ttlJob pc ->
  minDuration <= ttlJob pc < maxDuration ->
  minDuration < interval pc <= maxDuration ->
  (snd (SubmitShare nowJob now (fst (AppendWorker (PurgeWorker pc wid) wid (Some wk)))
          wid (Some sh)) = None
   /\ ListShares (fst (SubmitShare nowJob now
                         (fst (AppendWorker (PurgeWorker pc wid) wid (Some wk)))
                         wid (Some sh))) wid = Some [sh])
  /\ snd (SubmitShare nowJob now (fst (AppendWorker pc wid (Some wk))) wid (Some sh))
     = match lastSubmission pc !! wid with
       | Some last =>
           if now - last <? interval pc then Some "rate limit exceeded"%string else None
       | None => None
       end
  /\ ListShares (fst (AppendWorker pc wid (Some wk))) wid = ListShares pc wid.
Proof.
  intros Hid Hact Hjob Hage Httl Hint.
  assert (Hfresh : (ttlJob pc <? Since nowJob (Job.CreatedAt jb)) = false).
  { apply Z.ltb_ge. unfold Since. apply (Sub_le_iff _ _ _ Httl). exact Hage. }
  unfold AppendWorker. destruct (String.eqb_spec wid "") as [->|_]; [contradiction|].
  cbn [fst]. unfold SubmitShare, PurgeWorker. cbn [activeJobs workers ttlJob].
  rewrite Hjob, Hfresh, !lookup_insert_eq, Hact. cbn [negb].
  unfold submitSection, ListShares.
  cbn [lastSubmission workerShares interval workers activeJobs ttlJob].
  rewrite !lookup_delete_eq. cbn [fst snd workerShares default from_option id app].
  rewrite lookup_insert_eq.
  split; [split; reflexivity|]. split; [|reflexivity].
  destruct (lastSubmission pc !! wid) as [last|]; [|reflexivity].
  destruct (Z.ltb_spec (now - last) (interval pc)) as [Hlt|Hge].
  - rewrite (proj2 (Z.ltb_lt _ _)); [reflexivity|].
    apply Sub_lt_iff; assumption.
  - rewrite (proj2 (Z.ltb_ge _ _)); [reflexivity|].
    apply Sub_ge_iff; assumption.
Qed.

End EngineWorkers.

Section EngineWorkersExample.
Import Core.

Lemma X15_witness :
  snd (SubmitShare (Scenario.t0 + Second) (Scenario.t0 + Second)
         (fst (AppendWorker (PurgeWorker Scenario.engine2 "w1") "w1"
                 (Some (Worker.NewWorker "w1"))))
         "w1" (Some Scenario.share1)) = None
  /\ snd (SubmitShare (Scenario.t0 + Second) (Scenario.t0 + Second)
            (fst (AppendWorker Scenario.engine2 "w1" (Some (Worker.NewWorker "w1"))))
            "w1" (Some Scenario.share1)) = Some "rate limit exceeded"%string.
Proof.
  assert (Hid : "w1"%string <> ""%string) by discriminate.
  assert (Hjob : activeJobs Scenario.engine2 !! Share.JobID Scenario.share1
                 = Some Scenario.job1) by (vm_compute; reflexivity).
  assert (Hage : Scenario.t0 + Second - Job.CreatedAt Scenario.job1
                 <= ttlJob Scenario.engine2) by (vm_compute; discriminate).
  assert (Httl : minDuration <= ttlJob Scenario.engine2 < maxDuration)
    by (split; [vm_compute; discriminate|vm_compute; reflexivity]).
  assert (Hint : minDuration < interval Scenario.engine2 <= maxDuration)
    by (split; [vm_compute; reflexivity|vm_compute; discriminate]).
  assert (Hlast : lastSubmission Scenario.engine2 !! "w1"
                  = Some (Scenario.t0 + Second)) by (vm_compute; reflexivity).
  pose proof (X15_purge_resets_the_rate_limit Scenario.engine2 "w1"
                (Worker.NewWorker "w1") Scenario.share1 Scenario.job1
                (Scenario.t0 + Second) (Scenario.t0 + Second)
                Hid eq_refl Hjob Hage Httl Hint) as [[Ha _] [Hb _]].
  split; [exact Ha|]. rewrite Hlast in Hb. exact Hb.
Defined.

End EngineWorkersExample.

(** ** Workers ([worker.go]) *)

Section Workers.
Import Core.

Lemma applyAll_snoc (w : Worker.t) (ops : list Worker.Op) (op : Worker.Op) :
  Worker.applyAll w (ops ++ [op]) = Worker.apply (Worker.applyAll w ops) op.
Proof. unfold Worker.applyAll. rewrite fold_left_app. reflexivity. Qed.

Lemma applyAll_IsActive (w : Worker.t) (ops : list Worker.Op) :
  Worker.IsActive (Worker.applyAll w ops)
  = Worker.IsActive w
    && forallb (fun op => match op with Worker.OpDisconnect => false | _ => true end) ops.
Proof.
  induction ops as [|op ops IH] using rev_ind.
  - cbn. rewrite andb_true_r. reflexivity.
  - rewrite applyAll_snoc, forallb_app. cbn [forallb].
    destruct op as [j|s|]; cbn [Worker.apply].
    + change (Worker.IsActive (Worker.AssignJob (Worker.applyAll w ops) j))
        with (Worker.IsActive (Worker.applyAll w ops)).
      rewrite IH, !andb_true_r. reflexivity.
    + assert (Hs : Worker.IsActive (fst (Worker.AddShare (Worker.applyAll w ops) s))
                   = Worker.IsActive (Worker.applyAll w ops))
        by (destruct s; reflexivity).
      rewrite Hs, IH, !andb_true_r. reflexivity.
    + cbn. rewrite !andb_false_r. reflexivity.
Qed.

Lemma applyAll_shares (w : Worker.t) (ops : list Worker.Op) :
  Worker.shares (Worker.applyAll w ops)
  = Worker.shares w
    ++ omap (fun op => match op with Worker.OpAddShare s => s | _ => None end) ops.
Proof.
  induction ops as [|op ops IH] using rev_ind.
  - cbn. rewrite app_nil_r. reflexivity.
  - rewrite applyAll_snoc, omap_app, app_assoc.
    destruct op as [j|[sh|]|]; cbn [Worker.apply omap fst Worker.AddShare Worker.shares];
      rewrite ?app_nil_r; try exact IH.
    rewrite <- IH. reflexivity.
Qed.

Lemma applyAll_CurrentJob (w : Worker.t) (ops : list Worker.Op) :
  Worker.CurrentJob (Worker.applyAll w ops)
  = default (Worker.CurrentJob w)
      (last (omap (fun op => match op with
                             | Worker.OpAssignJob j => Some j
                             | _ => None
                             end) ops)).
Proof.
  induction ops as [|op ops IH] using rev_ind.
  - reflexivity.
  - rewrite applyAll_snoc, omap_app.
    destruct op as [j|[sh|]|]; cbn [Worker.apply omap list_omap fst Worker.AddShare];
      rewrite ?app_nil_r, ?last_snoc; try exact IH.
    reflexivity.
Qed.

Lemma applyAll_ID (w : Worker.t) (ops : list Worker.Op) :
  Worker.ID (Worker.applyAll w ops) = Worker.ID w.
Proof.
  induction ops as [|op ops IH] using rev_ind.
  - reflexivity.
  - rewrite applyAll_snoc.
    destruct op as [j|[sh|]|]; cbn [Worker.apply fst Worker.AddShare]; exact IH.
Qed.

(** X16.  A worker after any sequence of calls of its methods: it is active
    exactly when it was active before and [Disconnect] was never called (no
    method connects it again); its shares are those it had, followed by the
    non-nil shares added, in the order of the calls; its current job is the
    one of the last [AssignJob], nil included, or the one it had; its id
    never changes.  Held by the engine under some id, a worker that was
    disconnected cannot submit: [SubmitShare] returns an error and leaves
    the engine as it was. *)
Theorem X16_worker_methods (w : Worker.t) (ops : list Worker.Op) :
  Worker.IsActive (Worker.applyAll w ops)
  = Worker.IsActive w
    && forallb (fun op => match op with Worker.OpDisconnect => false | _ => true end) ops
  /\ Worker.shares (Worker.applyAll w ops)
     = Worker.shares w
       ++ omap (fun op => match op with Worker.OpAddShare s => s | _ => None end) ops
  /\ Worker.CurrentJob (Worker.applyAll w ops)
     = default (Worker.CurrentJob w)
         (last (omap (fun op => match op with
                                | Worker.OpAssignJob j => Some j
                                | _ => None
                                end) ops))
  /\ Worker.ID (Worker.applyAll w ops) = Worker.ID w
  /\ (forall pc wid nowJob now s,
        workers pc !! wid = Some (Worker.applyAll w ops) ->
        In Worker.OpDisconnect ops ->
        fst (SubmitShare nowJob now pc wid s) = pc
        /\ In (snd (SubmitShare nowJob now pc wid s))
              [Some "nil share"; Some "invalid or expired job";
               Some "worker not active"]%string).
Proof.
  split; [apply applyAll_IsActive|]. split; [apply applyAll_shares|].
  split; [apply applyAll_CurrentJob|]. split; [apply applyAll_ID|].
  intros pc wid nowJob now s Hw Hin.
  assert (Hoff : Worker.IsActive (Worker.applyAll w ops) = false).
  { rewrite applyAll_IsActive. apply andb_false_iff. right.
    apply not_true_is_false. intros Hall.
    rewrite forallb_forall in Hall. specialize (Hall _ Hin). discriminate. }
  unfold SubmitShare. destruct s as [sh|]; [|cbn; tauto].
  destruct (activeJobs pc !! Share.JobID sh) as [jb|]; [|cbn; tauto].
  destruct (ttlJob pc <? Since nowJob (Job.CreatedAt jb)); [cbn; tauto|].
  rewrite Hw, Hoff. cbn. tauto.
Qed.

End Workers.

(** ** The in-memory store and the share processor (the share file) *)

Section StoreFacts.
Import Core.

Lemma internalStore_cleanup_keeps (now : Z) (s : internalStore.t) (k : string)
    (e : Share.t) :
  minDuration < internalStore.ttl s <= maxDuration ->
  internalStore.entries (internalStore_cleanup now s) !! k = Some e
  <-> internalStore.entries s !! k = Some e
      /\ now - Share.Timestamp e <= internalStore.ttl s.
Proof.
  intros Hr. unfold internalStore_cleanup, Add. cbn [internalStore.entries].
  rewrite map_lookup_filter_Some, (Neg_in_range _ Hr). cbn [snd].
  split; intros [Hl Hk]; (split; [exact Hl|lia]).
Qed.

(** With the smallest duration as retention the cutoff lies [2 ^ 63]
    nanoseconds before the reading: the sweep keeps every share stamped
    since. *)
Lemma internalStore_cleanup_smallest_ttl (now : Z) (s : internalStore.t) (k : string)
    (e : Share.t) :
  internalStore.ttl s = minDuration ->
  internalStore.entries (internalStore_cleanup now s) !! k = Some e
  <-> internalStore.entries s !! k = Some e /\ now - Share.Timestamp e <= 2 ^ 63.
Proof.
  intros Hmin. unfold internalStore_cleanup, Add. cbn [internalStore.entries].
  rewrite map_lookup_filter_Some, Hmin, Neg_minDuration. cbn [snd].
  unfold minDuration. split; intros [Hl Hk]; (split; [exact Hl|lia]).
Qed.

Lemma internalStore_Exists_found (now : Z) (s : internalStore.t) (id : string) :
  minDuration < internalStore.ttl s <= maxDuration ->
  fst (snd (internalStore_Exists now s id)) = true
  <-> exists e, internalStore.entries s !! id = Some e
                /\ now - Share.Timestamp e <= internalStore.ttl s.
Proof.
  intros Hr. unfold internalStore_Exists. cbn [fst snd].
  rewrite bool_decide_eq_true. split.
  - intros [e He]. apply (internalStore_cleanup_keeps _ _ _ _ Hr) in He. eauto.
  - intros (e & He). exists e. apply (internalStore_cleanup_keeps _ _ _ _ Hr). exact He.
Qed.

(** X17.  The in-memory store whose retention is a duration above the
    smallest one (whose negation wraps around).  [Save] and [Exists] never
    return an error.  A share that was saved is found under its id as long
    as the age of its own timestamp at the lookup is at most the retention
    of the store, and not later: the retention is counted from the timestamp
    the share carries, not from the save, so a share saved with an old
    timestamp is dropped by the next lookup.  A save under an id replaces
    the share held under it and does not affect the lookups of other ids;
    and a lookup, which sweeps first, leaves in the store exactly the shares
    within the retention. *)
Theorem X17_internalStore_retention (s : internalStore.t) (sh : Share.t)
    (nowSave now : Z) (id : string) :
  minDuration < internalStore.ttl s <= maxDuration ->
  snd (internalStore_Save nowSave s sh) = None
  /\ snd (snd (internalStore_Exists now s id)) = None
  /\ (fst (snd (internalStore_Exists now (fst (internalStore_Save nowSave s sh))
                  (Share.ID sh))) = true
      <-> now - Share.Timestamp sh <= internalStore.ttl s)
  /\ (id <> Share.ID sh ->
      fst (snd (internalStore_Exists now (fst (internalStore_Save nowSave s sh)) id))
      = fst (snd (internalStore_Exists now s id)))
  /\ (forall k e,
        internalStore.entries (fst (internalStore_Exists now s id)) !! k = Some e
        <-> internalStore.entries s !! k = Some e
            /\ now - Share.Timestamp e <= internalStore.ttl s)
  /\ internalStore.ttl (fst (internalStore_Exists now s id)) = internalStore.ttl s
  /\ internalStore.ttl (fst (internalStore_Save nowSave s sh)) = internalStore.ttl s.
Proof.
  intros Hr.
  split; [reflexivity|]. split; [reflexivity|]. split; [|split; [|split]].
  - rewrite internalStore_Exists_found by exact Hr. unfold internalStore_Save.
    cbn [fst internalStore.entries internalStore.ttl]. rewrite lookup_insert_eq. split.
    + intros (e & [= <-] & Hage). exact Hage.
    + intros Hage. exists sh. split; [reflexivity|exact Hage].
  - intros Hne.
    apply eq_true_iff_eq. rewrite !internalStore_Exists_found by exact Hr.
    unfold internalStore_Save. cbn [fst internalStore.entries internalStore.ttl].
    rewrite lookup_insert_ne by congruence. reflexivity.
  - intros k e. apply internalStore_cleanup_keeps. exact Hr.
  - split; reflexivity.
Qed.

(** What a pass through the share processor that accepted the share leaves
    in the in-memory store. *)
Lemma Process_accepted (nowDup nowStale nowSave : Z) (st : internalStore.t)
    (share : Share.t) (target : string) (jobTTL : Z) :
  ShareResult.Valid (fst (Process nowDup nowStale nowSave st share target jobTTL)) = true ->
  snd (Process nowDup nowStale nowSave st share target jobTTL)
  = fst (internalStore_Save nowSave (internalStore_cleanup nowDup st) share)
  /\ fst (snd (internalStore_Exists nowDup st (Share.ID share))) = false
  /\ IsStale nowStale share jobTTL = false
  /\ IsValidHash share target = true.
Proof.
  unfold Process, ValidateShare, IsDuplicate. cbn [Exists Save internalStore_ShareStore].
  unfold internalStore_Exists. cbn [fst snd].
  destruct (bool_decide (is_Some (internalStore.entries (internalStore_cleanup nowDup st)
                                    !! Share.ID share))); [discriminate|].
  destruct (IsStale nowStale share jobTTL); [discriminate|].
  destruct (IsValidHash share target); [|discriminate].
  cbn. intros _. repeat split.
Qed.

(** X18.  Duplicates at the share processor over the in-memory store, its
    retention being a duration above the smallest one.  After a pass that
    accepted a share, another pass of the same share, with any target and
    any job time to live, answers DUPLICATE "duplicate share" with
    valid=false and the error "rejected: duplicate share", as long as the
    age of the share's timestamp at the lookup is within the retention of
    the store.  Once that age exceeds the retention the share is not
    recognised any more: the answer is never DUPLICATE, and it is ACCEPTED
    again when the share is not stale for the job time to live given and
    meets the target given. *)
Theorem X18_processed_share_is_a_duplicate_within_retention
    (n1 n2 n3 m1 m2 m3 : Z) (st : internalStore.t) (share : Share.t)
    (target target' : string) (jobTTL jobTTL' : Z) :
  minDuration < internalStore.ttl st <= maxDuration ->
  ShareResult.Valid (fst (Process n1 n2 n3 st share target jobTTL)) = true ->
  (m1 - Share.Timestamp share <= internalStore.ttl st ->
   fst (Process m1 m2 m3 (snd (Process n1 n2 n3 st share target jobTTL))
          share target' jobTTL')
   = {| ShareResult.Status := ShareDuplicate;
        ShareResult.Description := "duplicate share";
        ShareResult.Error := Some "rejected: duplicate share"%string;
        ShareResult.Valid := false |})
  /\ (internalStore.ttl st < m1 - Share.Timestamp share ->
      ShareResult.Status
        (fst (Process m1 m2 m3 (snd (Process n1 n2 n3 st share target jobTTL))
                share target' jobTTL')) <> ShareDuplicate
      /\ (IsStale m2 share jobTTL' = false -> IsValidHash share target' = true ->
          fst (Process m1 m2 m3 (snd (Process n1 n2 n3 st share target jobTTL))
                 share target' jobTTL')
          = {| ShareResult.Status := ShareAccepted;
               ShareResult.Description := "share accepted";
               ShareResult.Error := None;
               ShareResult.Valid := true |})).
Proof.
  intros Hr Hv.
  destruct (Process_accepted n1 n2 n3 st share target jobTTL Hv) as [-> _].
  set (st1 := fst (internalStore_Save n3 (internalStore_cleanup n1 st) share)).
  assert (Hfound : fst (snd (internalStore_Exists m1 st1 (Share.ID share))) = true
                   <-> m1 - Share.Timestamp share <= internalStore.ttl st).
  { rewrite internalStore_Exists_found by exact Hr. unfold st1, internalStore_Save.
    cbn [fst internalStore.entries internalStore.ttl internalStore_cleanup].
    rewrite lookup_insert_eq. split.
    - intros (e & [= <-] & Hage). exact Hage.
    - intros Hage. exists share. split; [reflexivity|exact Hage]. }
  unfold Process, ValidateShare, IsDuplicate. cbn [Exists Save internalStore_ShareStore].
  destruct (internalStore_Exists m1 st1 (Share.ID share)) as [st2 [found err]].
  cbn [fst snd] in Hfound. split.
  - intros Hage. rewrite (proj2 Hfound Hage). reflexivity.
  - intros Hage.
    assert (Hnf : found = false).
    { destruct found; [|reflexivity]. pose proof (proj1 Hfound eq_refl). lia. }
    subst found. split.
    + destruct (IsStale m2 share jobTTL'); [cbn; discriminate|].
      destruct (IsValidHash share target'); cbn; discriminate.
    + intros -> ->. reflexivity.
Qed.

End StoreFacts.

Section StoreExample.
Import Core.

Lemma X18_witness :
  fst (Process (Scenario.t0 + 40 * Second) (Scenario.t0 + 40 * Second)
         (Scenario.t0 + 40 * Second) Scenario.storeProcessed Scenario.share1
         Scenario.halfTarget (30 * Second))
  = {| ShareResult.Status := ShareDuplicate;
       ShareResult.Description := "duplicate share";
       ShareResult.Error := Some "rejected: duplicate share"%string;
       ShareResult.Valid := false |}.
Proof.
  assert (Hv : ShareResult.Valid
                 (fst (Process (Scenario.t0 + Second) (Scenario.t0 + Second)
                         (Scenario.t0 + Second) (newInternalStore (45 * Second))
                         Scenario.share1 Scenario.halfTarget (30 * Second))) = true)
    by (vm_compute; reflexivity).
  assert (Hage : Scenario.t0 + 40 * Second - Share.Timestamp Scenario.share1
                 <= internalStore.ttl (newInternalStore (45 * Second)))
    by (vm_compute; discriminate).
  assert (Hr : minDuration < internalStore.ttl (newInternalStore (45 * Second))
               <= maxDuration)
    by (split; [vm_compute; reflexivity|vm_compute; discriminate]).
  exact (proj1 (X18_processed_share_is_a_duplicate_within_retention
                  (Scenario.t0 + Second) (Scenario.t0 + Second) (Scenario.t0 + Second)
                  (Scenario.t0 + 40 * Second) (Scenario.t0 + 40 * Second)
                  (Scenario.t0 + 40 * Second) (newInternalStore (45 * Second))
                  Scenario.share1 Scenario.halfTarget Scenario.halfTarget
                  (30 * Second) (30 * Second) Hr Hv) Hage).
Defined.

(** [share1], saved in a store whose retention is forty-five seconds, is
    found thirty-nine seconds after its timestamp. *)
Lemma X17_witness :
  fst (snd (internalStore_Exists (Scenario.t0 + 40 * Second)
              (fst (internalStore_Save (Scenario.t0 + Second)
                      (newInternalStore (45 * Second)) Scenario.share1))
              (Share.ID Scenario.share1))) = true.
Proof.
  assert (Hr : minDuration < internalStore.ttl (newInternalStore (45 * Second))
               <= maxDuration)
    by (split; [vm_compute; reflexivity|vm_compute; discriminate]).
  assert (Hage : Scenario.t0 + 40 * Second - Share.Timestamp Scenario.share1
                 <= internalStore.ttl (newInternalStore (45 * Second)))
    by (vm_compute; discriminate).
  exact (proj2 (proj1 (proj2 (proj2
                 (X17_internalStore_retention (newInternalStore (45 * Second))
                    Scenario.share1 (Scenario.t0 + Second) (Scenario.t0 + 40 * Second)
                    (Share.ID Scenario.share1) Hr)))) Hage).
Defined.

End StoreExample.

(** ** [ProcessShare] as a whole *)

Section FacadeFacts.
Import Core.

Variable extractSubnet : string -> string.
Context {St : Type} `{ShareStore St}.

Lemma clockSkewTolerance_in_range :
  minDuration <= Security._clockSkewTolerance < maxDuration.
Proof.
  unfold minDuration, maxDuration, Security._clockSkewTolerance, Minute, Second. lia.
Qed.

Lemma clockSkewed_iff (now ts : Z) :
  Security.clockSkewed now ts = true
  <-> ts = 0 \/ now + 2 * Minute < ts \/ 2 * Minute < now - ts.
Proof.
  unfold Security.clockSkewed, IsZero, After, Add.
  rewrite !orb_true_iff, Z.eqb_eq, !Z.ltb_lt.
  rewrite (Sub_gt_iff now ts _ clockSkewTolerance_in_range).
  change Security._clockSkewTolerance with (2 * Minute). tauto.
Qed.

(** X19.  The shape check lets through a timestamp up to five minutes old
    and any timestamp ahead of the clock, but the inspector then tolerates
    two minutes either way: a share that passed the shape and the job gate
    and whose timestamp is more than two minutes behind or ahead of the
    reading of the evaluation is rejected with "blocked by antifraud: clock
    skew out of tolerance", and the inspector records nothing about it. *)
Theorem X19_clock_skew_narrows_the_timestamp_window (clk : Clock) (w : World St)
    (s : Share.t) :
  validateShareBasic (at_basic clk) s = None ->
  isJobActive (at_job clk) (pool w) (Share.JobID s) = true ->
  at_eval clk + 2 * Minute < Share.Timestamp s
  \/ 2 * Minute < at_eval clk - Share.Timestamp s ->
  ProcessShare extractSubnet clk w s
  = ((result ShareInvalid "blocked by antifraud: clock skew out of tolerance"
        (Some "antifraud rejection"%string) false, None),
     invalidated (inspected w (Security.current (globalInspector w)))).
Proof.
  intros Hv Hj Hskew.
  assert (Hs : Security.clockSkewed (at_eval clk) (Share.Timestamp s) = true)
    by (apply clockSkewed_iff; tauto).
  assert (Hg : fraudGate extractSubnet clk w s
               = ({| Security.Flagged := true;
                     Security.Reason := "clock skew out of tolerance";
                     Security.Level := Security.Warn |},
                  Security.current (globalInspector w)))
    by (unfold fraudGate; apply EvaluateShare_skewed; exact Hs).
  rewrite (ProcessShare_fraud extractSubnet clk w s Hv Hj); rewrite Hg; reflexivity.
Qed.

(** X20.  What [ProcessShare] writes.  It never touches the engine: the
    share is neither entered in the engine's share list nor subjected to the
    engine's rate limit.  Of the two counters it moves at most one, by one:
    the counter of invalid shares exactly when the answer has valid=false,
    the counter of valid shares exactly when the answer is "share accepted",
    and none when the answer is "duplicate share ignored".  The answer has
    valid=true exactly when its status is ACCEPTED, and a returned error
    comes with valid=false. *)
Theorem X20_ProcessShare_accounting (clk : Clock) (w : World St) (s : Share.t) :
  Pool.Engine (pool (snd (ProcessShare extractSubnet clk w s))) = Pool.Engine (pool w)
  /\ ((ShareResult.Valid (fst (fst (ProcessShare extractSubnet clk w s))) = false
       /\ metrics (snd (ProcessShare extractSubnet clk w s))
          = Metrics.IncInvalid (metrics w))
      \/ (fst (fst (ProcessShare extractSubnet clk w s))
          = result ShareAccepted "share accepted" None true
          /\ metrics (snd (ProcessShare extractSubnet clk w s))
             = Metrics.IncValid (metrics w))
      \/ (fst (fst (ProcessShare extractSubnet clk w s))
          = result ShareAccepted "duplicate share ignored" None true
          /\ metrics (snd (ProcessShare extractSubnet clk w s)) = metrics w))
  /\ (ShareResult.Valid (fst (fst (ProcessShare extractSubnet clk w s))) = true
      <-> ShareResult.Status (fst (fst (ProcessShare extractSubnet clk w s)))
          = ShareAccepted)
  /\ (snd (fst (ProcessShare extractSubnet clk w s)) <> None ->
      ShareResult.Valid (fst (fst (ProcessShare extractSubnet clk w s))) = false).
Proof.
  unfold ProcessShare.
  destruct (validateShareBasic (at_basic clk) s) as [e|].
  { cbn. split; [reflexivity|]. split; [left; split; reflexivity|].
    split; [split; discriminate|reflexivity]. }
  destruct (isJobActive (at_job clk) (pool w) (Share.JobID s)); cbn [negb].
  2:{ cbn. split; [reflexivity|]. split; [left; split; reflexivity|].
      split; [split; discriminate|reflexivity]. }
  destruct (fraudGate extractSubnet clk w s) as [verdict insp].
  destruct (Security.Flagged verdict).
  { cbn. split; [reflexivity|]. split; [left; split; reflexivity|].
    split; [split; discriminate|reflexivity]. }
  unfold afterGates. cbn [inspected pool Pool.ShareStore].
  destruct (Pool.ShareStore (pool w)) as [st|].
  2:{ cbn. split; [reflexivity|]. split; [right; left; split; reflexivity|].
      split; [split; reflexivity|intros Hx; contradiction]. }
  destruct (Exists (at_exists clk) st (Share.ID s)) as [st1 [found err]].
  destruct (Save (at_save clk) st1 s) as [st2 serr].
  destruct err as [e|], found, serr as [e'|]; cbn;
    (split; [reflexivity|]);
    first
      [ split; [left; split; reflexivity|];
        split; [split; discriminate|reflexivity]
      | split; [right; left; split; reflexivity|];
        split; [split; reflexivity|intros Hx; contradiction]
      | split; [right; right; split; reflexivity|];
        split; [split; reflexivity|intros Hx; contradiction] ].
Qed.

End FacadeFacts.

Section FacadeInMemory.
Import Core.

Variable extractSubnet : string -> string.

Lemma afterGates_internalStore (clk : Clock) (w1 : World internalStore.t) (s : Share.t)
    (st : internalStore.t) :
  Pool.ShareStore (pool w1) = Some st ->
  afterGates clk w1 s
  = if fst (snd (internalStore_Exists (at_exists clk) st (Share.ID s)))
    then ((result ShareAccepted "duplicate share ignored" None true, None),
          stored w1 (internalStore_cleanup (at_exists clk) st))
    else ((result ShareAccepted "share accepted" None true, None),
          validated
            (stored (stored w1 (internalStore_cleanup (at_exists clk) st))
               (fst (internalStore_Save (at_save clk)
                       (internalStore_cleanup (at_exists clk) st) s)))).
Proof.
  intros Hst. unfold afterGates. rewrite Hst.
  cbn [Exists Save internalStore_ShareStore].
  unfold internalStore_Exists. cbn [fst snd].
  destruct (bool_decide _); reflexivity.
Qed.

(** X21.  Duplicates at [ProcessShare] over the in-memory store, its
    retention being a duration above the smallest one.  After a call that
    answered "share accepted", a second call with the same share that passes
    the three gates again answers "duplicate share ignored", without
    counting the share, as long as the age of the share's own timestamp at
    the lookup is within the retention of the store; once that age exceeds
    the retention the share has been forgotten and the second call answers
    "share accepted" and counts it again. *)
Theorem X21_duplicates_are_recognised_within_retention (clk clk2 : Clock)
    (w : World internalStore.t) (s : Share.t) (st : internalStore.t) :
  minDuration < internalStore.ttl st <= maxDuration ->
  Pool.ShareStore (pool w) = Some st ->
  passesGates extractSubnet clk w s ->
  fst (fst (ProcessShare extractSubnet clk w s))
  = result ShareAccepted "share accepted" None true ->
  passesGates extractSubnet clk2 (snd (ProcessShare extractSubnet clk w s)) s ->
  fst (ProcessShare extractSubnet clk2 (snd (ProcessShare extractSubnet clk w s)) s)
  = (result ShareAccepted
       (if at_exists clk2 - Share.Timestamp s <=? internalStore.ttl st
        then "duplicate share ignored" else "share accepted") None true, None)
  /\ Metrics.SharesValid
       (metrics (snd (ProcessShare extractSubnet clk2
                        (snd (ProcessShare extractSubnet clk w s)) s)))
     = if at_exists clk2 - Share.Timestamp s <=? internalStore.ttl st
       then S (Metrics.SharesValid (metrics w))
       else S (S (Metrics.SharesValid (metrics w))).
Proof.
  intros Hr Hst (Hv & Hj & Hf) Hacc (Hv2 & Hj2 & Hf2).
  rewrite (ProcessShare_passed extractSubnet clk2 _ s Hv2 Hj2 Hf2).
  rewrite (ProcessShare_passed extractSubnet clk w s Hv Hj Hf) in Hacc |- *.
  set (w1 := inspected w (snd (fraudGate extractSubnet clk w s))) in *.
  rewrite (afterGates_internalStore clk w1 s st Hst) in Hacc |- *.
  destruct (fst (snd (internalStore_Exists (at_exists clk) st (Share.ID s))));
    [cbn in Hacc; discriminate|].
  cbn [snd].
  set (st2 := fst (internalStore_Save (at_save clk)
                     (internalStore_cleanup (at_exists clk) st) s)).
  set (w2 := validated (stored (stored w1 (internalStore_cleanup (at_exists clk) st)) st2)).
  set (w3 := inspected w2 (snd (fraudGate extractSubnet clk2 w2 s))).
  rewrite (afterGates_internalStore clk2 w3 s st2 eq_refl).
  assert (Hfound : fst (snd (internalStore_Exists (at_exists clk2) st2 (Share.ID s)))
                   = (at_exists clk2 - Share.Timestamp s <=? internalStore.ttl st)).
  { apply eq_true_iff_eq. rewrite internalStore_Exists_found, Z.leb_le by exact Hr.
    unfold st2, internalStore_Save.
    cbn [fst internalStore.entries internalStore.ttl internalStore_cleanup].
    rewrite lookup_insert_eq. split.
    - intros (e & [= <-] & Hage). exact Hage.
    - intros Hage. exists s. split; [reflexivity|exact Hage]. }
  rewrite Hfound.
  destruct (at_exists clk2 - Share.Timestamp s <=? internalStore.ttl st);
    split; reflexivity.
Qed.

End FacadeInMemory.

Section FacadeExamples.
Import Core.

Lemma X19_witness :
  fst (Scenario.processV4 (instant (Scenario.t0 + Second)) Scenario.world1
         Scenario.shareAhead)
  = (result ShareInvalid "blocked by antifraud: clock skew out of tolerance"
       (Some "antifraud rejection"%string) false, None).
Proof.
  assert (Hv : validateShareBasic (at_basic (instant (Scenario.t0 + Second)))
                 Scenario.shareAhead = None) by (vm_compute; reflexivity).
  assert (Hj : isJobActive (at_job (instant (Scenario.t0 + Second)))
                 (pool Scenario.world1) (Share.JobID Scenario.shareAhead) = true)
    by (vm_compute; reflexivity).
  assert (Hs : at_eval (instant (Scenario.t0 + Second)) + 2 * Minute
               < Share.Timestamp Scenario.shareAhead) by (vm_compute; reflexivity).
  exact (f_equal fst
           (X19_clock_skew_narrows_the_timestamp_window Net.extractSubnetV4
              (instant (Scenario.t0 + Second)) Scenario.world1 Scenario.shareAhead
              Hv Hj (or_introl Hs))).
Defined.

Lemma X21_witness :
  fst (Scenario.processV4 (instant (Scenario.t0 + 20 * Second)) Scenario.world2
         Scenario.share1)
  = (result ShareAccepted "duplicate share ignored" None true, None).
Proof.
  assert (Hr : minDuration < internalStore.ttl (newInternalStore (45 * Second))
               <= maxDuration)
    by (split; [vm_compute; reflexivity|vm_compute; discriminate]).
  assert (Hst : Pool.ShareStore (pool Scenario.world1)
                = Some (newInternalStore (45 * Second))) by reflexivity.
  assert (Hp1 : passesGates Net.extractSubnetV4 (instant (Scenario.t0 + Second))
                  Scenario.world1 Scenario.share1)
    by (unfold passesGates; repeat match goal with |- _ /\ _ => split end;
        vm_compute; reflexivity).
  assert (Hacc : fst (fst (ProcessShare Net.extractSubnetV4
                             (instant (Scenario.t0 + Second)) Scenario.world1
                             Scenario.share1))
                 = result ShareAccepted "share accepted" None true)
    by (vm_compute; reflexivity).
  assert (Hp2 : passesGates Net.extractSubnetV4 (instant (Scenario.t0 + 20 * Second))
                  (snd (ProcessShare Net.extractSubnetV4
                          (instant (Scenario.t0 + Second)) Scenario.world1
                          Scenario.share1)) Scenario.share1)
    by (unfold passesGates; repeat match goal with |- _ /\ _ => split end;
        vm_compute; reflexivity).
  exact (proj1 (X21_duplicates_are_recognised_within_retention Net.extractSubnetV4
                  (instant (Scenario.t0 + Second)) (instant (Scenario.t0 + 20 * Second))
                  Scenario.world1 Scenario.share1 (newInternalStore (45 * Second))
                  Hr Hst Hp1 Hacc Hp2)).
Defined.

End FacadeExamples.

(** ** The handler of share submissions *)

Section HandlerFacts.
Import Core Http.

Variable extractSubnet : string -> string.
Context {St : Type} `{ShareStore St}.
Variable SaveShare : option (St -> Share.t -> St * option string).
Variable AddBalance : option (St -> string -> float -> St * option string).

(** The share processor of the handler, which is given the target "0000",
    rejects with one of three descriptions. *)
Lemma Process_handler_description (nowDup nowStale nowSave : Z) (st : St)
    (share : Share.t) (ttl : Z) :
  In (ShareResult.Description
        (fst (Process nowDup nowStale nowSave st share "0000" ttl)))
     ["duplicate share"; "stale share"; "invalid hash"]%string.
Proof.
  unfold Process, ValidateShare, IsValidHash, calculateHash.
  rewrite digest_not_below_0000.
  destruct (IsDuplicate nowDup st share) as [dup st'].
  destruct dup; [cbn; tauto|].
  destruct (IsStale nowStale share ttl); cbn; tauto.
Qed.

(** X22.  [SubmitShareHandler] never answers 200 "Share accepted" and never
    hands a share to the engine.  The share processor it builds is given the
    target "0000", which no hexadecimal digest is below, so every request
    that gets that far is answered 403 with "duplicate share", "stale share"
    or "invalid hash".  Whatever the request: the answer, if any, is an
    error with code 405, 400 or 403; the engine and the counter of valid
    shares are as before; and the handler panics, answering nothing, exactly
    for a POST whose payload has the three required fields and passes the
    fraud check on a pool whose store is nil. *)
Theorem X22_handler_accepts_no_share (clk : Readings) (w : World St)
    (method : string) (body : option SharePayload) :
  (forall r,
      fst (SubmitShareHandler extractSubnet SaveShare AddBalance clk w method body)
      = Some r ->
      Status r = "error"%string
      /\ ((Code r = 405 /\ Message r = "Method Not Allowed"%string)
          \/ (Code r = 400
              /\ In (Message r)
                    ["Invalid JSON structure"; "Missing required fields"]%string)
          \/ (Code r = 403
              /\ In (Message r)
                    ["Suspicious activity detected"; "duplicate share";
                     "stale share"; "invalid hash"]%string)))
  /\ Pool.Engine
       (pool (snd (SubmitShareHandler extractSubnet SaveShare AddBalance clk w
                     method body)))
     = Pool.Engine (pool w)
  /\ Metrics.SharesValid
       (metrics (snd (SubmitShareHandler extractSubnet SaveShare AddBalance clk w
                        method body)))
     = Metrics.SharesValid (metrics w)
  /\ (fst (SubmitShareHandler extractSubnet SaveShare AddBalance clk w method body)
      = None
      <-> method = "POST"%string
          /\ Pool.ShareStore (pool w) = None
          /\ exists p,
               body = Some p
               /\ MinerID p <> ""%string /\ JobID p <> ""%string
               /\ Nonce p <> ""%string
               /\ fst (Security.IsFraudulentNonce extractSubnet (at_ts clk)
                         (at_eval clk) (at_log clk) (at_check clk)
                         (globalInspector w) (MinerID p) (Nonce p)) = false).
Proof.
  unfold SubmitShareHandler.
  destruct (String.eqb_spec method "POST") as [->|Hm]; cbn [negb].
  2:{ cbn. split; [intros r [= <-]; cbn; tauto|]. split; [reflexivity|].
      split; [reflexivity|]. split; [discriminate|intros [Hx _]; contradiction]. }
  destruct body as [p|].
  2:{ cbn. split; [intros r [= <-]; cbn; tauto|]. split; [reflexivity|].
      split; [reflexivity|].
      split; [discriminate|intros (_ & _ & p & [=] & _)]. }
  destruct (String.eqb_spec (MinerID p) "") as [Hmi|Hmi]; cbn [orb].
  { cbn. split; [intros r [= <-]; cbn; tauto|]. split; [reflexivity|].
    split; [reflexivity|].
    split; [discriminate|intros (_ & _ & p' & [= <-] & Hx & _); contradiction]. }
  destruct (String.eqb_spec (JobID p) "") as [Hji|Hji]; cbn [orb].
  { cbn. split; [intros r [= <-]; cbn; tauto|]. split; [reflexivity|].
    split; [reflexivity|].
    split; [discriminate|intros (_ & _ & p' & [= <-] & _ & Hx & _); contradiction]. }
  destruct (String.eqb_spec (Nonce p) "") as [Hno|Hno].
  { cbn. split; [intros r [= <-]; cbn; tauto|]. split; [reflexivity|].
    split; [reflexivity|].
    split; [discriminate|intros (_ & _ & p' & [= <-] & _ & _ & Hx & _); contradiction]. }
  destruct (Security.IsFraudulentNonce extractSubnet (at_ts clk) (at_eval clk)
              (at_log clk) (at_check clk) (globalInspector w) (MinerID p) (Nonce p))
    as [fraud insp] eqn:Hfr.
  destruct fraud.
  { cbn. split; [intros r [= <-]; cbn; tauto|]. split; [reflexivity|].
    split; [reflexivity|].
    split; [discriminate|].
    intros (_ & _ & p' & [= <-] & _ & _ & _ & Hx). rewrite Hfr in Hx. discriminate. }
  cbn [inspected pool Pool.ShareStore].
  destruct (Pool.ShareStore (pool w)) as [st|].
  2:{ cbn. split; [intros r [=]|]. split; [reflexivity|]. split; [reflexivity|].
      split; [intros _|reflexivity].
      split; [reflexivity|]. split; [reflexivity|]. exists p.
      rewrite Hfr. repeat split; assumption. }
  set (share := {| Share.ID := ""; Share.JobID := JobID p; Share.WorkerID := MinerID p;
                   Share.Nonce := Nonce p; Share.Hash := Hash p;
                   Share.Diff := HashRate p; Share.Timestamp := at_share clk;
                   Share.IP := "" |}).
  pose proof (Process_handler_accepts_nothing (at_dup clk) (at_stale clk) (at_save clk)
                st share (30 * Second)) as Hrej.
  pose proof (Process_handler_description (at_dup clk) (at_stale clk) (at_save clk)
                st share (30 * Second)) as Hdesc.
  destruct (Process (at_dup clk) (at_stale clk) (at_save clk) st share "0000"
              (30 * Second)) as [res st1].
  cbn [fst] in Hrej, Hdesc. rewrite Hrej. cbn [negb fst snd].
  split.
  { intros r [= <-]. cbn [Status Code Message]. split; [reflexivity|].
    right. right. split; [reflexivity|]. cbn in Hdesc |- *. tauto. }
  split; [reflexivity|]. split; [reflexivity|].
  split; [discriminate|intros (_ & [=] & _)].
Qed.

End HandlerFacts.

(** ** The verdict of the inspector as a whole *)

Section Verdicts.
Import Security.

Variable extractSubnet : string -> string.

Lemma tokenLevel_clean (n : nat) :
  fst (tokenLevel n) = NoThreat <-> (n < _nonceReuseWarn)%nat.
Proof.
  unfold tokenLevel, _nonceReuseBlock, _nonceReuseWarn.
  destruct (Nat.leb_spec 10 n); [cbn; split; [discriminate|lia]|].
  destruct (Nat.leb_spec 3 n); cbn; split; try discriminate; try lia; reflexivity.
Qed.

Lemma markToken_clean (st : state) (token : string) (now : Z) :
  fst (fst (markToken st token now)) = NoThreat
  <-> token = ""%string \/ (length (tokensAfter now st token) < _nonceReuseWarn)%nat.
Proof.
  destruct (String.eqb_spec token "") as [->|Hne].
  - cbn. tauto.
  - destruct (markToken_Tokens st token now Hne) as [_ ->].
    rewrite tokenLevel_clean. tauto.
Qed.

(** X24.  The verdict of [EvaluateShare] is clean, that is not flagged,
    exactly when all of the following hold: the timestamp is within the
    clock tolerance; with this request the window of the subnet key holds at
    most twenty requests; the nonce has been logged fewer than ten times
    within the window, by whatever miner; the miner did not use the nonce
    within the last fifteen seconds; the hash is empty or, this sighting
    included, has been seen fewer than three times within the window in the
    table that nonces and hashes share; and the subnet is not on the
    greylist with an entry at most three minutes old.  A nonce logged three
    to nine times by other miners does not flag the share. *)
Theorem X24_clean_verdict (now nowLog nowChk : Z) (g : option state)
    (minerID ip nonce hash : string) (ts : Z) :
  Flagged (fst (EvaluateShare extractSubnet now nowLog nowChk g
                  minerID ip nonce hash ts)) = false
  <-> clockSkewed now ts = false
      /\ (length (windowAfter nowLog (current g) (extractSubnet (extractSubnet ip)))
          <= _maxRequestsPerSubnet)%nat
      /\ (length (tokensAfter nowLog (current g) nonce) < _nonceReuseBlock)%nat
      /\ ~ (exists m t, NonceMap (current g) !! minerID = Some m
                        /\ m !! nonce = Some t /\ now - t <= 15 * Second)
      /\ (hash = ""%string
          \/ (length (tokensAfter now
                        (snd (LogRequest extractSubnet nowLog (current g)
                                (extractSubnet ip) nonce)) hash)
              < _nonceReuseWarn)%nat)
      /\ ~ (exists added, Greylist (current g) !! extractSubnet ip = Some added
                          /\ nowChk - added <= 3 * Minute).
Proof.
  rewrite nonce_seen_forms. unfold EvaluateShare.
  destruct (clockSkewed now ts); [cbn; split; [discriminate|intros [[=] _]]|].
  pose proof (LogRequest_Block_iff extractSubnet nowLog (current g)
                (extractSubnet ip) nonce) as Hb.
  pose proof (LogRequest_quiet extractSubnet nowLog (current g) (extractSubnet ip) nonce)
    as Hq.
  pose proof (LogRequest_NonceMap extractSubnet nowLog (current g)
                (extractSubnet ip) nonce) as Hn.
  destruct (LogRequest extractSubnet nowLog (current g) (extractSubnet ip) nonce)
    as [lvl st1]. cbn [fst snd] in Hb, Hq, Hn |- *.
  assert (Hcases : lvl = Block \/ lvl <> Block)
    by (destruct lvl; [right|right|left]; congruence).
  destruct Hcases as [->|Hnb].
  { cbn. split; [discriminate|]. intros (_ & H1 & H2 & _).
    destruct (proj1 Hb eq_refl); lia. }
  assert (Hfew : (length (windowAfter nowLog (current g)
                            (extractSubnet (extractSubnet ip)))
                  <= _maxRequestsPerSubnet)%nat
                 /\ (length (tokensAfter nowLog (current g) nonce)
                     < _nonceReuseBlock)%nat).
  { split.
    - destruct (le_gt_dec (length (windowAfter nowLog (current g)
                                     (extractSubnet (extractSubnet ip))))
                  _maxRequestsPerSubnet) as [Hle|Hgt]; [exact Hle|].
      exfalso. apply Hnb, Hb. left. exact Hgt.
    - destruct (le_gt_dec _nonceReuseBlock
                  (length (tokensAfter nowLog (current g) nonce))) as [Hle|Hgt];
        [|exact Hgt].
      exfalso. apply Hnb, Hb. right. exact Hle. }
  pose proof (checkNonceReuse_frame st1 minerID nonce now) as (G2 & _ & T2).
  pose proof (checkNonceReuse_seen st1 minerID nonce now) as Hseen.
  pose proof (checkNonceReuse_unseen st1 minerID nonce now) as Hunseen.
  rewrite Hn in Hseen, Hunseen.
  destruct (nonce_seen_dec (current g) minerID nonce now) as [Hy|Hnot].
  - specialize (Hseen Hy).
    destruct (checkNonceReuse st1 minerID nonce now) as [[nlvl nreason] st2].
    cbn [fst] in Hseen. injection Hseen as -> ->.
    destruct lvl; [| |contradiction];
      (cbn; split; [discriminate|intros (_ & _ & _ & Hx & _); contradiction]).
  - specialize (Hunseen Hnot).
    destruct (checkNonceReuse st1 minerID nonce now) as [[nlvl nreason] st2].
    cbn [fst snd] in Hunseen, G2, T2. injection Hunseen as -> ->.
    pose proof (markToken_clean st2 hash now) as Hm.
    assert (Hta : tokensAfter now st2 hash = tokensAfter now st1 hash)
      by (unfold tokensAfter; rewrite T2; reflexivity).
    rewrite Hta in Hm.
    pose proof (markToken_frame st2 hash now) as (G3 & _).
    destruct (markToken st2 hash now) as [[hlvl hreason] st3].
    cbn [fst snd] in Hm, G3.
    pose proof (Check_iff nowChk st3 (extractSubnet ip)) as Hc.
    rewrite G3, G2, (Hq Hnb) in Hc.
    assert (Hrest : forall v : Verdict * state,
               v = match hlvl with
                   | NoThreat =>
                       if Check nowChk st3 (extractSubnet ip)
                       then ({| Flagged := true; Reason := "subnet greylisted";
                                Level := Block |}, st3)
                       else ({| Flagged := false; Reason := ""; Level := NoThreat |}, st3)
                   | Warn => ({| Flagged := true; Reason := hreason; Level := Warn |}, st3)
                   | Block => ({| Flagged := true; Reason := hreason; Level := Block |}, st3)
                   end ->
               Flagged (fst v) = false
               <-> true = true
                   /\ (length (windowAfter nowLog (current g)
                                 (extractSubnet (extractSubnet ip)))
                       <= _maxRequestsPerSubnet)%nat
                   /\ (length (tokensAfter nowLog (current g) nonce)
                       < _nonceReuseBlock)%nat
                   /\ ~ (exists t, default ∅ (NonceMap (current g) !! minerID) !! nonce
                                   = Some t /\ now - t <= 15 * Second)
                   /\ (hash = ""%string
                       \/ (length (tokensAfter now st1 hash) < _nonceReuseWarn)%nat)
                   /\ ~ (exists added,
                           Greylist (current g) !! extractSubnet ip = Some added
                           /\ nowChk - added <= 3 * Minute)).
    { intros v ->. destruct Hfew as [Hw Ht].
      destruct hlvl.
      - destruct (Check nowChk st3 (extractSubnet ip)); cbn [fst Flagged].
        + split; [discriminate|]. intros (_ & _ & _ & _ & _ & Hx).
          exfalso. apply Hx, Hc. reflexivity.
        + split; [|reflexivity]. intros _.
          split; [reflexivity|]. split; [exact Hw|]. split; [exact Ht|].
          split; [exact Hnot|]. split; [apply Hm; reflexivity|].
          intros Hx. apply Hc in Hx. discriminate.
      - cbn. split; [discriminate|]. intros (_ & _ & _ & _ & Hx & _).
        apply Hm in Hx. discriminate.
      - cbn. split; [discriminate|]. intros (_ & _ & _ & _ & Hx & _).
        apply Hm in Hx. discriminate. }
    destruct lvl; [| |contradiction];
      (rewrite (Hrest _ eq_refl); split;
       [ intros (_ & Hx); split; [reflexivity|exact Hx]
       | intros (_ & Hx); split; [reflexivity|exact Hx] ]).
Qed.

Lemma same_tables_LogRequest (now : Z) (st st' : state) (ip token : string) :
  Subnets st = Subnets st' -> Tokens st = Tokens st' -> NonceMap st = NonceMap st' ->
  fst (LogRequest extractSubnet now st ip token)
  = fst (LogRequest extractSubnet now st' ip token)
  /\ Subnets (snd (LogRequest extractSubnet now st ip token))
     = Subnets (snd (LogRequest extractSubnet now st' ip token))
  /\ Tokens (snd (LogRequest extractSubnet now st ip token))
     = Tokens (snd (LogRequest extractSubnet now st' ip token))
  /\ NonceMap (snd (LogRequest extractSubnet now st ip token))
     = NonceMap (snd (LogRequest extractSubnet now st' ip token)).
Proof.
  intros Hs Ht Hn. rewrite !LogRequest_Subnets, !LogRequest_Tokens, !LogRequest_NonceMap.
  unfold windowAfter, tokensAfter. rewrite Hs, Ht, Hn.
  split; [|repeat split; reflexivity].
  unfold LogRequest. cbn [Subnets Tokens with_Subnets with_Tokens]. rewrite Hs, Ht.
  repeat match goal with |- context [if ?b then _ else _] => destruct b end; reflexivity.
Qed.

Lemma Check_after_sweeps (ticks : list Z) (nowChk : Z) (st : state) (subnet : string) :
  Forall (fun tick => tick <= nowChk) ticks ->
  Check nowChk (cleanGreylist ticks st) subnet = Check nowChk st subnet.
Proof.
  intros Hall. apply eq_true_iff_eq. rewrite !Check_iff. split.
  - intros (added & Ha & Hage). apply cleanGreylist_Greylist in Ha. exists added. tauto.
  - intros (added & Ha & Hage). exists added. split; [|exact Hage].
    apply cleanGreylist_Greylist. split; [exact Ha|].
    eapply Forall_impl; [exact Hall|]. cbn. intros tick Hle.
    change _greylistTimeout with (3 * Minute). lia.
Qed.

(** X23.  The sweeper of the greylist never changes a verdict.  When every
    tick so far read the clock no later than the greylist check of an
    evaluation does, the evaluation returns the verdict it would have
    returned had the sweeper not run: the sweeper removes only entries that
    [Check] would no longer honour. *)
Theorem X23_sweeper_never_changes_a_verdict (ticks : list Z) (now nowLog nowChk : Z)
    (st : state) (minerID ip nonce hash : string) (ts : Z) :
  Forall (fun tick => tick <= nowChk) ticks ->
  fst (EvaluateShare extractSubnet now nowLog nowChk (Some (cleanGreylist ticks st))
         minerID ip nonce hash ts)
  = fst (EvaluateShare extractSubnet now nowLog nowChk (Some st)
           minerID ip nonce hash ts).
Proof.
  intros Hall. unfold EvaluateShare. cbn [current].
  destruct (clockSkewed now ts); [reflexivity|].
  destruct (cleanGreylist_frame ticks st) as (Hs & Ht & Hn).
  destruct (same_tables_LogRequest nowLog (cleanGreylist ticks st) st
              (extractSubnet ip) nonce Hs Ht Hn) as (Hl & Hs1 & Ht1 & Hn1).
  pose proof (LogRequest_quiet extractSubnet nowLog (cleanGreylist ticks st)
                (extractSubnet ip) nonce) as Hq'.
  pose proof (LogRequest_quiet extractSubnet nowLog st (extractSubnet ip) nonce) as Hq.
  destruct (LogRequest extractSubnet nowLog (cleanGreylist ticks st)
              (extractSubnet ip) nonce) as [lvl' st1'].
  destruct (LogRequest extractSubnet nowLog st (extractSubnet ip) nonce) as [lvl st1].
  cbn [fst snd] in *. subst lvl'.
  assert (Hcases : lvl = Block \/ lvl <> Block)
    by (destruct lvl; [right|right|left]; congruence).
  destruct Hcases as [->|Hnb]; [reflexivity|].
  specialize (Hq Hnb). specialize (Hq' Hnb).
  assert (Hnonce : fst (checkNonceReuse st1' minerID nonce now)
                   = fst (checkNonceReuse st1 minerID nonce now))
    by (unfold checkNonceReuse; rewrite Hn1;
        destruct (negb _); reflexivity).
  pose proof (checkNonceReuse_frame st1' minerID nonce now) as (G2' & _ & T2').
  pose proof (checkNonceReuse_frame st1 minerID nonce now) as (G2 & _ & T2).
  destruct (checkNonceReuse st1' minerID nonce now) as [[nlvl' nreason'] st2'].
  destruct (checkNonceReuse st1 minerID nonce now) as [[nlvl nreason] st2].
  cbn [fst snd] in *. injection Hnonce as -> ->.
  assert (Hmark : fst (markToken st2' hash now) = fst (markToken st2 hash now))
    by (unfold markToken; rewrite T2', T2, Ht1;
        repeat match goal with |- context [if ?b then _ else _] => destruct b end;
        reflexivity).
  pose proof (markToken_frame st2' hash now) as (G3' & _).
  pose proof (markToken_frame st2 hash now) as (G3 & _).
  destruct (markToken st2' hash now) as [[hlvl' hreason'] st3'].
  destruct (markToken st2 hash now) as [[hlvl hreason] st3].
  cbn [fst snd] in *. injection Hmark as -> ->.
  assert (Hchk : Check nowChk st3' (extractSubnet ip)
                 = Check nowChk st3 (extractSubnet ip)).
  { transitivity (Check nowChk (cleanGreylist ticks st) (extractSubnet ip)).
    - unfold Check. rewrite G3', G2', Hq'. reflexivity.
    - rewrite (Check_after_sweeps ticks nowChk st (extractSubnet ip) Hall).
      unfold Check. rewrite G3, G2, Hq. reflexivity. }
  rewrite Hchk.
  destruct lvl, nlvl, hlvl; try reflexivity;
    destruct (Check nowChk st3 (extractSubnet ip)); reflexivity.
Qed.

End Verdicts.

Section VerdictExample.
Import Security.

Lemma X23_witness :
  fst (EvaluateShare Net.extractSubnetV4 (Scenario.t0 + 16 * Minute)
         (Scenario.t0 + 16 * Minute) (Scenario.t0 + 16 * Minute)
         (Some (cleanGreylist Scenario.silentTicks (current Scenario.afterTwentyOne)))
         "w1" "10.0.0.1" "00000000" "ab" (Scenario.t0 + 16 * Minute))
  = fst (EvaluateShare Net.extractSubnetV4 (Scenario.t0 + 16 * Minute)
           (Scenario.t0 + 16 * Minute) (Scenario.t0 + 16 * Minute)
           (Some (current Scenario.afterTwentyOne))
           "w1" "10.0.0.1" "00000000" "ab" (Scenario.t0 + 16 * Minute)).
Proof.
  assert (Hall : Forall (fun tick => tick <= Scenario.t0 + 16 * Minute)
                   Scenario.silentTicks).
  { unfold Scenario.silentTicks. cbn [map seq].
    repeat (constructor; [vm_compute; discriminate|]). constructor. }
  exact (X23_sweeper_never_changes_a_verdict Net.extractSubnetV4 Scenario.silentTicks
           (Scenario.t0 + 16 * Minute) (Scenario.t0 + 16 * Minute)
           (Scenario.t0 + 16 * Minute) (current Scenario.afterTwentyOne)
           "w1" "10.0.0.1" "00000000" "ab" (Scenario.t0 + 16 * Minute) Hall).
Defined.

End VerdictExample.

Section WorkerRegistry.
Import Core.

(** X25.  The worker registry of the engine.  [AppendWorker] fails, with
    "worker invalid", exactly for an empty id or a nil worker, and then
    changes nothing; otherwise [FetchWorker] finds the worker under the id,
    whatever was registered under it before, while every other id, the share
    lists and the rate-limit times stay as they were.  After [PurgeWorker]
    neither the worker nor its share list is found, every other id is
    unaffected, and so are the jobs; purging an id that is not registered
    changes no lookup. *)
Theorem X25_worker_registry_round_trip (pc : PoolCore) (id other : string)
    (wrk : option Worker.t) :
  (snd (AppendWorker pc id wrk) = Some "worker invalid"%string
   <-> id = ""%string \/ wrk = None)
  /\ (snd (AppendWorker pc id wrk) = None
      <-> id <> ""%string /\ wrk <> None)
  /\ (snd (AppendWorker pc id wrk) <> None -> fst (AppendWorker pc id wrk) = pc)
  /\ (snd (AppendWorker pc id wrk) = None ->
      FetchWorker (fst (AppendWorker pc id wrk)) id = wrk)
  /\ (other <> id ->
      FetchWorker (fst (AppendWorker pc id wrk)) other = FetchWorker pc other)
  /\ ListShares (fst (AppendWorker pc id wrk)) other = ListShares pc other
  /\ lastSubmission (fst (AppendWorker pc id wrk)) = lastSubmission pc
  /\ FetchWorker (PurgeWorker pc id) id = None
  /\ ListShares (PurgeWorker pc id) id = None
  /\ (other <> id ->
      FetchWorker (PurgeWorker pc id) other = FetchWorker pc other
      /\ ListShares (PurgeWorker pc id) other = ListShares pc other
      /\ lastSubmission (PurgeWorker pc id) !! other = lastSubmission pc !! other)
  /\ activeJobs (PurgeWorker pc id) = activeJobs pc.
Proof.
  unfold AppendWorker, PurgeWorker, FetchWorker, ListShares.
  destruct wrk as [w|]; [destruct (String.eqb_spec id "") as [->|Hid]|];
    cbn [fst snd workers workerShares lastSubmission activeJobs];
    rewrite ?lookup_insert_eq, ?lookup_delete_eq;
    repeat match goal with
      | |- _ /\ _ => split
      | |- _ <-> _ => split
      end;
    try reflexivity; try discriminate; try tauto; try (intros; congruence);
    try (intros [Hx|Hx]; congruence); try (intros [Hx Hy]; congruence);
    try (intros _; split; [exact Hid|discriminate]);
    try (intros Hne; rewrite ?lookup_insert_ne, ?lookup_delete_ne by congruence;
         repeat split; reflexivity).
Qed.

End WorkerRegistry.
